(** * htmap.htio: the map directory state store

    A shallow embedding of [src/htmap/htio.py] and of the parts of the
    Python runtime it calls ([str], [int], [str.strip], [str.splitlines],
    [pathlib.Path.read_text]/[write_text]/[open], [json.dump]/[json.load],
    [gzip.open], [cloudpickle.dump]/[load]), followed by the properties
    of the store.

    Conventions of the model.
    - Text is a [string]: a sequence of code points below 256, and a file
      holds the code points of its text.  Everything the writers of this
      module produce is ASCII.  The platform is POSIX: text is written with
      the line ends it has.
    - A Python [int] is a [Z]; the interpreter's optional cap on the number
      of digits of a decimal conversion is not part of the model.
    - The file system is a finite map from paths to nodes; exceptions are
      values of [exn]; a statement that can raise is a computation in the
      state-and-exception monad [M]. *)

From Stdlib Require Import ZArith NArith Ascii String List Lia Bool.
From stdpp Require Import base option list gmap strings.

Open Scope string_scope.
Open Scope list_scope.
Open Scope stdpp_scope.

#[global] Arguments String.append !_ _ / : simpl nomatch.

(** ** Exceptions and results *)

(** The exception classes the modelled calls can raise.  [Defined cls] is
    an exception class the model has no constructor for, by name: one the
    application declares, or one of a library; [Unmodelled]
    is no Python exception: it marks an input on which the runtime leaves
    the modelled fragment (a float literal or a code point above U+00FF in a
    JSON document). *)
Inductive exn : Type :=
  | FileNotFoundError
  | IsADirectoryError
  | NotADirectoryError
  | BadGzipFile
  | EOFError
  | UnpicklingError
  | ValueError
  | JSONDecodeError
  | Defined (cls : string)
  | Unmodelled.

(** [issubclass(type(e), OSError)]: the errors of the operating system's
    file interface. *)
Definition is_OSError (e : exn) : bool :=
  match e with
  | FileNotFoundError | IsADirectoryError | NotADirectoryError | BadGzipFile => true
  | _ => false
  end.

Inductive result (A : Type) : Type :=
  | Ok (a : A)
  | Raise (e : exn).
Arguments Ok {A} a.
Arguments Raise {A} e.

#[global] Instance result_ret : MRet result := fun A a => Ok a.
#[global] Instance result_bind : MBind result := fun A B f r =>
  match r with
  | Ok a => f a
  | Raise e => Raise e
  end.
#[global] Instance result_fmap : FMap result := fun A B f r =>
  match r with
  | Ok a => Ok (f a)
  | Raise e => Raise e
  end.

(** ** Characters and strings *)

Module PyStr.

Definition code (c : ascii) : N := N_of_ascii c.
Definition chr (n : N) : ascii := ascii_of_N n.

Definition LF : ascii := chr 10.
Definition CR : ascii := chr 13.

Definition in_range (lo hi : N) (c : ascii) : bool :=
  (lo <=? code c)%N && (code c <=? hi)%N.

(** [Py_ISSPACE]: the C-locale white space, used by [int] and by the JSON
    number and structure scanners of the C runtime. *)
Definition is_space_c (c : ascii) : bool :=
  in_range 9 13 c || (code c =? 32)%N.

(** [Py_UNICODE_ISSPACE] below U+0100, used by [str.strip]. *)
Definition is_space (c : ascii) : bool :=
  in_range 9 13 c || in_range 28 32 c || (code c =? 133)%N || (code c =? 160)%N.

(** The line boundaries of [str.splitlines] below U+0100. *)
Definition is_linebreak (c : ascii) : bool :=
  in_range 10 13 c || in_range 28 30 c || (code c =? 133)%N.

Definition is_digit (c : ascii) : bool := in_range 48 57 c.
Definition digit_val (c : ascii) : N := (code c - 48)%N.
Definition digit_chr (d : N) : ascii := chr (48 + d).

(** [str.lstrip()], [str.rstrip()] and [str.strip()] with no argument. *)
Fixpoint lstrip (s : string) : string :=
  match s with
  | String c s' => if is_space c then lstrip s' else s
  | "" => ""
  end.

Fixpoint rstrip (s : string) : string :=
  match s with
  | "" => ""
  | String c s' =>
      match rstrip s' with
      | "" => if is_space c then "" else String c ""
      | r => String c r
      end
  end.

Definition strip (s : string) : string := rstrip (lstrip s).

(** [str.splitlines()] (keepends false): a line ends at a line boundary,
    CR LF counts as one boundary, and a last line with no boundary after it
    is kept when it is not empty. *)
Fixpoint splitlines (s : string) : list string :=
  match s with
  | "" => []
  | String c s' =>
      if is_linebreak c then
        "" :: match s' with
              | String c' s'' =>
                  if Ascii.eqb c CR && Ascii.eqb c' LF then splitlines s''
                  else splitlines s'
              | "" => []
              end
      else
        match splitlines s' with
        | [] => [String c ""]
        | l :: ls => String c l :: ls
        end
  end.

(** [str(n)] for an [int]: a minus sign for a negative number, then the
    decimal digits, most significant first, with no leading zero. *)
Fixpoint digits (fuel : nat) (n : N) : string :=
  match fuel with
  | O => ""
  | S f =>
      (if (n <? 10)%N then "" else digits f (n / 10)) +:+
      String (digit_chr (n mod 10)) ""
  end.

Definition str_of_N (n : N) : string := digits (S (N.to_nat (N.log2 n))) n.

Definition str (z : Z) : string :=
  match z with
  | Zneg p => String "-" (str_of_N (Npos p))
  | _ => str_of_N (Z.to_N z)
  end.

(** [int(s)] for a [str], base 10.  The text is first brought to ASCII
    ([_PyUnicode_TransformDecimalAndSpaceToASCII]: ASCII text is kept as it
    is; in other text NEL and NBSP become a space and every other code point
    from U+007F up becomes a question mark), then read as: C white space, an
    optional sign, decimal digits with single underscores between digits,
    C white space. *)
Fixpoint smap (f : ascii -> ascii) (s : string) : string :=
  match s with
  | "" => ""
  | String c s' => String (f c) (smap f s')
  end.

Fixpoint sall (p : ascii -> bool) (s : string) : bool :=
  match s with
  | "" => true
  | String c s' => p c && sall p s'
  end.

Definition is_ascii (c : ascii) : bool := (code c <? 128)%N.

Definition to_ascii (c : ascii) : ascii :=
  if (code c <? 127)%N then c else if is_space c then " "%char else "?"%char.

Definition transform (s : string) : string :=
  if sall is_ascii s then s else smap to_ascii s.

Fixpoint skip_space_c (s : string) : string :=
  match s with
  | String c s' => if is_space_c c then skip_space_c s' else s
  | "" => ""
  end.

Fixpoint scan_digits (acc : N) (s : string) : option (N * string) :=
  match s with
  | "" => Some (acc, "")
  | String c s' =>
      if is_digit c then scan_digits (10 * acc + digit_val c) s'
      else if Ascii.eqb c "_" then
        match s' with
        | String c' s'' =>
            if is_digit c' then scan_digits (10 * acc + digit_val c') s''
            else None
        | "" => None
        end
      else Some (acc, s)
  end.

Definition scan_sign (s : string) : bool * string :=
  match s with
  | String c s' =>
      if Ascii.eqb c "-" then (true, s')
      else if Ascii.eqb c "+" then (false, s')
      else (false, s)
  | "" => (false, "")
  end.

Definition int (s : string) : result Z :=
  let '(neg, body) := scan_sign (skip_space_c (transform s)) in
  match body with
  | String c _ =>
      if is_digit c then
        match scan_digits 0 body with
        | Some (n, rest) =>
            match skip_space_c rest with
            | "" => Ok (if neg then (- Z.of_N n)%Z else Z.of_N n)
            | _ => Raise ValueError
            end
        | None => Raise ValueError
        end
      else Raise ValueError
  | "" => Raise ValueError
  end.

End PyStr.

(** ** Paths and the file system *)

(** A path is the list of its components below the root; [d / "name"] of
    [pathlib] appends one component and [Path.parent] drops the last. *)
Abbreviation path := (list string).

Definition joinpath (d : path) (name : string) : path := d ++ [name].
Infix "</>" := joinpath (at level 40, left associativity).

Definition parent (p : path) : path := removelast p.

Inductive node : Type :=
  | Dir
  | File (content : string).

Abbreviation filesystem := (gmap path node).

(** Statements that read or change the file system and may raise: the
    state after an exception is the state at the point of the raise. *)
Definition M (A : Type) : Type := filesystem -> result A * filesystem.

#[global] Instance M_ret : MRet M := fun A a fs => (Ok a, fs).
#[global] Instance M_bind : MBind M := fun A B f m fs =>
  match m fs with
  | (Ok a, fs') => f a fs'
  | (Raise e, fs') => (Raise e, fs')
  end.

Definition lift {A : Type} (r : result A) : M A := fun fs => (r, fs).
Definition raise {A : Type} (e : exn) : M A := lift (Raise e).
Definition get_fs : M filesystem := fun fs => (Ok fs, fs).
Definition put_node (p : path) (n : node) : M unit := fun fs => (Ok tt, <[p := n]> fs).

(** Running a computation: its outcome, and the file system it leaves. *)
Definition outcome {A : Type} (m : M A) (fs : filesystem) : result A := fst (m fs).
Definition effect {A : Type} (m : M A) (fs : filesystem) : filesystem := snd (m fs).

Fixpoint for_each {A : Type} (l : list A) (body : A -> M unit) : M unit :=
  match l with
  | [] => mret tt
  | x :: l' => body x ≫= fun _ => for_each l' body
  end.

Module Os.

(** The directories above a path, the nearest first, up to the root. *)
Fixpoint ancestors_from (n : nat) (p : path) : list path :=
  match n with
  | O => []
  | S k => parent p :: ancestors_from k (parent p)
  end.

Definition ancestors (p : path) : list path := ancestors_from (length p) p.

(** The first of the paths at which there is a node, and that node. *)
Fixpoint first_node (fs : filesystem) (l : list path) : option node :=
  match l with
  | [] => None
  | d :: l' =>
      match fs !! d with
      | Some n => Some n
      | None => first_node fs l'
      end
  end.

(** The nearest node above [p] that is there: where the resolution of the
    path by the operating system stops when it does not reach [p]. *)
Definition nearest_above (fs : filesystem) (p : path) : option node :=
  first_node fs (ancestors p).

(** The error of [open] on a path the resolution does not reach: ENOTDIR
    where it stops at a regular file, ENOENT where it stops at a directory
    in which the next component is missing. *)
Definition missing_error (fs : filesystem) (p : path) : exn :=
  match nearest_above fs p with
  | Some (File _) => NotADirectoryError
  | _ => FileNotFoundError
  end.

(** What [open(path, "rb")] or [open(path, "r")] finds. *)
Definition open_read (p : path) : M string :=
  fs ← get_fs;
  match fs !! p with
  | Some (File content) => mret content
  | Some Dir => raise IsADirectoryError
  | None => raise (missing_error fs p)
  end.

(** The checks of [open] in a writing mode: the target is no directory
    and its parent is one.  The result is the content of the target, if it
    is there. *)
Definition open_write (p : path) : M (option string) :=
  fs ← get_fs;
  match fs !! p with
  | Some Dir => raise IsADirectoryError
  | Some (File content) => mret (Some content)
  | None =>
      match fs !! parent p with
      | Some Dir => mret None
      | _ => raise (missing_error fs p)
      end
  end.

(** Text read with universal newlines: CR LF and CR arrive as LF. *)
Fixpoint universal_newlines (s : string) : string :=
  match s with
  | "" => ""
  | String c s' =>
      if Ascii.eqb c PyStr.CR then
        String PyStr.LF
          match s' with
          | String c' s'' =>
              if Ascii.eqb c' PyStr.LF then universal_newlines s''
              else universal_newlines s'
          | "" => ""
          end
      else String c (universal_newlines s')
  end.

(** [Path.read_text()]. *)
Definition read_text (p : path) : M string :=
  content ← open_read p; mret (universal_newlines content).

(** [Path.write_text(data)]: mode "w" creates or truncates. *)
Definition write_text (p : path) (data : string) : M unit :=
  _ ← open_write p; put_node p (File data).

(** [with path.open(mode="a") as file: file.write(data)]: mode "a"
    creates the file or keeps what it holds, and writes at its end. *)
Definition append_text (p : path) (data : string) : M unit :=
  old ← open_write p; put_node p (File (default "" old +:+ data)).

(** [open] in a writing mode goes through where the target is a file, or
    is absent from a directory. *)
Definition can_write (fs : filesystem) (p : path) : Prop :=
  (exists content, fs !! p = Some (File content)) \/
  (fs !! p = None /\ fs !! parent p = Some Dir).

Definition content_of (fs : filesystem) (p : path) : option string :=
  match fs !! p with
  | Some (File content) => Some content
  | _ => None
  end.

End Os.

(** ** The object codec: gzip and cloudpickle *)

(** The serialization backend is a capability the module is given.
    [dumps v] are the bytes [cloudpickle.dump(v, file)] writes; [load
    stream] is [cloudpickle.load(file)]: the object at the front of the
    stream and the stream after it.  [gzip_member data] are the bytes a
    [gzip.open(path, "wb")] file holds once [data] was written to it and it
    was closed; [gunzip bytes] is the stream a [gzip.open(path, "rb")] file
    presents, the members of the file one after the other.  The model
    decompresses when the file is opened, the library when it is read: on a
    file whose first member is followed by bytes that are no member the
    model raises at the open, where the library still hands out the first
    member; the properties that depend on what the file holds are stated
    of files that decompress.
    [equiv] is behavioural equivalence of values: a function loaded from its
    pickle is a new object.  [V] is the type of the values the pickler
    serializes, so that [dumps] is total; what [save_object] does with an
    object the pickler refuses is [htio.save_object_refused]. *)
Class Codec (V : Type) : Type := {
  dumps : V -> string;
  load : string -> result (V * string);
  gzip_member : string -> string;
  gunzip : string -> result string;
  equiv : V -> V -> Prop;
  load_dumps : forall v rest,
    exists v', load (dumps v +:+ rest) = Ok (v', rest) /\ equiv v v';
  load_eof : load "" = Raise EOFError;
  gunzip_eof : gunzip "" = Ok "";
  gunzip_member : forall data rest,
    gunzip (gzip_member data +:+ rest) = (r ← gunzip rest; mret (data +:+ r))
}.

Module Gzip.

(** A file open for writing through [gzip.open(path, "wb")].  The model
    holds the bytes written to it back until the file is closed.  The
    library passes a beginning of the container on to the file whenever a
    buffer is full, so that before the close the file holds some beginning
    of the container, and never the whole of it: the last bytes, the
    trailer, are written by the close. *)
Record writer : Type := { gz_path : path; gz_data : string }.

(** The beginnings of a text, the shortest first: from the empty text to
    the text itself. *)
Fixpoint beginnings (s : string) : list string :=
  match s with
  | "" => [""]
  | String c s' => "" :: map (String c) (beginnings s')
  end.

(** [gzip.open(path, mode="wb")]: the target is created, or emptied. *)
Definition open_wb (p : path) : M writer :=
  _ ← Os.open_write p;
  _ ← put_node p (File "");
  mret {| gz_path := p; gz_data := "" |}.

Definition write (f : writer) (data : string) : writer :=
  {| gz_path := gz_path f; gz_data := gz_data f +:+ data |}.

Definition close {V : Type} `{!Codec V} (f : writer) : M unit :=
  put_node (gz_path f) (File (gzip_member (gz_data f))).

(** [gzip.open(path, mode="rb")], read to the end. *)
Definition open_rb {V : Type} `{!Codec V} (p : path) : M string :=
  bytes ← Os.open_read p; lift (gunzip bytes).

End Gzip.

(** The artifact names of [htmap.names].  That module is not among the
    sources; each name is the one the directory layout of the spec gives. *)
Module names.
(** Modelled from the spec: the file of the mapped function. *)
Definition FUNC : string := "function".
(** Modelled from the spec: the directory of the input components. *)
Definition INPUTS_DIR : string := "inputs".
(** Modelled from the spec: the extension of an input component file. *)
Definition INPUT_EXT : string := "in".
(** Modelled from the spec: the file of the component count. *)
Definition NUM_COMPONENTS : string := "num_components".
(** Modelled from the spec: the log of the cluster ids. *)
Definition CLUSTER_IDS : string := "cluster_ids".
(** Modelled from the spec: the submit description. *)
Definition SUBMIT : string := "submit".
(** Modelled from the spec: the item descriptors. *)
Definition ITEMDATA : string := "itemdata".
End names.

(** ** JSON documents: [json.dump] and [json.load] *)

Module Json.
Import PyStr.

(** The values a JSON document holds, as Python has them: [None], [bool],
    [int], [str], [list], and [dict] with [str] keys.  A [dict] is the list
    of its items in insertion order.  Numbers of type [float] are outside
    the model. *)
#[warnings="-register-all"]
Inductive value : Type :=
  | Null
  | Bool (b : bool)
  | Int (n : Z)
  | Str (s : string)
  | List (items : list value)
  | Dict (members : list (string * value)).

Abbreviation dict := (list (string * value)).

Definition QUOTE : ascii := chr 34.
Definition BACKSLASH : ascii := chr 92.

(** *** Encoding *)

Definition hex_digit (n : N) : ascii :=
  if (n <? 10)%N then chr (48 + n) else chr (87 + n).

(** One character of [py_encode_basestring_ascii]: the printable ASCII
    characters stand for themselves, save the quote and the backslash; the
    others are written as escapes. *)
Definition escape_char (c : ascii) : string :=
  let n := code c in
  if (n =? 34)%N then String BACKSLASH (String QUOTE "")
  else if (n =? 92)%N then String BACKSLASH (String BACKSLASH "")
  else if (n =? 10)%N then String BACKSLASH "n"
  else if (n =? 13)%N then String BACKSLASH "r"
  else if (n =? 9)%N then String BACKSLASH "t"
  else if (n =? 12)%N then String BACKSLASH "f"
  else if (n =? 8)%N then String BACKSLASH "b"
  else if in_range 32 126 c then String c ""
  else String BACKSLASH
         (String "u" (String "0" (String "0"
           (String (hex_digit (n / 16)) (String (hex_digit (n mod 16)) ""))))).

Fixpoint escape (s : string) : string :=
  match s with
  | "" => ""
  | String c s' => escape_char c +:+ escape s'
  end.

Definition encode_string (s : string) : string :=
  String QUOTE (escape s +:+ String QUOTE "").

(** [json.dumps(v, indent=None, separators=(item_separator,
    key_separator))], the other options at their defaults. *)
Section Encoder.
Variables item_separator key_separator : string.

Fixpoint encode (v : value) : string :=
  match v with
  | Null => "null"
  | Bool true => "true"
  | Bool false => "false"
  | Int n => str n
  | Str s => encode_string s
  | List items =>
      "[" +:+
      (fix encode_items (l : list value) : string :=
         match l with
         | [] => ""
         | item :: l' =>
             encode item +:+
             match l' with
             | [] => ""
             | _ => item_separator +:+ encode_items l'
             end
         end) items +:+ "]"
  | Dict members =>
      "{" +:+
      (fix encode_members (l : list (string * value)) : string :=
         match l with
         | [] => ""
         | (key, item) :: l' =>
             encode_string key +:+ key_separator +:+ encode item +:+
             match l' with
             | [] => ""
             | _ => item_separator +:+ encode_members l'
             end
         end) members +:+ "}"
  end.

End Encoder.

Definition dumps (separators : string * string) (v : value) : string :=
  encode (fst separators) (snd separators) v.

(** *** Decoding *)

(** The white space of the JSON grammar. *)
Definition is_ws (c : ascii) : bool :=
  let n := code c in
  (n =? 32)%N || (n =? 9)%N || (n =? 10)%N || (n =? 13)%N.

Fixpoint skip_ws (s : string) : string :=
  match s with
  | String c s' => if is_ws c then skip_ws s' else s
  | "" => ""
  end.

Definition hex_val (c : ascii) : option N :=
  if in_range 48 57 c then Some (code c - 48)%N
  else if in_range 97 102 c then Some (code c - 87)%N
  else if in_range 65 70 c then Some (code c - 55)%N
  else None.

(** The character a backslash and the letter after it stand for. *)
Definition unescape (c : ascii) : option ascii :=
  let n := code c in
  if (n =? 34)%N then Some QUOTE
  else if (n =? 92)%N then Some BACKSLASH
  else if (n =? 47)%N then Some "/"%char
  else if (n =? 98)%N then Some (chr 8)
  else if (n =? 102)%N then Some (chr 12)
  else if (n =? 110)%N then Some (chr 10)
  else if (n =? 114)%N then Some (chr 13)
  else if (n =? 116)%N then Some (chr 9)
  else None.

(** [scanstring], strict, from the character after the opening quote:
    the string, and the text after the closing quote. *)
Fixpoint scanstring (s : string) : result (string * string) :=
  match s with
  | "" => Raise JSONDecodeError
  | String c s1 =>
      if Ascii.eqb c QUOTE then Ok ("", s1)
      else if Ascii.eqb c BACKSLASH then
        match s1 with
        | "" => Raise JSONDecodeError
        | String e s2 =>
            if Ascii.eqb e "u" then
              match s2 with
              | String h1 (String h2 (String h3 (String h4 s6))) =>
                  match hex_val h1, hex_val h2, hex_val h3, hex_val h4 with
                  | Some a, Some b, Some c', Some d =>
                      let n := (((a * 16 + b) * 16 + c') * 16 + d)%N in
                      if (n <? 256)%N then
                        '(str, rest) ← scanstring s6; Ok (String (chr n) str, rest)
                      else Raise Unmodelled
                  | _, _, _, _ => Raise JSONDecodeError
                  end
              | _ => Raise JSONDecodeError
              end
            else
              match unescape e with
              | Some c' => '(str, rest) ← scanstring s2; Ok (String c' str, rest)
              | None => Raise JSONDecodeError
              end
        end
      else if (code c <? 32)%N then Raise JSONDecodeError
      else '(str, rest) ← scanstring s1; Ok (String c str, rest)
  end.

(** The longest run of decimal digits at the front of the text, as a
    number, and the text after it. *)
Fixpoint span_digits (acc : N) (s : string) : N * string :=
  match s with
  | String c s' => if is_digit c then span_digits (10 * acc + digit_val c) s' else (acc, s)
  | "" => (acc, "")
  end.

Definition starts_with_digit (s : string) : bool :=
  match s with
  | String c _ => is_digit c
  | "" => false
  end.

(** Whether a fraction or an exponent follows the integer part: the
    number is then a [float]. *)
Definition float_follows (s : string) : bool :=
  match s with
  | String c s' =>
      if Ascii.eqb c "." then starts_with_digit s'
      else if Ascii.eqb c "e" || Ascii.eqb c "E" then
        match s' with
        | String c' s'' =>
            if Ascii.eqb c' "+" || Ascii.eqb c' "-" then starts_with_digit s''
            else is_digit c'
        | "" => false
        end
      else false
  | "" => false
  end.

(** The number pattern: an optional minus sign, then a zero or a digit
    from 1 to 9 with the digits after it, then an optional fraction and
    exponent.  [None]: the text does not start with a number. *)
Definition match_number (s : string) : option (result (value * string)) :=
  let '(neg, body) :=
    match s with
    | String c s' => if Ascii.eqb c "-" then (true, s') else (false, s)
    | "" => (false, "")
    end in
  match body with
  | String c s' =>
      if is_digit c then
        let '(n, rest) := if Ascii.eqb c "0" then (0%N, s') else span_digits 0 body in
        if float_follows rest then Some (Raise Unmodelled)
        else Some (Ok (Int (if neg then - Z.of_N n else Z.of_N n)%Z, rest))
      else None
  | "" => None
  end.

(** The text after [word] at the front of [s], if [s] starts with it. *)
Fixpoint after_prefix (word s : string) : option string :=
  match word, s with
  | "", _ => Some s
  | String a word', String b s' => if Ascii.eqb a b then after_prefix word' s' else None
  | String _ _, "" => None
  end.

(** [dict[key] = item]: a key already there keeps its place. *)
Fixpoint dict_set (d : dict) (key : string) (item : value) : dict :=
  match d with
  | [] => [(key, item)]
  | (key', item') :: d' =>
      if String.eqb key' key then (key', item) :: d'
      else (key', item') :: dict_set d' key item
  end.

Definition dict_of_pairs (pairs : list (string * value)) : dict :=
  fold_left (fun d '(key, item) => dict_set d key item) pairs [].

(** [scan_once], with the loops of [JSONArray] and [JSONObject].  [fuel]
    bounds the depth of the calls.  Of two calls in a row at least one has
    read a character, so that a text of [n] characters needs no more than
    [2 * n + 1]. *)
Fixpoint scan_once (fuel : nat) (s : string) : result (value * string) :=
  match fuel with
  | O => Raise Unmodelled
  | S fuel' =>
      match s with
      | "" => Raise JSONDecodeError
      | String c s' =>
          if Ascii.eqb c QUOTE then
            '(str, rest) ← scanstring s'; Ok (Str str, rest)
          else if Ascii.eqb c "{" then
            match skip_ws s' with
            | "" => Raise JSONDecodeError
            | String c' rest as body =>
                if Ascii.eqb c' "}" then Ok (Dict [], rest)
                else '(pairs, rest') ← scan_members fuel' body;
                     Ok (Dict (dict_of_pairs pairs), rest')
            end
          else if Ascii.eqb c "[" then
            match skip_ws s' with
            | "" => Raise JSONDecodeError
            | String c' rest as body =>
                if Ascii.eqb c' "]" then Ok (List [], rest)
                else '(items, rest') ← scan_items fuel' body; Ok (List items, rest')
            end
          else
            match after_prefix "null" s, after_prefix "true" s, after_prefix "false" s with
            | Some rest, _, _ => Ok (Null, rest)
            | _, Some rest, _ => Ok (Bool true, rest)
            | _, _, Some rest => Ok (Bool false, rest)
            | None, None, None =>
                match after_prefix "NaN" s, after_prefix "Infinity" s,
                      after_prefix "-Infinity" s with
                | None, None, None =>
                    match match_number s with
                    | Some r => r
                    | None => Raise JSONDecodeError
                    end
                | _, _, _ => Raise Unmodelled
                end
            end
      end
  end
with scan_items (fuel : nat) (s : string) : result (list value * string) :=
  match fuel with
  | O => Raise Unmodelled
  | S fuel' =>
      '(item, s1) ← scan_once fuel' s;
      match skip_ws s1 with
      | "" => Raise JSONDecodeError
      | String c s2 =>
          if Ascii.eqb c "]" then Ok ([item], s2)
          else if Ascii.eqb c "," then
            '(items, rest) ← scan_items fuel' (skip_ws s2); Ok (item :: items, rest)
          else Raise JSONDecodeError
      end
  end
with scan_members (fuel : nat) (s : string) : result (list (string * value) * string) :=
  match fuel with
  | O => Raise Unmodelled
  | S fuel' =>
      match s with
      | "" => Raise JSONDecodeError
      | String q s0 =>
          if Ascii.eqb q QUOTE then
            '(key, s1) ← scanstring s0;
            match skip_ws s1 with
            | "" => Raise JSONDecodeError
            | String c s2 =>
                if Ascii.eqb c ":" then
                  '(item, s3) ← scan_once fuel' (skip_ws s2);
                  match skip_ws s3 with
                  | "" => Raise JSONDecodeError
                  | String c' s4 =>
                      if Ascii.eqb c' "}" then Ok ([(key, item)], s4)
                      else if Ascii.eqb c' "," then
                        '(pairs, rest) ← scan_members fuel' (skip_ws s4);
                        Ok ((key, item) :: pairs, rest)
                      else Raise JSONDecodeError
                  end
                else Raise JSONDecodeError
            end
          else Raise JSONDecodeError
      end
  end.

(** A list of items is a [dict] when no key comes twice; [keys_unique v]
    says so of every [Dict] in [v]. *)
Fixpoint distinct (keys : list string) : bool :=
  match keys with
  | [] => true
  | key :: keys' => negb (existsb (String.eqb key) keys') && distinct keys'
  end.

Fixpoint keys_unique (v : value) : bool :=
  match v with
  | List items => forallb keys_unique items
  | Dict members =>
      distinct (map fst members) && forallb (fun member => keys_unique (snd member)) members
  | _ => true
  end.

(** [json.loads(s)]: white space, one value, white space, the end. *)
Definition loads (s : string) : result value :=
  '(v, rest) ← scan_once (2 * String.length s + 2) (skip_ws s);
  match skip_ws rest with
  | "" => Ok v
  | _ => Raise JSONDecodeError
  end.

(** The number of characters of a text that satisfy [p]; the spaces of a
    string, and of the keys and strings of a value. *)
Fixpoint count (p : ascii -> bool) (s : string) : nat :=
  match s with
  | "" => 0
  | String c s' => (if p c then 1 else 0) + count p s'
  end.

Definition spaces (s : string) : nat := count (fun c => Ascii.eqb c " ") s.

Fixpoint spaces_in (v : value) : nat :=
  match v with
  | Str s => spaces s
  | List items =>
      (fix spaces_in_items (l : list value) : nat :=
         match l with
         | [] => 0
         | item :: l' => spaces_in item + spaces_in_items l'
         end) items
  | Dict members =>
      (fix spaces_in_members (l : list (string * value)) : nat :=
         match l with
         | [] => 0
         | member :: l' => spaces (fst member) + spaces_in (snd member) + spaces_in_members l'
         end) members
  | _ => 0
  end.

End Json.

(** ** JSON documents written with an indent *)

Module JsonIndent.
Import PyStr Json.

(** [' ' * n], the indent an integer [indent] stands for. *)
Fixpoint blanks (n : nat) : string :=
  match n with
  | O => ""
  | S n' => String " " (blanks n')
  end.

Fixpoint repeat_string (s : string) (n : nat) : string :=
  match n with
  | O => ""
  | S n' => s +:+ repeat_string s n'
  end.

(** ['\n' + indent * level]. *)
Definition newline_indent (indent : string) (level : nat) : string :=
  String LF (repeat_string indent level).

(** [json.dumps(v, indent=..., separators=(item_separator,
    key_separator))] with an indent that is not [None].  An empty list or
    dict is written on the spot; in the others every item starts a line at
    the level below, the separator between two items is the item separator
    followed by the line break, and the closing bracket has a line at the
    level of the opening one.  [level] is the level of the value. *)
Section Encoder.
Variables indent item_separator key_separator : string.

Fixpoint encode (level : nat) (v : value) : string :=
  match v with
  | Null => "null"
  | Bool true => "true"
  | Bool false => "false"
  | Int n => str n
  | Str s => encode_string s
  | List items =>
      match items with
      | [] => "[]"
      | _ =>
          "[" +:+ newline_indent indent (S level) +:+
          (fix encode_items (l : list value) : string :=
             match l with
             | [] => ""
             | item :: l' =>
                 encode (S level) item +:+
                 match l' with
                 | [] => ""
                 | _ => item_separator +:+ newline_indent indent (S level) +:+ encode_items l'
                 end
             end) items +:+ newline_indent indent level +:+ "]"
      end
  | Dict members =>
      match members with
      | [] => "{}"
      | _ =>
          "{" +:+ newline_indent indent (S level) +:+
          (fix encode_members (l : list (string * value)) : string :=
             match l with
             | [] => ""
             | (key, item) :: l' =>
                 encode_string key +:+ key_separator +:+ encode (S level) item +:+
                 match l' with
                 | [] => ""
                 | _ => item_separator +:+ newline_indent indent (S level) +:+ encode_members l'
                 end
             end) members +:+ newline_indent indent level +:+ "}"
      end
  end.

End Encoder.

Definition dumps (indent : nat) (separators : string * string) (v : value) : string :=
  encode (blanks indent) (fst separators) (snd separators) 0 v.

End JsonIndent.

(** ** The scheduler's submit description *)

(** [htcondor.Submit] is a class of the scheduler's bindings, no part of
    these sources.  The module uses two things of it: [dict(submit)], the
    mapping of its commands, and the constructor [htcondor.Submit(obj)]. *)
Class Htcondor (Submit : Type) : Type := {
  submit_dict : Submit -> Json.dict;
  submit_new : Json.value -> result Submit
}.

(** ** The module [htmap.htio] *)

(** The functions of the module, under their names.  The calls of the
    logger change nothing the store reads and are left out.  [save_submit]
    and [load_submit] convert to and from [htcondor.Submit], which they
    take through the class [Htcondor]. *)
Module htio.

Section Objects.
Context {V : Type} `{!Codec V}.

(** [save_object]: the three statements of the [with] block are the
    opening of the gzip file, the dump into it, and its closing. *)
Definition save_object (obj : V) (p : path) : M unit :=
  file ← Gzip.open_wb p;
  Gzip.close (Gzip.write file (dumps obj)).

(** The states of the file system a reader can meet from the moment
    [save_object] has opened its target, in the order of the write.  The
    first is the state the opening leaves, the target empty, and the last
    the state the closing leaves, the target complete.  Between the two the
    target holds a beginning of the container; which beginnings reach the
    file depends on the buffers of the library, so every one is listed: the
    list holds every state a reader can meet, and may hold some no reader
    meets. *)
Definition save_object_states (obj : V) (p : path) (fs : filesystem) : list filesystem :=
  match Gzip.open_wb p fs with
  | (Ok file, fs1) =>
      let file' := Gzip.write file (dumps obj) in
      map (fun bytes => effect (put_node (Gzip.gz_path file') (File bytes)) fs1)
        (Gzip.beginnings (gzip_member (Gzip.gz_data file')))
  | (Raise _, fs1) => [fs1]
  end.

(** [save_object] on an object [cloudpickle.dump] refuses.  [dumps] is
    total: the values of [V] are those the pickler serializes.  On another
    object the dump raises [e] after it has written [partial], the [with]
    block closes the file, which completes the container of what was
    written, and the exception goes on to the caller. *)
Definition save_object_refused (partial : string) (e : exn) (p : path) : M unit :=
  file ← Gzip.open_wb p;
  _ ← Gzip.close (Gzip.write file partial);
  raise e.

Definition load_object (p : path) : M V :=
  stream ← Gzip.open_rb p;
  '(obj, _) ← lift (load stream);
  mret obj.

(** [load_objects] is a generator function: calling it runs nothing.
    The generator is created, suspended at its [yield] with the rest of the
    stream, or finished.  A call of [next] yields a value, raises, or
    raises [StopIteration]; an exception that leaves the body finishes the
    generator. *)
Inductive generator : Type :=
  | GenCreated (p : path)
  | GenSuspended (stream : string)
  | GenFinished.

Inductive step : Type :=
  | Yield (obj : V)
  | Throw (e : exn)
  | StopIteration.

Definition load_objects (p : path) : generator := GenCreated p.

(** One turn of [while True: yield cloudpickle.load(file)]. *)
Definition load_objects_loop (stream : string) : step * generator :=
  match load stream with
  | Ok (obj, rest) => (Yield obj, GenSuspended rest)
  | Raise e => (Throw e, GenFinished)
  end.

Definition next (fs : filesystem) (g : generator) : step * generator :=
  match g with
  | GenCreated p =>
      match outcome (Gzip.open_rb p) fs with
      | Ok stream => load_objects_loop stream
      | Raise e => (Throw e, GenFinished)
      end
  | GenSuspended stream => load_objects_loop stream
  | GenFinished => (StopIteration, GenFinished)
  end.

(** The outcomes of [n] successive calls of [next]. *)
Fixpoint nexts (n : nat) (fs : filesystem) (g : generator) : list step * generator :=
  match n with
  | O => ([], g)
  | S k =>
      let '(r, g') := next fs g in
      let '(rs, g'') := nexts k fs g' in
      (r :: rs, g'')
  end.

(** [list(g)], or a [for] loop over [g]: the values yielded until
    [StopIteration], or the exception that ends the loop.  [fuel] bounds
    the number of calls of [next]; [None] when it is used up. *)
Fixpoint collect (fuel : nat) (fs : filesystem) (g : generator) : option (result (list V)) :=
  match fuel with
  | O => None
  | S k =>
      match next fs g with
      | (Yield obj, g') =>
          match collect k fs g' with
          | Some (Ok objs) => Some (Ok (obj :: objs))
          | other => other
          end
      | (Throw e, _) => Some (Raise e)
      | (StopIteration, _) => Some (Ok [])
      end
  end.

Definition save_func (map_dir : path) (func : V) : M unit :=
  save_object func (map_dir </> names.FUNC).

(** [enumerate(iterable)], from 0. *)
Fixpoint enumerate_from {A : Type} (i : Z) (l : list A) : list (Z * A) :=
  match l with
  | [] => []
  | x :: l' => (i, x) :: enumerate_from (i + 1) l'
  end.
Definition enumerate {A : Type} (l : list A) : list (Z * A) := enumerate_from 0 l.

(** The f-string [f"{component}.{names.INPUT_EXT}"]. *)
Definition input_name (component : Z) : string :=
  PyStr.str component +:+ "." +:+ names.INPUT_EXT.

Definition save_inputs (map_dir : path) (args_and_kwargs : list V) : M unit :=
  let base_path := map_dir </> names.INPUTS_DIR in
  for_each (enumerate args_and_kwargs) (fun '(component, a_and_k) =>
    save_object a_and_k (base_path </> input_name component)).

End Objects.

Definition _num_components_path (map_dir : path) : path :=
  map_dir </> names.NUM_COMPONENTS.

Definition save_num_components (map_dir : path) (num_components : Z) : M unit :=
  let p := _num_components_path map_dir in
  Os.write_text p (PyStr.str num_components).

Definition load_num_components (map_dir : path) : M Z :=
  let p := _num_components_path map_dir in
  text ← Os.read_text p; lift (PyStr.int text).

Definition _cluster_ids_path (map_dir : path) : path :=
  map_dir </> names.CLUSTER_IDS.

Definition append_cluster_id (map_dir : path) (cluster_id : Z) : M unit :=
  Os.append_text (_cluster_ids_path map_dir)
    (PyStr.str cluster_id +:+ String PyStr.LF "").

Definition load_cluster_ids (map_dir : path) : M (list Z) :=
  text ← Os.read_text (_cluster_ids_path map_dir);
  lift (mapM (fun cid => PyStr.int (PyStr.strip cid)) (PyStr.splitlines text)).

Definition _itemdata_path (map_dir : path) : path :=
  map_dir </> names.ITEMDATA.

(** [json.dump] writes the text of [json.dumps] to the file, in pieces. *)
Definition save_itemdata (map_dir : path) (itemdata : list Json.dict) : M unit :=
  let p := _itemdata_path map_dir in
  Os.write_text p (Json.dumps (",", ":") (Json.List (map Json.Dict itemdata))).

(** [json.load(f)] is [json.loads(f.read())]. *)
Definition load_itemdata (map_dir : path) : M Json.value :=
  text ← Os.read_text (_itemdata_path map_dir); lift (Json.loads text).

Section Submit.
Context {Submit : Type} `{!Htcondor Submit}.

Definition _submit_path (map_dir : path) : path :=
  map_dir </> names.SUBMIT.

Definition save_submit (map_dir : path) (submit : Submit) : M unit :=
  let p := _submit_path map_dir in
  Os.write_text p (JsonIndent.dumps 4 (", ", ": ") (Json.Dict (submit_dict submit))).

Definition load_submit (map_dir : path) : M Submit :=
  text ← Os.read_text (_submit_path map_dir);
  obj ← lift (Json.loads text);
  lift (submit_new obj).

End Submit.

End htio.

(** ** A reference backend *)

(** A small backend on which the store can be run: integers and closures
    (a code identifier and the value of the captured variable), pickled as
    text lines closed by a full stop, in a container that frames each member
    between two marks and escapes the marks in the data.  It stands in for
    cloudpickle and gzip wherever a computation needs concrete bytes. *)
Module RefCodec.
Import PyStr.

Inductive obj : Type :=
  | Integer (n : Z)
  | Closure (code : Z) (cell : Z).

Definition int_line (z : Z) : string := str z +:+ String LF "".

Definition pickle (o : obj) : string :=
  match o with
  | Integer n => "I" +:+ int_line n +:+ "."
  | Closure code cell => "C" +:+ int_line code +:+ int_line cell +:+ "."
  end.

(** The text up to the first LF, and the text after it. *)
Fixpoint readline (s : string) : option (string * string) :=
  match s with
  | "" => None
  | String c s' =>
      if Ascii.eqb c LF then Some ("", s')
      else '(l, rest) ← readline s'; Some (String c l, rest)
  end.

Definition read_int (s : string) : result (Z * string) :=
  match readline s with
  | Some (l, rest) =>
      match int l with
      | Ok z => Ok (z, rest)
      | Raise _ => Raise UnpicklingError
      end
  | None => Raise EOFError
  end.

Definition read_stop {A : Type} (a : A) (s : string) : result (A * string) :=
  match s with
  | String c rest => if Ascii.eqb c "." then Ok (a, rest) else Raise UnpicklingError
  | "" => Raise EOFError
  end.

Definition unpickle (s : string) : result (obj * string) :=
  match s with
  | "" => Raise EOFError
  | String c s' =>
      if Ascii.eqb c "I" then
        '(n, s1) ← read_int s'; read_stop (Integer n) s1
      else if Ascii.eqb c "C" then
        '(code, s1) ← read_int s';
        '(cell, s2) ← read_int s1;
        read_stop (Closure code cell) s2
      else Raise UnpicklingError
  end.

Definition MARK_OPEN : ascii := "<".
Definition MARK_CLOSE : ascii := ">".
Definition ESCAPE : ascii := "\".

Definition is_mark (c : ascii) : bool :=
  Ascii.eqb c MARK_OPEN || Ascii.eqb c MARK_CLOSE || Ascii.eqb c ESCAPE.

Fixpoint stuff (data : string) : string :=
  match data with
  | "" => ""
  | String c s => if is_mark c then String ESCAPE (String c (stuff s)) else String c (stuff s)
  end.

Definition container (data : string) : string :=
  String MARK_OPEN (stuff data) +:+ String MARK_CLOSE "".

(** [inside] tells whether the reader is within a member. *)
Fixpoint unpack_from (inside : bool) (s : string) : result string :=
  match s with
  | "" => if inside then Raise EOFError else Ok ""
  | String c s' =>
      if inside then
        if Ascii.eqb c ESCAPE then
          match s' with
          | String c' s'' => String c' <$> unpack_from true s''
          | "" => Raise EOFError
          end
        else if Ascii.eqb c MARK_CLOSE then unpack_from false s'
        else if Ascii.eqb c MARK_OPEN then Raise BadGzipFile
        else String c <$> unpack_from true s'
      else
        if Ascii.eqb c MARK_OPEN then unpack_from true s' else Raise BadGzipFile
  end.

Definition unpack (s : string) : result string := unpack_from false s.

End RefCodec.

(** ** The formats of the stored files *)

Module Formats.

(** The line one append writes, and the text of a log of entries. *)
Definition line (cluster_id : Z) : string := PyStr.str cluster_id +:+ String PyStr.LF "".

Fixpoint log_text (ids : list Z) : string :=
  match ids with
  | [] => ""
  | cluster_id :: ids' => line cluster_id +:+ log_text ids'
  end.

Section Containers.
Context {V : Type} `{!Codec V}.

(** The file one [save_object] leaves, the file of successive frames, and
    the stream of their pickles. *)
Definition frame (obj : V) : string := gzip_member (dumps obj).

Fixpoint frames (objs : list V) : string :=
  match objs with
  | [] => ""
  | obj :: objs' => frame obj +:+ frames objs'
  end.

Fixpoint pickles (objs : list V) : string :=
  match objs with
  | [] => ""
  | obj :: objs' => dumps obj +:+ pickles objs'
  end.

End Containers.

End Formats.

(** ** Example data *)

Module Examples.

(** The map directory used in the examples: [maps/m], with nothing in it. *)
Definition example_dir : path := ["maps"; "m"].
Definition example_fs : filesystem := {[ ["maps"] := Dir; example_dir := Dir ]}.

Definition example_file : path := example_dir </> "function".

Definition example_inputs_fs : filesystem := <[example_dir </> "inputs" := Dir]> example_fs.

Definition example_objs : list RefCodec.obj := [RefCodec.Integer 5; RefCodec.Closure 7 3].

Definition example_itemdata : list Json.dict :=
  [[("component", Json.Str "0"); ("arguments", Json.List [Json.Int 1; Json.Null; Json.Str "a b"])]; []].

End Examples.

(** ** A reference submit description *)

(** A stand-in for [htcondor.Submit] on which the store can be run: a
    description is the mapping of its commands to their values.  The
    constructor takes a mapping; what the bindings make of any other value
    is outside the model. *)
Module RefSubmit.

Definition description : Type := Json.dict.

Definition of_value (v : Json.value) : result description :=
  match v with
  | Json.Dict members => Ok members
  | _ => Raise Unmodelled
  end.

Definition example_submit : description :=
  [("universe", Json.Str "vanilla");
   ("request_memory", Json.Str "128MB");
   ("arguments", Json.Str "$(component)")].

End RefSubmit.

#[global] Instance ref_htcondor : Htcondor RefSubmit.description := {|
  submit_dict := fun d => d;
  submit_new := RefSubmit.of_value
|}.

(** * Properties *)

Module PyStrExamples.
Import PyStr.
Definition nl (s : string) : string := s +:+ String LF "".

Example int_ok : int " 1_000 " = Ok 1000%Z /\ int "-0" = Ok 0%Z /\ int "007" = Ok 7%Z
  /\ int (String (chr 133) "5") = Ok 5%Z /\ int (nl "+5") = Ok 5%Z.
Proof. repeat split; reflexivity. Qed.

Example int_bad : int "" = Raise ValueError /\ int "_1" = Raise ValueError
  /\ int "1_" = Raise ValueError /\ int "1__0" = Raise ValueError
  /\ int "- 5" = Raise ValueError /\ int "1.0" = Raise ValueError
  /\ int (String (chr 28) "5") = Raise ValueError
  /\ int (String (chr 28) (String "5" (String (chr 133) ""))) = Raise ValueError.
Proof. repeat split; reflexivity. Qed.

Example str_ok : str 0 = "0" /\ str (-5) = "-5" /\ str 1700 = "1700" /\ str 9 = "9".
Proof. repeat split; reflexivity. Qed.

Example splitlines_ok :
  splitlines "" = [] /\ splitlines (nl "") = [""] /\ splitlines "a" = ["a"]
  /\ splitlines (nl (nl "a") +:+ "b") = ["a"; ""; "b"]
  /\ splitlines (String CR (String LF (String LF ""))) = [""; ""]
  /\ splitlines (String LF (String CR "")) = [""; ""]
  /\ splitlines (String "i" (String (chr 31) "j")) = [String "i" (String (chr 31) "j")].
Proof. repeat split; reflexivity. Qed.

Example strip_ok : strip (String (chr 28) (nl " 5 ")) = "5" /\ strip "  " = "" /\ strip "a b" = "a b".
Proof. repeat split; reflexivity. Qed.
End PyStrExamples.

(** ** Facts about the string primitives *)

Module PyStrFacts.
Import PyStr.

Ltac by_chars c := destruct c as [[] [] [] [] [] [] [] []]; try reflexivity; try discriminate.

Lemma append_nil_r (s : string) : s +:+ "" = s.
Proof. induction s; simpl; congruence. Qed.

Lemma append_assoc (a b c : string) : (a +:+ b) +:+ c = a +:+ (b +:+ c).
Proof. induction a; simpl; congruence. Qed.

Lemma sall_app (p : ascii -> bool) (a b : string) :
  sall p (a +:+ b) = sall p a && sall p b.
Proof. induction a; simpl; [reflexivity|]. rewrite IHa. apply andb_assoc. Qed.

Lemma sall_impl (p q : ascii -> bool) (s : string) :
  (forall c, p c = true -> q c = true) -> sall p s = true -> sall q s = true.
Proof.
  intros Hpq. induction s as [|c s IH]; simpl; [reflexivity|].
  intros [Hc Hs]%andb_true_iff. rewrite (Hpq c Hc), (IH Hs). reflexivity.
Qed.

Lemma length_append (a b : string) :
  String.length (a +:+ b) = String.length a + String.length b.
Proof. induction a; simpl; congruence. Qed.

Lemma append_inv_tail (a : string) : forall b t : string, a +:+ t = b +:+ t -> a = b.
Proof.
  induction a as [|c a IH]; intros [|c' b] t H; cbn [append] in H.
  - reflexivity.
  - apply (f_equal String.length) in H. cbn [String.length] in H.
    rewrite length_append in H. lia.
  - apply (f_equal String.length) in H. cbn [String.length] in H.
    rewrite length_append in H. lia.
  - injection H as -> H. f_equal. exact (IH _ _ H).
Qed.

(** *** Digits *)

Lemma digit_chr_cases (d : N) :
  (d < 10)%N ->
  d = 0%N \/ d = 1%N \/ d = 2%N \/ d = 3%N \/ d = 4%N \/
  d = 5%N \/ d = 6%N \/ d = 7%N \/ d = 8%N \/ d = 9%N.
Proof. lia. Qed.

Lemma is_digit_digit_chr (d : N) : (d < 10)%N -> is_digit (digit_chr d) = true.
Proof. intros H. destruct (digit_chr_cases d H) as [->|[->|[->|[->|[->|[->|[->|[->|[->| ->]]]]]]]]]; reflexivity. Qed.

Lemma digit_val_digit_chr (d : N) : (d < 10)%N -> digit_val (digit_chr d) = d.
Proof. intros H. destruct (digit_chr_cases d H) as [->|[->|[->|[->|[->|[->|[->|[->|[->| ->]]]]]]]]]; reflexivity. Qed.

(** The number [scan_digits] has accumulated after reading [digits f n]. *)
Fixpoint shift (f : nat) (n acc : N) : N :=
  match f with
  | O => acc
  | S f' => (10 * (if (n <? 10)%N then acc else shift f' (n / 10) acc) + n mod 10)%N
  end.

Lemma scan_digits_digits (f : nat) : forall (n acc : N) (rest : string),
  scan_digits acc (digits f n +:+ rest) = scan_digits (shift f n acc) rest.
Proof.
  induction f as [|f IH]; intros n acc rest; [reflexivity|].
  assert (Hd : (n mod 10 < 10)%N) by (apply N.mod_lt; lia).
  cbn [digits shift]. rewrite append_assoc. cbn [append].
  destruct (n <? 10)%N.
  - cbn [append scan_digits].
    rewrite (is_digit_digit_chr _ Hd), (digit_val_digit_chr _ Hd). reflexivity.
  - rewrite IH. cbn [scan_digits].
    rewrite (is_digit_digit_chr _ Hd), (digit_val_digit_chr _ Hd). reflexivity.
Qed.

Lemma shift_exact (f : nat) : forall n : N, (n < 2 ^ N.of_nat f)%N -> shift f n 0 = n.
Proof.
  induction f as [|f IH]; intros n Hn.
  - simpl in Hn. cbn. lia.
  - cbn [shift]. destruct (N.ltb_spec n 10) as [Hlt|Hge].
    + rewrite N.mod_small by lia. lia.
    + rewrite IH.
      * pose proof (N.div_mod n 10). lia.
      * rewrite Nat2N.inj_succ, N.pow_succ_r' in Hn.
        apply N.Div0.div_lt_upper_bound. lia.
Qed.

Lemma log2_fuel (n : N) : (n < 2 ^ N.of_nat (S (N.to_nat (N.log2 n))))%N.
Proof.
  rewrite Nat2N.inj_succ, N2Nat.id.
  destruct n as [|p]; [reflexivity|].
  apply N.log2_spec. lia.
Qed.

Lemma scan_digits_str_of_N (n : N) (rest : string) :
  scan_digits 0 (str_of_N n +:+ rest) = scan_digits n rest.
Proof.
  unfold str_of_N. rewrite scan_digits_digits, shift_exact; [reflexivity|apply log2_fuel].
Qed.

(** *** The characters of [str n] *)

Definition is_num_char (c : ascii) : bool := is_digit c || Ascii.eqb c "-".

Lemma digits_all_digit (f : nat) : forall n : N, sall is_digit (digits f n) = true.
Proof.
  induction f as [|f IH]; intros n; [reflexivity|].
  cbn [digits]. rewrite sall_app. cbn [sall].
  rewrite is_digit_digit_chr by (apply N.mod_lt; lia).
  destruct (n <? 10)%N; [reflexivity|]. rewrite IH. reflexivity.
Qed.

Lemma digits_head (f : nat) (n : N) :
  exists c s, digits (S f) n = String c s /\ is_digit c = true.
Proof.
  pose proof (digits_all_digit (S f) n) as Hall.
  destruct (digits (S f) n) as [|c s] eqn:E.
  - exfalso. cbn [digits] in E.
    destruct (if (n <? 10)%N then "" else digits f (n / 10)); discriminate.
  - exists c, s. split; [reflexivity|]. simpl in Hall. apply andb_true_iff in Hall. tauto.
Qed.

Lemma str_of_N_head (n : N) : exists c s, str_of_N n = String c s /\ is_digit c = true.
Proof. apply digits_head. Qed.

Lemma str_all_num (z : Z) : sall is_num_char (str z) = true.
Proof.
  assert (H : forall n, sall is_num_char (str_of_N n) = true).
  { intros n. apply (sall_impl is_digit); [|apply digits_all_digit].
    intros c Hc. unfold is_num_char. rewrite Hc. reflexivity. }
  destruct z; simpl; auto.
Qed.

Lemma num_char_ascii c : is_num_char c = true -> is_ascii c = true.
Proof. by_chars c. Qed.
Lemma num_char_not_space c : is_num_char c = true -> is_space c = false.
Proof. by_chars c. Qed.
Lemma num_char_not_space_c c : is_num_char c = true -> is_space_c c = false.
Proof. by_chars c. Qed.
Lemma num_char_not_linebreak c : is_num_char c = true -> is_linebreak c = false.
Proof. by_chars c. Qed.
Lemma digit_not_sign c : is_digit c = true -> Ascii.eqb c "-" = false /\ Ascii.eqb c "+" = false.
Proof. by_chars c; split; reflexivity. Qed.

(** *** [int] undoes [str] *)

Lemma transform_ascii (s : string) : sall is_ascii s = true -> transform s = s.
Proof. unfold transform. intros ->. reflexivity. Qed.

Lemma int_str_of_N (n : N) : int (str_of_N n) = Ok (Z.of_N n).
Proof.
  destruct (str_of_N_head n) as (c & s & E & Hc).
  unfold int. rewrite transform_ascii.
  2:{ apply (sall_impl is_digit); [|apply digits_all_digit].
      intros c' Hc'. apply num_char_ascii. unfold is_num_char. rewrite Hc'. reflexivity. }
  pose proof (scan_digits_str_of_N n "") as Hs. rewrite append_nil_r in Hs.
  rewrite E in *. cbn [skip_space_c].
  rewrite (num_char_not_space_c c) by (unfold is_num_char; rewrite Hc; reflexivity).
  unfold scan_sign. destruct (digit_not_sign c Hc) as [-> ->].
  rewrite Hc, Hs. reflexivity.
Qed.

Lemma int_str (z : Z) : int (str z) = Ok z.
Proof.
  destruct z as [|p|p].
  - reflexivity.
  - change (str (Z.pos p)) with (str_of_N (N.pos p)). apply int_str_of_N.
  - unfold str. destruct (str_of_N_head (N.pos p)) as (c & s & E & Hc).
    pose proof (scan_digits_str_of_N (N.pos p) "") as Hs. rewrite append_nil_r in Hs.
    pose proof (digits_all_digit (S (N.to_nat (N.log2 (N.pos p)))) (N.pos p)) as Hall.
    fold (str_of_N (N.pos p)) in Hall.
    unfold int. rewrite transform_ascii.
    2:{ cbn [sall]. apply andb_true_iff. split; [reflexivity|].
        apply (sall_impl is_digit); [|exact Hall].
        intros c' Hc'. apply num_char_ascii. unfold is_num_char. rewrite Hc'. reflexivity. }
    cbn [skip_space_c]. change (is_space_c "-") with false. cbv iota.
    unfold scan_sign. change (Ascii.eqb "-" "-") with true. cbv iota.
    rewrite Hs. rewrite E. rewrite Hc. reflexivity.
Qed.

Lemma str_inj (a b : Z) : str a = str b -> a = b.
Proof.
  intros H. pose proof (int_str a) as Ha. rewrite H, int_str in Ha. congruence.
Qed.

End PyStrFacts.

(** ** Facts about the file system primitives *)

Module OsFacts.
Import PyStr PyStrFacts Os.

Lemma parent_joinpath (d : path) (name : string) : parent (d </> name) = d.
Proof. apply removelast_last. Qed.

Lemma joinpath_inj (d : path) (a b : string) : d </> a = d </> b -> a = b.
Proof. unfold joinpath. intros H. apply app_inv_head in H. congruence. Qed.

Lemma joinpath_neq_dir (d : path) (a : string) : d </> a <> d.
Proof.
  unfold joinpath. intros H. apply (f_equal length) in H.
  rewrite length_app in H. simpl in H. lia.
Qed.


Lemma can_write_in_dir (fs : filesystem) (d : path) (name : string) :
  fs !! d = Some Dir -> fs !! (d </> name) <> Some Dir -> can_write fs (d </> name).
Proof.
  intros Hd Hp. unfold can_write. rewrite parent_joinpath.
  destruct (fs !! (d </> name)) as [[|c]|]; [congruence|left; eauto|right; auto].
Qed.

Lemma can_write_insert (fs : filesystem) (p q : path) (c : string) :
  can_write fs p -> can_write fs q -> can_write (<[q := File c]> fs) p.
Proof.
  intros Hp Hq. unfold can_write in *.
  destruct (decide (q = p)) as [->|Hne].
  - left. exists c. apply lookup_insert_eq.
  - rewrite lookup_insert_ne by done.
    destruct Hp as [Hp|[Hp Hd]]; [left; exact Hp|right; split; [exact Hp|]].
    destruct (decide (q = parent p)) as [->|Hne'].
    + exfalso. destruct Hq as [[c' Hq]|[Hq _]]; congruence.
    + rewrite lookup_insert_ne by done. exact Hd.
Qed.

Lemma open_write_run (fs : filesystem) (p : path) :
  can_write fs p -> Os.open_write p fs = (Ok (content_of fs p), fs).
Proof.
  unfold can_write, content_of, Os.open_write, get_fs, mbind, M_bind.
  intros [[c ->]|[-> ->]]; reflexivity.
Qed.

Lemma write_text_run (fs : filesystem) (p : path) (data : string) :
  can_write fs p -> Os.write_text p data fs = (Ok tt, <[p := File data]> fs).
Proof.
  intros H. unfold Os.write_text, mbind, M_bind. rewrite (open_write_run fs p H). reflexivity.
Qed.

Lemma append_text_run (fs : filesystem) (p : path) (data : string) :
  can_write fs p ->
  Os.append_text p data fs
  = (Ok tt, <[p := File (default "" (content_of fs p) +:+ data)]> fs).
Proof.
  intros H. unfold Os.append_text, mbind, M_bind. rewrite (open_write_run fs p H). reflexivity.
Qed.

Lemma open_read_file (fs : filesystem) (p : path) (content : string) :
  fs !! p = Some (File content) -> Os.open_read p fs = (Ok content, fs).
Proof. unfold Os.open_read, get_fs, mbind, M_bind. intros ->. reflexivity. Qed.

Lemma ancestors_joinpath (d : path) (name : string) :
  ancestors (d </> name) = d :: ancestors d.
Proof.
  unfold ancestors. replace (length (d </> name)) with (S (length d))
    by (unfold joinpath; rewrite length_app; cbn [length]; lia).
  cbn [ancestors_from]. rewrite parent_joinpath. reflexivity.
Qed.

Lemma missing_error_in_dir (fs : filesystem) (d : path) (name : string) :
  fs !! d = Some Dir -> missing_error fs (d </> name) = FileNotFoundError.
Proof.
  intros Hd. unfold missing_error, nearest_above. rewrite ancestors_joinpath.
  cbn [first_node]. rewrite Hd. reflexivity.
Qed.

Lemma missing_error_below (fs : filesystem) (d : path) (name : string) :
  fs !! d = None -> missing_error fs (d </> name) = missing_error fs d.
Proof.
  intros Hd. unfold missing_error, nearest_above. rewrite ancestors_joinpath.
  cbn [first_node]. rewrite Hd. reflexivity.
Qed.

Lemma nearest_above_joinpath (fs : filesystem) (d : path) (name : string) :
  nearest_above fs (d </> name)
  = match fs !! d with
    | Some n => Some n
    | None => nearest_above fs d
    end.
Proof. unfold nearest_above. rewrite ancestors_joinpath. reflexivity. Qed.

Lemma nearest_above_parent (fs : filesystem) (p : path) (n : node) :
  fs !! p = None -> fs !! parent p = Some n -> nearest_above fs p = Some n.
Proof.
  destruct p as [|x p _] using rev_ind; [cbn; congruence|].
  change (p ++ [x]) with (p </> x). rewrite parent_joinpath, nearest_above_joinpath.
  intros _ ->. reflexivity.
Qed.

Lemma missing_error_file (fs : filesystem) (p : path) (c : string) :
  nearest_above fs p = Some (File c) -> missing_error fs p = NotADirectoryError.
Proof. unfold missing_error. intros ->. reflexivity. Qed.

Lemma missing_error_no_file (fs : filesystem) (p : path) :
  (forall c, nearest_above fs p <> Some (File c)) -> missing_error fs p = FileNotFoundError.
Proof.
  unfold missing_error. intros H. destruct (nearest_above fs p) as [[|c]|]; [reflexivity| |reflexivity].
  destruct (H c eq_refl).
Qed.

Lemma open_write_cases (fs : filesystem) (p : path) :
  can_write fs p \/
  (fs !! p = Some Dir /\ Os.open_write p fs = (Raise IsADirectoryError, fs)) \/
  (fs !! p = None /\ fs !! parent p <> Some Dir /\
   Os.open_write p fs = (Raise (missing_error fs p), fs)).
Proof.
  unfold can_write, Os.open_write, get_fs, mbind, M_bind.
  destruct (fs !! p) as [[|c]|]; [right; left; auto|left; left; eauto|].
  destruct (fs !! parent p) as [[|c]|]; [left; right; auto| |];
    right; right; repeat split; congruence.
Qed.

Lemma open_read_absent (fs : filesystem) (d : path) (name : string) :
  fs !! d = Some Dir -> fs !! (d </> name) = None ->
  Os.open_read (d </> name) fs = (Raise FileNotFoundError, fs).
Proof.
  unfold Os.open_read, get_fs, mbind, M_bind. intros Hd ->.
  rewrite (missing_error_in_dir fs d name Hd). reflexivity.
Qed.

Lemma read_text_file (fs : filesystem) (p : path) (content : string) :
  fs !! p = Some (File content) ->
  Os.read_text p fs = (Ok (Os.universal_newlines content), fs).
Proof.
  intros H. unfold Os.read_text, mbind, M_bind. rewrite (open_read_file fs p content H).
  reflexivity.
Qed.

Definition not_CR (c : ascii) : bool := negb (Ascii.eqb c CR).

Lemma universal_newlines_id (s : string) :
  sall not_CR s = true -> Os.universal_newlines s = s.
Proof.
  induction s as [|c s IH]; [reflexivity|].
  cbn [sall]. intros [Hc Hs]%andb_true_iff. cbn [Os.universal_newlines].
  unfold not_CR in Hc. apply negb_true_iff in Hc. rewrite Hc, (IH Hs). reflexivity.
Qed.

Lemma num_char_not_CR c : is_num_char c = true -> not_CR c = true.
Proof. by_chars c. Qed.

Lemma universal_newlines_str (z : Z) : Os.universal_newlines (str z) = str z.
Proof.
  apply universal_newlines_id, (sall_impl is_num_char); [apply num_char_not_CR|apply str_all_num].
Qed.

End OsFacts.

(** ** The scalar record store: [save_num_components], [load_num_components] *)

Module ScalarStore.
Import PyStr PyStrFacts Os OsFacts htio Examples.

Lemma save_num_components_run (fs : filesystem) (map_dir : path) (k : Z) :
  can_write fs (_num_components_path map_dir) ->
  save_num_components map_dir k fs
  = (Ok tt, <[_num_components_path map_dir := File (str k)]> fs).
Proof. intros H. unfold save_num_components. apply write_text_run, H. Qed.

Lemma load_num_components_file (fs : filesystem) (map_dir : path) (text : string) :
  fs !! _num_components_path map_dir = Some (File text) ->
  load_num_components map_dir fs = (int (Os.universal_newlines text), fs).
Proof.
  intros H. unfold load_num_components, mbind, M_bind.
  rewrite (read_text_file fs _ text H). reflexivity.
Qed.

Lemma int_raises_ValueError (s : string) (e : exn) : int s = Raise e -> e = ValueError.
Proof.
  unfold int. destruct (scan_sign _) as [neg body].
  destruct body as [|c body]; [congruence|].
  destruct (is_digit c); [|congruence].
  destruct (scan_digits _ _) as [[n rest]|]; [|congruence].
  destruct (skip_space_c rest); congruence.
Qed.


(** C7. For every integer [k], and so for every non-negative one, saving
    [k] with [save_num_components] and then calling [load_num_components]
    on the same map directory returns exactly [k]. *)
Theorem save_load_num_components (fs : filesystem) (map_dir : path) (k : Z) :
  fs !! map_dir = Some Dir ->
  fs !! _num_components_path map_dir <> Some Dir ->
  outcome (save_num_components map_dir k ≫= fun _ => load_num_components map_dir) fs
  = Ok k.
Proof.
  intros Hd Hp. unfold outcome, mbind, M_bind.
  rewrite save_num_components_run by (apply can_write_in_dir; assumption).
  rewrite (load_num_components_file _ _ (str k)) by apply lookup_insert_eq.
  rewrite universal_newlines_str, int_str. reflexivity.
Qed.

Lemma save_load_num_components_witness :
  outcome (save_num_components example_dir 3 ≫= fun _ => load_num_components example_dir)
    example_fs = Ok 3%Z.
Proof. apply (save_load_num_components example_fs example_dir 3); vm_compute; congruence. Defined.

(** C10. A second [save_num_components] on the same map directory raises
    nothing and overwrites the stored value, whatever the directory holds
    besides (no input component file is looked at or changed), so that
    [load_num_components] then returns the value saved last. *)
Theorem save_num_components_last_write_wins
    (fs : filesystem) (map_dir : path) (k1 k2 : Z) :
  fs !! map_dir = Some Dir ->
  fs !! _num_components_path map_dir <> Some Dir ->
  let twice := save_num_components map_dir k1 ≫= fun _ => save_num_components map_dir k2 in
  outcome twice fs = Ok tt /\
  outcome (load_num_components map_dir) (effect twice fs) = Ok k2 /\
  (forall q, q <> _num_components_path map_dir -> effect twice fs !! q = fs !! q).
Proof.
  intros Hd Hp. cbv zeta. unfold outcome, effect, mbind, M_bind.
  assert (Hw : can_write fs (_num_components_path map_dir))
    by (apply can_write_in_dir; assumption).
  rewrite save_num_components_run by exact Hw.
  rewrite save_num_components_run by (apply can_write_insert; exact Hw).
  cbn [fst snd]. rewrite insert_insert_eq. repeat split.
  - rewrite (load_num_components_file _ _ (str k2)) by apply lookup_insert_eq.
    rewrite universal_newlines_str, int_str. reflexivity.
  - intros q Hq. apply lookup_insert_ne. congruence.
Qed.

Lemma save_num_components_last_write_wins_witness :
  let twice := save_num_components example_dir 3 ≫= fun _ => save_num_components example_dir 2 in
  outcome twice example_fs = Ok tt /\
  outcome (load_num_components example_dir) (effect twice example_fs) = Ok 2%Z /\
  (forall q, q <> _num_components_path example_dir -> effect twice example_fs !! q = example_fs !! q).
Proof.
  apply (save_num_components_last_write_wins example_fs example_dir 3 2); vm_compute; congruence.
Defined.

(** C4, as the code has it.  [load_num_components] returns what [int]
    makes of the stored text, so the text [str k] is read back as [k].  It
    raises [FileNotFoundError] when the file is missing from the map
    directory, and [ValueError], the only exception [int] raises, when the
    file is empty or holds no integer literal; a [CorruptStateError] is
    raised in no case. *)
Theorem load_num_components_outcomes (fs : filesystem) (map_dir : path) :
  fs !! map_dir = Some Dir ->
  match fs !! _num_components_path map_dir with
  | None => outcome (load_num_components map_dir) fs = Raise FileNotFoundError
  | Some Dir => outcome (load_num_components map_dir) fs = Raise IsADirectoryError
  | Some (File text) =>
      outcome (load_num_components map_dir) fs = int (Os.universal_newlines text) /\
      (forall k, text = str k -> outcome (load_num_components map_dir) fs = Ok k) /\
      (text = "" -> outcome (load_num_components map_dir) fs = Raise ValueError) /\
      (forall e, outcome (load_num_components map_dir) fs = Raise e -> e = ValueError)
  end.
Proof.
  intros Hd. destruct (fs !! _num_components_path map_dir) as [[|text]|] eqn:E.
  - unfold outcome, load_num_components, Os.read_text, Os.open_read, get_fs, mbind, M_bind.
    cbn zeta. rewrite E. reflexivity.
  - unfold outcome. rewrite (load_num_components_file fs map_dir text E). cbn [fst].
    repeat split.
    + intros k ->. rewrite universal_newlines_str. apply int_str.
    + intros ->. reflexivity.
    + apply int_raises_ValueError.
  - unfold outcome, load_num_components, mbind, M_bind, Os.read_text, mbind, M_bind.
    unfold _num_components_path in *. rewrite (open_read_absent fs map_dir _ Hd E). reflexivity.
Qed.

Lemma load_num_components_outcomes_witness :
  outcome (load_num_components example_dir) example_fs = Raise FileNotFoundError.
Proof. apply (load_num_components_outcomes example_fs example_dir). reflexivity. Defined.

(** C4, as the spec has it, fails: with the component-count file missing,
    and likewise with the file empty or holding no integer, the exception
    is not [CorruptStateError]. *)
Lemma load_num_components_not_CorruptStateError :
  let missing := example_fs in
  let empty := <[_num_components_path example_dir := File ""]> example_fs in
  let invalid := <[_num_components_path example_dir := File "three"]> example_fs in
  outcome (load_num_components example_dir) missing = Raise FileNotFoundError /\
  outcome (load_num_components example_dir) empty = Raise ValueError /\
  outcome (load_num_components example_dir) invalid = Raise ValueError /\
  outcome (load_num_components example_dir) missing <> Raise (Defined "CorruptStateError") /\
  outcome (load_num_components example_dir) empty <> Raise (Defined "CorruptStateError") /\
  outcome (load_num_components example_dir) invalid <> Raise (Defined "CorruptStateError").
Proof. cbv zeta. repeat split; vm_compute; congruence. Qed.

End ScalarStore.

(** ** The append log store: [append_cluster_id], [load_cluster_ids] *)

Module AppendLog.
Import PyStr PyStrFacts Os OsFacts htio Formats Examples.


Lemma log_text_app (a b : list Z) : log_text (a ++ b) = log_text a +:+ log_text b.
Proof. induction a as [|x a IH]; simpl; [reflexivity|]. rewrite IH, append_assoc. reflexivity. Qed.

Definition is_line_char (c : ascii) : bool := is_num_char c || Ascii.eqb c LF.

Lemma log_text_chars (ids : list Z) : sall is_line_char (log_text ids) = true.
Proof.
  induction ids as [|x ids IH]; [reflexivity|].
  assert (Hx : sall is_line_char (str x) = true).
  { apply (sall_impl is_num_char); [|apply str_all_num].
    intros c Hc. unfold is_line_char. rewrite Hc. reflexivity. }
  cbn [log_text]. unfold line. rewrite !sall_app, IH, Hx. reflexivity.
Qed.

Lemma line_char_not_CR c : is_line_char c = true -> not_CR c = true.
Proof. by_chars c. Qed.

Lemma universal_newlines_log_text (ids : list Z) :
  Os.universal_newlines (log_text ids) = log_text ids.
Proof.
  apply universal_newlines_id, (sall_impl is_line_char); [apply line_char_not_CR|apply log_text_chars].
Qed.

(** *** Reading the log back *)

Definition no_linebreak (c : ascii) : bool := negb (is_linebreak c).
Definition no_space (c : ascii) : bool := negb (is_space c).

Lemma splitlines_line (s rest : string) :
  sall no_linebreak s = true ->
  splitlines (s +:+ String LF rest) = s :: splitlines rest.
Proof.
  induction s as [|c s IH]; cbn [sall append].
  - intros _. cbn [splitlines]. change (is_linebreak LF) with true. cbv iota.
    destruct rest; reflexivity.
  - intros [Hc Hs]%andb_true_iff. unfold no_linebreak in Hc. apply negb_true_iff in Hc.
    cbn [splitlines]. rewrite Hc, (IH Hs). reflexivity.
Qed.

Lemma lstrip_id (s : string) : sall no_space s = true -> lstrip s = s.
Proof.
  destruct s as [|c s]; [reflexivity|]. cbn [sall lstrip].
  intros [Hc _]%andb_true_iff. unfold no_space in Hc. apply negb_true_iff in Hc.
  rewrite Hc. reflexivity.
Qed.

Lemma rstrip_id (s : string) : sall no_space s = true -> rstrip s = s.
Proof.
  induction s as [|c s IH]; [reflexivity|]. cbn [sall rstrip].
  intros [Hc Hs]%andb_true_iff. unfold no_space in Hc. apply negb_true_iff in Hc.
  rewrite (IH Hs), Hc. destruct s; reflexivity.
Qed.

Lemma strip_id (s : string) : sall no_space s = true -> strip s = s.
Proof. intros H. unfold strip. rewrite (lstrip_id s H). apply rstrip_id, H. Qed.

Lemma num_char_no_linebreak c : is_num_char c = true -> no_linebreak c = true.
Proof. by_chars c. Qed.
Lemma num_char_no_space c : is_num_char c = true -> no_space c = true.
Proof. by_chars c. Qed.

Lemma splitlines_log_text (ids : list Z) : splitlines (log_text ids) = map str ids.
Proof.
  induction ids as [|x ids IH]; [reflexivity|].
  cbn [log_text map]. unfold line. rewrite append_assoc. cbn [append].
  rewrite splitlines_line, IH; [reflexivity|].
  apply (sall_impl is_num_char); [apply num_char_no_linebreak|apply str_all_num].
Qed.

Lemma parse_lines (ids : list Z) :
  mapM (fun cid => int (strip cid)) (map str ids) = Ok ids.
Proof.
  induction ids as [|x ids IH]; [reflexivity|].
  cbn [map mapM]. rewrite strip_id, int_str.
  2:{ apply (sall_impl is_num_char); [apply num_char_no_space|apply str_all_num]. }
  cbn. rewrite IH. reflexivity.
Qed.

Lemma load_cluster_ids_log (fs : filesystem) (map_dir : path) (ids : list Z) :
  fs !! _cluster_ids_path map_dir = Some (File (log_text ids)) ->
  load_cluster_ids map_dir fs = (Ok ids, fs).
Proof.
  intros H. unfold load_cluster_ids, mbind, M_bind.
  rewrite (read_text_file fs _ _ H), universal_newlines_log_text.
  unfold lift. rewrite splitlines_log_text, parse_lines. reflexivity.
Qed.

(** *** Appending *)

Lemma append_cluster_id_run (fs : filesystem) (map_dir : path) (cluster_id : Z) :
  can_write fs (_cluster_ids_path map_dir) ->
  append_cluster_id map_dir cluster_id fs
  = (Ok tt, <[_cluster_ids_path map_dir :=
               File (default "" (content_of fs (_cluster_ids_path map_dir))
                     +:+ line cluster_id)]> fs).
Proof. intros H. unfold append_cluster_id. apply append_text_run, H. Qed.

Lemma content_of_insert (fs : filesystem) (p : path) (c : string) :
  content_of (<[p := File c]> fs) p = Some c.
Proof. unfold content_of. rewrite lookup_insert_eq. reflexivity. Qed.

Lemma append_all_run (ids : list Z) : forall (fs : filesystem) (map_dir : path),
  can_write fs (_cluster_ids_path map_dir) ->
  for_each ids (append_cluster_id map_dir) fs
  = (Ok tt,
     match ids with
     | [] => fs
     | _ => <[_cluster_ids_path map_dir :=
               File (default "" (content_of fs (_cluster_ids_path map_dir))
                     +:+ log_text ids)]> fs
     end).
Proof.
  induction ids as [|x ids IH]; intros fs map_dir Hw; [reflexivity|].
  cbn [for_each]. unfold mbind, M_bind. rewrite (append_cluster_id_run fs map_dir x Hw).
  rewrite IH by (apply can_write_insert; exact Hw).
  destruct ids as [|y ids].
  - cbn [log_text]. rewrite append_nil_r. reflexivity.
  - rewrite insert_insert_eq, content_of_insert. cbn [default]. unfold id.
    rewrite append_assoc. reflexivity.
Qed.

(** C6. In a map directory whose log was never written, the entries
    appended one at a time with [append_cluster_id] are what
    [load_cluster_ids] returns, in the order of the appends; on a log that
    holds entries already, the appended entries come after them.  An append
    extends the file by one line and leaves what the file held, and every
    other file, as it was. *)
Theorem append_then_load_cluster_ids (fs : filesystem) (map_dir : path) :
  fs !! map_dir = Some Dir ->
  (fs !! _cluster_ids_path map_dir = None ->
   forall (cluster_id : Z) (ids : list Z),
     let appends := for_each (cluster_id :: ids) (append_cluster_id map_dir) in
     outcome appends fs = Ok tt /\
     outcome (load_cluster_ids map_dir) (effect appends fs) = Ok (cluster_id :: ids)) /\
  (forall old : list Z,
   fs !! _cluster_ids_path map_dir = Some (File (log_text old)) ->
   forall ids : list Z,
     let appends := for_each ids (append_cluster_id map_dir) in
     outcome appends fs = Ok tt /\
     outcome (load_cluster_ids map_dir) (effect appends fs) = Ok (old ++ ids)) /\
  (forall (content : string) (cluster_id : Z),
   fs !! _cluster_ids_path map_dir = Some (File content) ->
   outcome (append_cluster_id map_dir cluster_id) fs = Ok tt /\
   effect (append_cluster_id map_dir cluster_id) fs !! _cluster_ids_path map_dir
   = Some (File (content +:+ str cluster_id +:+ String LF "")) /\
   forall q, q <> _cluster_ids_path map_dir ->
     effect (append_cluster_id map_dir cluster_id) fs !! q = fs !! q).
Proof.
  intros Hd. repeat split.
  - unfold outcome. rewrite append_all_run; [reflexivity|].
    right. unfold _cluster_ids_path. rewrite parent_joinpath. auto.
  - unfold outcome, effect. rewrite append_all_run.
    2:{ right. unfold _cluster_ids_path. rewrite parent_joinpath. auto. }
    cbn [snd]. unfold content_of. rewrite H. cbn [default].
    rewrite (load_cluster_ids_log _ _ (cluster_id :: ids)); [reflexivity|].
    apply lookup_insert_eq.
  - unfold outcome. rewrite append_all_run; [reflexivity|]. left. eauto.
  - unfold outcome, effect. rewrite append_all_run by (left; eauto). cbn [snd].
    destruct ids as [|x ids].
    + rewrite app_nil_r, (load_cluster_ids_log _ _ old H). reflexivity.
    + rewrite (load_cluster_ids_log _ _ (old ++ x :: ids)); [reflexivity|].
      rewrite lookup_insert_eq, log_text_app. unfold content_of. rewrite H. reflexivity.
  - unfold outcome. rewrite append_cluster_id_run by (left; eauto). reflexivity.
  - unfold effect. rewrite append_cluster_id_run by (left; eauto). cbn [snd].
    rewrite lookup_insert_eq. unfold content_of. rewrite H. reflexivity.
  - intros q Hq. unfold effect. rewrite append_cluster_id_run by (left; eauto). cbn [snd].
    apply lookup_insert_ne. congruence.
Qed.

Lemma append_then_load_cluster_ids_witness :
  outcome (load_cluster_ids example_dir)
    (effect (for_each [5; 17; 9]%Z (append_cluster_id example_dir)) example_fs)
  = Ok [5; 17; 9]%Z.
Proof.
  apply (proj1 (append_then_load_cluster_ids example_fs example_dir eq_refl) eq_refl 5%Z [17; 9]%Z).
Defined.

(** C3, as the code has it.  In a map directory with no cluster-ids file
    [load_cluster_ids] raises [FileNotFoundError], the error of the failed
    [open], and leaves the directory as it was: the absence is neither
    turned into an empty list nor into an error of the store's own. *)
Theorem load_cluster_ids_absent (fs : filesystem) (map_dir : path) :
  fs !! map_dir = Some Dir ->
  fs !! _cluster_ids_path map_dir = None ->
  load_cluster_ids map_dir fs = (Raise FileNotFoundError, fs) /\
  is_OSError FileNotFoundError = true.
Proof.
  intros Hd Hp. split; [|reflexivity].
  unfold load_cluster_ids, Os.read_text, mbind, M_bind.
  unfold _cluster_ids_path in *. rewrite (open_read_absent fs map_dir _ Hd Hp). reflexivity.
Qed.

Lemma load_cluster_ids_absent_witness :
  load_cluster_ids example_dir example_fs = (Raise FileNotFoundError, example_fs) /\
  is_OSError FileNotFoundError = true.
Proof. apply (load_cluster_ids_absent example_fs example_dir); reflexivity. Defined.

(** C3, as the spec has it, fails: in a map directory that was never
    submitted the call returns no empty list and raises no [NotFoundError];
    it raises an error of the operating system's file interface. *)
Lemma load_cluster_ids_never_submitted :
  example_fs !! example_dir = Some Dir /\
  example_fs !! _cluster_ids_path example_dir = None /\
  outcome (load_cluster_ids example_dir) example_fs <> Ok [] /\
  outcome (load_cluster_ids example_dir) example_fs <> Raise (Defined "NotFoundError") /\
  exists e, outcome (load_cluster_ids example_dir) example_fs = Raise e /\ is_OSError e = true.
Proof.
  repeat split; try (vm_compute; congruence).
  exists FileNotFoundError. split; reflexivity.
Qed.

End AppendLog.

(** ** The reference backend is a codec *)

Module RefCodecFacts.
Import PyStr PyStrFacts RefCodec.

Definition not_LF (c : ascii) : bool := negb (Ascii.eqb c LF).

Lemma readline_line (s rest : string) :
  sall not_LF s = true -> readline (s +:+ String LF rest) = Some (s, rest).
Proof.
  induction s as [|c s IH]; cbn [sall append readline].
  - intros _. change (Ascii.eqb LF LF) with true. reflexivity.
  - intros [Hc Hs]%andb_true_iff. unfold not_LF in Hc. apply negb_true_iff in Hc.
    rewrite Hc, (IH Hs). reflexivity.
Qed.

Lemma num_char_not_LF c : is_num_char c = true -> not_LF c = true.
Proof. by_chars c. Qed.

Lemma read_int_of_line (z : Z) (rest : string) : read_int (int_line z +:+ rest) = Ok (z, rest).
Proof.
  unfold read_int, int_line. rewrite append_assoc. cbn [append].
  rewrite readline_line, int_str; [reflexivity|].
  apply (sall_impl is_num_char); [apply num_char_not_LF|apply str_all_num].
Qed.

Lemma unpickle_pickle (o : obj) (rest : string) : unpickle (pickle o +:+ rest) = Ok (o, rest).
Proof.
  destruct o as [n|code cell]; unfold pickle.
  - change ("I" +:+ int_line n +:+ ".") with (String "I" (int_line n +:+ ".")).
    cbn [append unpickle]. change (Ascii.eqb "I" "I") with true. cbv iota.
    rewrite append_assoc, read_int_of_line. reflexivity.
  - change ("C" +:+ int_line code +:+ int_line cell +:+ ".")
      with (String "C" (int_line code +:+ int_line cell +:+ ".")).
    cbn [append unpickle]. change (Ascii.eqb "C" "I") with false.
    change (Ascii.eqb "C" "C") with true. cbv iota.
    rewrite !append_assoc, read_int_of_line. cbn [mbind result_bind].
    rewrite read_int_of_line. reflexivity.
Qed.

Lemma fmap_bind_cons (c : ascii) (d : string) (g : result string) :
  String c <$> (r ← g; mret (d +:+ r)) = (r ← g; mret (String c d +:+ r)).
Proof. destruct g; reflexivity. Qed.

Lemma unpack_inside (data rest : string) :
  unpack_from true (stuff data +:+ String MARK_CLOSE rest)
  = (r ← unpack_from false rest; mret (data +:+ r)).
Proof.
  induction data as [|c data IH]; cbn [stuff append].
  - cbn [unpack_from]. change (Ascii.eqb MARK_CLOSE ESCAPE) with false.
    change (Ascii.eqb MARK_CLOSE MARK_CLOSE) with true. cbv iota.
    destruct (unpack_from false rest); reflexivity.
  - destruct (is_mark c) eqn:E; cbn [append unpack_from].
    + change (Ascii.eqb ESCAPE ESCAPE) with true. cbv iota.
      rewrite IH. apply fmap_bind_cons.
    + unfold is_mark in E. apply orb_false_iff in E as [E E3].
      apply orb_false_iff in E as [E1 E2]. rewrite E1, E2, E3, IH.
      apply fmap_bind_cons.
Qed.

Lemma unpack_container (data rest : string) :
  unpack (container data +:+ rest) = (r ← unpack rest; mret (data +:+ r)).
Proof.
  unfold unpack, container. cbn [append]. rewrite append_assoc. cbn [append unpack_from].
  change (Ascii.eqb MARK_OPEN MARK_OPEN) with true. cbv iota. apply unpack_inside.
Qed.

End RefCodecFacts.

#[global] Program Instance ref_codec : Codec RefCodec.obj := {|
  dumps := RefCodec.pickle;
  load := RefCodec.unpickle;
  gzip_member := RefCodec.container;
  gunzip := RefCodec.unpack;
  equiv := eq
|}.
Next Obligation.
  intros o rest. exists o. split; [apply RefCodecFacts.unpickle_pickle|reflexivity].
Qed.
Next Obligation. reflexivity. Qed.
Next Obligation. reflexivity. Qed.
Next Obligation. apply RefCodecFacts.unpack_container. Qed.

(** ** The object codec: [save_object], [load_object], [load_objects] *)

Module ObjectCodec.
Import PyStr PyStrFacts Os OsFacts htio Formats Examples.

Section WithCodec.
Context {V : Type} `{!Codec V}.


Lemma gunzip_frames (objs : list V) : gunzip (frames objs) = Ok (pickles objs).
Proof.
  induction objs as [|obj objs IH]; cbn [frames pickles]; [apply gunzip_eof|].
  unfold frame. rewrite gunzip_member, IH. reflexivity.
Qed.

Lemma gunzip_frame (obj : V) : gunzip (frame obj) = Ok (dumps obj).
Proof.
  pose proof (gunzip_frames [obj]) as H. cbn [frames pickles] in H.
  rewrite !append_nil_r in H. exact H.
Qed.

Lemma open_wb_run (fs : filesystem) (p : path) :
  can_write fs p ->
  Gzip.open_wb p fs = (Ok {| Gzip.gz_path := p; Gzip.gz_data := "" |}, <[p := File ""]> fs).
Proof.
  intros H. unfold Gzip.open_wb, mbind, M_bind. rewrite (open_write_run fs p H). reflexivity.
Qed.

Lemma save_object_run (fs : filesystem) (obj : V) (p : path) :
  can_write fs p -> save_object obj p fs = (Ok tt, <[p := File (frame obj)]> fs).
Proof.
  intros H. unfold save_object, mbind, M_bind. rewrite (open_wb_run fs p H).
  unfold Gzip.close, Gzip.write, put_node. cbn [Gzip.gz_path Gzip.gz_data append].
  rewrite insert_insert_eq. reflexivity.
Qed.

Lemma open_rb_file (fs : filesystem) (p : path) (bytes : string) :
  fs !! p = Some (File bytes) -> Gzip.open_rb p fs = (gunzip bytes, fs).
Proof.
  intros H. unfold Gzip.open_rb, mbind, M_bind. rewrite (open_read_file fs p bytes H).
  reflexivity.
Qed.

Lemma load_object_file (fs : filesystem) (p : path) (bytes : string) :
  fs !! p = Some (File bytes) ->
  outcome (load_object p) fs = (stream ← gunzip bytes; '(obj, _) ← load stream; mret obj).
Proof.
  intros H. unfold outcome, load_object, mbind at 1 2, M_bind. rewrite (open_rb_file fs p bytes H).
  unfold lift. destruct (gunzip bytes) as [stream|e]; [|reflexivity].
  cbn [mbind result_bind]. destruct (load stream) as [[obj rest]|e]; reflexivity.
Qed.

Lemma load_object_frame (fs : filesystem) (p : path) (obj : V) :
  fs !! p = Some (File (frame obj)) ->
  exists obj', outcome (load_object p) fs = Ok obj' /\ equiv obj obj'.
Proof.
  intros H. rewrite (load_object_file fs p _ H), gunzip_frame.
  destruct (load_dumps obj "") as (obj' & Hl & He). rewrite append_nil_r in Hl.
  exists obj'. cbn [mbind result_bind]. rewrite Hl. split; [reflexivity|exact He].
Qed.

Lemma load_object_empty (fs : filesystem) (p : path) :
  fs !! p = Some (File "") -> outcome (load_object p) fs = Raise EOFError.
Proof.
  intros H. rewrite (load_object_file fs p _ H), gunzip_eof.
  cbn [mbind result_bind]. rewrite load_eof. reflexivity.
Qed.

(** A second [save_object] on a path does not add a frame: mode "wb"
    empties the file, and the file holds the last object alone. *)
Lemma save_object_overwrites (fs : filesystem) (first last : V) (p : path) :
  can_write fs p ->
  save_object first p fs = (Ok tt, <[p := File (frame first)]> fs) /\
  effect (save_object first p ≫= fun _ => save_object last p) fs
  = <[p := File (frame last)]> fs.
Proof.
  intros Hw. split; [apply save_object_run, Hw|].
  unfold effect, mbind, M_bind. rewrite (save_object_run fs first p Hw).
  rewrite save_object_run by (left; eexists; apply lookup_insert_eq).
  cbn [snd]. apply insert_insert_eq.
Qed.

Lemma beginnings_first (s : string) : exists l, Gzip.beginnings s = "" :: l.
Proof. destruct s; eexists; reflexivity. Qed.

Lemma last_map {A B : Type} (f : A -> B) (l : list A) : last (map f l) = f <$> last l.
Proof.
  induction l as [|x l IH]; [reflexivity|].
  destruct l as [|y l]; [reflexivity|]. exact IH.
Qed.

Lemma beginnings_last (s : string) : last (Gzip.beginnings s) = Some s.
Proof.
  induction s as [|c s IH]; [reflexivity|]. cbn [Gzip.beginnings].
  destruct (beginnings_first s) as (l & E). rewrite E in *. cbn [map].
  change (last ("" :: String c "" :: map (String c) l))
    with (last (map (String c) ("" :: l))).
  rewrite last_map, IH. reflexivity.
Qed.

Lemma beginnings_begin (s b : string) :
  b ∈ Gzip.beginnings s -> exists rest, s = b +:+ rest.
Proof.
  revert b. induction s as [|c s IH]; intros b Hb; cbn [Gzip.beginnings] in Hb.
  - apply list_elem_of_singleton in Hb as ->. exists "". reflexivity.
  - apply elem_of_cons in Hb as [->|Hb]; [exists (String c s); reflexivity|].
    apply list_elem_of_In, in_map_iff in Hb as (b' & <- & Hb').
    apply list_elem_of_In, IH in Hb' as (rest & ->). exists rest. reflexivity.
Qed.

Lemma save_object_states_run (fs : filesystem) (obj : V) (p : path) :
  can_write fs p ->
  save_object_states obj p fs
  = map (fun bytes => <[p := File bytes]> fs) (Gzip.beginnings (frame obj)).
Proof.
  intros Hw. unfold save_object_states. rewrite (open_wb_run fs p Hw).
  cbv zeta. unfold Gzip.write. cbn [Gzip.gz_path Gzip.gz_data append].
  apply List.map_ext. intros bytes. unfold effect, put_node. cbn [snd].
  apply insert_insert_eq.
Qed.

(** C1. For every value [obj] the backend can serialize, a closure as any
    other, [save_object obj p] followed by [load_object p] returns a value
    behaviourally equivalent to [obj]. *)
Theorem save_load_object (fs : filesystem) (obj : V) (p : path) :
  can_write fs p ->
  exists obj',
    outcome (save_object obj p ≫= fun _ => load_object p) fs = Ok obj' /\ equiv obj obj'.
Proof.
  intros Hw.
  destruct (load_object_frame (<[p := File (frame obj)]> fs) p obj) as (obj' & Hl & He);
    [apply lookup_insert_eq|].
  exists obj'. split; [|exact He].
  unfold outcome in *. unfold mbind, M_bind. rewrite (save_object_run fs obj p Hw). exact Hl.
Qed.

(** C5, as the code has it.  [save_object] writes in place, through no
    temporary path and no rename: every state a reader can meet from the
    opening of the target to its closing differs from the state before the
    call at the target alone, and holds a beginning of the container there.
    The first of these states, the one the opening leaves, holds the empty
    file, on which [load_object] raises [EOFError]; the last, the one the
    closing leaves, holds the complete container, which [load_object]
    reads back.  Of [load_object] on the beginnings between the two
    nothing is stated. *)
Theorem save_object_in_place (fs : filesystem) (obj : V) (p : path) :
  can_write fs p ->
  let states := save_object_states obj p fs in
  exists opened closed,
    head states = Some opened /\
    last states = Some closed /\
    opened !! p = Some (File "") /\
    outcome (load_object p) opened = Raise EOFError /\
    closed = effect (save_object obj p) fs /\
    closed !! p = Some (File (frame obj)) /\
    (exists obj', outcome (load_object p) closed = Ok obj' /\ equiv obj obj') /\
    forall seen, seen ∈ states ->
      (exists bytes rest, frame obj = bytes +:+ rest /\ seen !! p = Some (File bytes)) /\
      (forall q, q <> p -> seen !! q = fs !! q).
Proof.
  intros Hw states. exists (<[p := File ""]> fs), (<[p := File (frame obj)]> fs).
  assert (Hc : <[p := File (frame obj)]> fs !! p = Some (File (frame obj)))
    by apply lookup_insert_eq.
  assert (Hs : states = map (fun bytes => <[p := File bytes]> fs) (Gzip.beginnings (frame obj)))
    by apply save_object_states_run, Hw.
  split; [|split; [|split; [|split; [|split; [|split; [|split]]]]]].
  - rewrite Hs. destruct (beginnings_first (frame obj)) as (l & ->). reflexivity.
  - rewrite Hs, last_map, beginnings_last. reflexivity.
  - apply lookup_insert_eq.
  - apply load_object_empty, lookup_insert_eq.
  - unfold effect. rewrite (save_object_run fs obj p Hw). reflexivity.
  - exact Hc.
  - apply load_object_frame, Hc.
  - intros seen Hseen. rewrite Hs in Hseen.
    apply list_elem_of_In, in_map_iff in Hseen as (bytes & <- & Hb).
    apply list_elem_of_In, beginnings_begin in Hb as (rest & Hrest). split.
    + exists bytes, rest. split; [exact Hrest|apply lookup_insert_eq].
    + intros q Hq. apply lookup_insert_ne. congruence.
Qed.

(** *** The generator of [load_objects] *)

Lemma next_created (fs : filesystem) (p : path) (bytes stream : string) :
  fs !! p = Some (File bytes) -> gunzip bytes = Ok stream ->
  next fs (GenCreated p) = next fs (GenSuspended stream).
Proof.
  intros Hp Hg. unfold next, outcome. rewrite (open_rb_file fs p bytes Hp), Hg. reflexivity.
Qed.

Lemma nexts_app (a b : nat) (fs : filesystem) : forall g : generator,
  nexts (a + b) fs g
  = let '(r1, g1) := nexts a fs g in
    let '(r2, g2) := nexts b fs g1 in (r1 ++ r2, g2).
Proof.
  induction a as [|a IH]; intros g; cbn [Nat.add nexts].
  - destruct (nexts b fs g); reflexivity.
  - destruct (next fs g) as [r g']. rewrite IH.
    destruct (nexts a fs g') as [r1 g1]. destruct (nexts b fs g1) as [r2 g2]. reflexivity.
Qed.

Lemma nexts_pickles (fs : filesystem) (objs : list V) :
  exists objs', Forall2 equiv objs objs' /\
    nexts (length objs) fs (GenSuspended (pickles objs))
    = (map Yield objs', GenSuspended "").
Proof.
  induction objs as [|obj objs (objs' & Hall & IH)].
  - exists []. split; [constructor|reflexivity].
  - destruct (load_dumps obj (pickles objs)) as (obj' & Hl & He).
    exists (obj' :: objs'). split; [constructor; assumption|].
    cbn [length nexts pickles next]. unfold load_objects_loop. rewrite Hl, IH. reflexivity.
Qed.

Lemma nexts_exhausted (fs : filesystem) :
  nexts 2 fs (GenSuspended "") = ([Throw EOFError; StopIteration], GenFinished).
Proof. cbn [nexts next]. unfold load_objects_loop. rewrite load_eof. reflexivity. Qed.

Lemma collect_pickles (fs : filesystem) (objs : list V) : forall fuel,
  length objs < fuel ->
  collect fuel fs (GenSuspended (pickles objs)) = Some (Raise EOFError).
Proof.
  induction objs as [|obj objs IH]; intros [|fuel] Hf; cbn [length] in Hf; try lia.
  - cbn [collect next pickles]. unfold load_objects_loop. rewrite load_eof. reflexivity.
  - destruct (load_dumps obj (pickles objs)) as (obj' & Hl & He).
    cbn [collect next pickles]. unfold load_objects_loop. rewrite Hl, IH by lia. reflexivity.
Qed.

(** C2, as the code has it.  From a file of the successive frames of
    [objs], the first calls of [next] on [load_objects p] yield values
    equivalent to [objs], one frame each and in their order; the call after
    the last value raises [EOFError], which the generator does not catch,
    and only the calls after that one raise [StopIteration].  A loop over
    the generator therefore ends with [EOFError]. *)
Theorem load_objects_frames (fs : filesystem) (p : path) (objs : list V) :
  fs !! p = Some (File (frames objs)) ->
  exists objs', Forall2 equiv objs objs' /\
    nexts (length objs + 2) fs (load_objects p)
    = (map Yield objs' ++ [Throw EOFError; StopIteration], GenFinished) /\
    forall fuel, length objs < fuel ->
      collect fuel fs (load_objects p) = Some (Raise EOFError).
Proof.
  intros Hp. destruct (nexts_pickles fs objs) as (objs' & Hall & Hn).
  exists objs'. split; [exact Hall|]. split.
  - transitivity (nexts (length objs + 2) fs (GenSuspended (pickles objs))).
    + replace (length objs + 2) with (S (length objs + 1)) by lia.
      cbn [nexts]. unfold load_objects.
      rewrite (next_created fs p _ _ Hp (gunzip_frames objs)). reflexivity.
    + rewrite nexts_app, Hn, nexts_exhausted. reflexivity.
  - intros [|fuel] Hf; [lia|].
    pose proof (collect_pickles fs objs (S fuel) Hf) as Hc.
    cbn [collect] in *. unfold load_objects.
    rewrite (next_created fs p _ _ Hp (gunzip_frames objs)). exact Hc.
Qed.

(** *** [save_inputs] *)

Lemma input_name_inj (a b : Z) : input_name a = input_name b -> a = b.
Proof. unfold input_name. intros H. apply append_inv_tail in H. apply str_inj, H. Qed.

Lemma input_path_inj (base : path) (a b : Z) :
  base </> input_name a = base </> input_name b -> a = b.
Proof. intros H. apply input_name_inj, (joinpath_inj base), H. Qed.

(** The file system after the input files of [items] were written from
    index [i] on. *)
Fixpoint written (base : path) (i : Z) (items : list V) (fs : filesystem) : filesystem :=
  match items with
  | [] => fs
  | item :: items' =>
      written base (i + 1) items' (<[base </> input_name i := File (frame item)]> fs)
  end.

Lemma written_other (base : path) (q : path) (items : list V) :
  forall (i : Z) (fs : filesystem),
  (forall k : nat, k < length items -> q <> base </> input_name (i + Z.of_nat k)) ->
  written base i items fs !! q = fs !! q.
Proof.
  induction items as [|item items IH]; intros i fs Hq; [reflexivity|].
  cbn [written]. rewrite IH.
  - apply lookup_insert_ne. specialize (Hq 0%nat). cbn [length] in Hq.
    rewrite Z.add_0_r in Hq. intros E. apply Hq; [lia|]. symmetry. exact E.
  - intros k Hk. replace (i + 1 + Z.of_nat k)%Z with (i + Z.of_nat (S k))%Z by lia.
    apply Hq. cbn [length]. lia.
Qed.

Lemma written_at (base : path) (items : list V) :
  forall (i : Z) (fs : filesystem) (k : nat) (item : V),
  items !! k = Some item ->
  written base i items fs !! (base </> input_name (i + Z.of_nat k)) = Some (File (frame item)).
Proof.
  induction items as [|x items IH]; intros i fs k item Hk; [discriminate|].
  destruct k as [|k]; cbn [written].
  - injection Hk as ->. rewrite Z.add_0_r, written_other; [apply lookup_insert_eq|].
    intros k _ E. apply input_path_inj in E. lia.
  - replace (i + Z.of_nat (S k))%Z with (i + 1 + Z.of_nat k)%Z by lia.
    apply IH. exact Hk.
Qed.

Lemma save_inputs_from_run (base : path) (items : list V) :
  forall (i : Z) (fs : filesystem),
  fs !! base = Some Dir ->
  (forall k : nat, k < length items -> fs !! (base </> input_name (i + Z.of_nat k)) <> Some Dir) ->
  for_each (enumerate_from i items)
    (fun '(component, a_and_k) => save_object a_and_k (base </> input_name component)) fs
  = (Ok tt, written base i items fs).
Proof.
  induction items as [|item items IH]; intros i fs Hb Ht; [reflexivity|].
  cbn [enumerate_from for_each written]. unfold mbind, M_bind.
  rewrite save_object_run.
  2:{ apply can_write_in_dir; [exact Hb|]. specialize (Ht 0%nat).
      rewrite Z.add_0_r in Ht. apply Ht. cbn [length]. lia. }
  apply IH.
  - rewrite lookup_insert_ne; [exact Hb|]. apply joinpath_neq_dir.
  - intros k Hk. rewrite lookup_insert. case_decide; [congruence|].
    replace (i + 1 + Z.of_nat k)%Z with (i + Z.of_nat (S k))%Z by lia.
    apply Ht. cbn [length]. lia.
Qed.

(** C8. For a list of [n] argument pairs, [save_inputs] writes the input
    component files of the pairs, in their order, at the paths
    [inputs-directory / "<index>.<extension>"] with the indices 0 to [n-1]:
    these are [n] different paths, each holds the container of its pair,
    and every other path of the file system is as it was. *)
Theorem save_inputs_files (fs : filesystem) (map_dir : path) (args_and_kwargs : list V) :
  let base_path := map_dir </> names.INPUTS_DIR in
  let component_path (i : nat) := base_path </> input_name (Z.of_nat i) in
  fs !! base_path = Some Dir ->
  (forall i, i < length args_and_kwargs -> fs !! component_path i <> Some Dir) ->
  outcome (save_inputs map_dir args_and_kwargs) fs = Ok tt /\
  (forall i a_and_k, args_and_kwargs !! i = Some a_and_k ->
     effect (save_inputs map_dir args_and_kwargs) fs !! component_path i
     = Some (File (frame a_and_k))) /\
  (forall i j, component_path i = component_path j -> i = j) /\
  (forall i, component_path i
     = map_dir ++ ["inputs"; str (Z.of_nat i) +:+ ".in"]) /\
  (forall q, (forall i, i < length args_and_kwargs -> q <> component_path i) ->
     effect (save_inputs map_dir args_and_kwargs) fs !! q = fs !! q).
Proof.
  intros base_path component_path Hb Ht.
  assert (Hrun : save_inputs map_dir args_and_kwargs fs
                 = (Ok tt, written base_path 0 args_and_kwargs fs)).
  { unfold save_inputs, enumerate. apply save_inputs_from_run; [exact Hb|].
    intros k Hk. apply Ht, Hk. }
  unfold outcome, effect. rewrite Hrun. cbn [fst snd]. repeat split.
  - intros i a_and_k Hi. apply (written_at base_path _ 0%Z fs i a_and_k Hi).
  - intros i j E. apply input_path_inj in E. lia.
  - intros i. unfold component_path, base_path, joinpath. rewrite <- app_assoc. reflexivity.
  - intros q Hq. apply written_other. intros k Hk. apply Hq, Hk.
Qed.

End WithCodec.


Lemma save_load_object_witness :
  exists obj',
    outcome (save_object (RefCodec.Closure 7 3) example_file
             ≫= fun _ => load_object example_file) example_fs = Ok obj' /\
    RefCodec.Closure 7 3 = obj'.
Proof.
  refine (save_load_object example_fs (RefCodec.Closure 7 3) example_file _).
  right. split; reflexivity.
Defined.

Lemma save_object_in_place_witness :
  exists opened closed,
    head (save_object_states (RefCodec.Closure 7 3) example_file example_fs) = Some opened /\
    last (save_object_states (RefCodec.Closure 7 3) example_file example_fs) = Some closed /\
    opened !! example_file = Some (File "") /\
    outcome (load_object example_file) opened = Raise EOFError /\
    closed = effect (save_object (RefCodec.Closure 7 3) example_file) example_fs /\
    closed !! example_file = Some (File (frame (RefCodec.Closure 7 3))) /\
    exists obj', outcome (load_object example_file) closed = Ok obj' /\ RefCodec.Closure 7 3 = obj'.
Proof.
  destruct (save_object_in_place example_fs (RefCodec.Closure 7 3) example_file)
    as (opened & closed & H1 & H2 & H3 & H4 & H5 & H6 & H7 & _).
  { right. split; reflexivity. }
  exists opened, closed. repeat split; assumption.
Defined.

(** C5, as the spec has it, fails: the first state a reader can meet
    while [save_object] runs, the one its opening of the target leaves, is
    a state in which the target exists and a reader gets neither "no file"
    nor a complete container from it. *)
Lemma save_object_not_atomic :
  exists seen,
    head (save_object_states (RefCodec.Closure 7 3) example_file example_fs) = Some seen /\
    seen ∈ save_object_states (RefCodec.Closure 7 3) example_file example_fs /\
    seen !! example_file <> None /\
    forall obj' : RefCodec.obj, outcome (load_object example_file) seen <> Ok obj'.
Proof.
  exists (<[example_file := File ""]> example_fs).
  assert (Hs : exists l,
            save_object_states (RefCodec.Closure 7 3) example_file example_fs
            = <[example_file := File ""]> example_fs :: l).
  { rewrite save_object_states_run by (right; split; reflexivity).
    destruct (beginnings_first (frame (RefCodec.Closure 7 3))) as (l & ->).
    eexists. reflexivity. }
  destruct Hs as (l & ->). split; [reflexivity|]. split; [left|]. split.
  - rewrite lookup_insert_eq. congruence.
  - intros obj'. rewrite load_object_empty by apply lookup_insert_eq. congruence.
Qed.

Definition example_stream_fs : filesystem :=
  <[example_file := File (frames example_objs)]> example_fs.

Lemma load_objects_frames_witness :
  exists objs', Forall2 equiv example_objs objs' /\
    nexts (length example_objs + 2) example_stream_fs (load_objects example_file)
    = (map Yield objs' ++ [Throw EOFError; StopIteration], GenFinished) /\
    forall fuel, length example_objs < fuel ->
      collect fuel example_stream_fs (load_objects example_file) = Some (Raise EOFError).
Proof.
  refine (load_objects_frames example_stream_fs example_file example_objs _).
  reflexivity.
Defined.

(** C2, as the spec has it, fails: after the last value the iteration
    does not end normally; the next call of [next] raises [EOFError], and
    so does a loop over the generator. *)
Lemma load_objects_ends_with_EOFError :
  example_stream_fs !! example_file = Some (File (frames example_objs)) /\
  fst (nexts 3 example_stream_fs (load_objects example_file))
  = [Yield (RefCodec.Integer 5); Yield (RefCodec.Closure 7 3); Throw EOFError] /\
  fst (nexts 3 example_stream_fs (load_objects example_file))
  <> [Yield (RefCodec.Integer 5); Yield (RefCodec.Closure 7 3); StopIteration] /\
  collect 3 example_stream_fs (load_objects example_file) = Some (Raise EOFError) /\
  collect 3 example_stream_fs (load_objects example_file) <> Some (Ok example_objs).
Proof.
  split; [reflexivity|].
  assert (H : nexts 3 example_stream_fs (load_objects example_file)
              = ([Yield (RefCodec.Integer 5); Yield (RefCodec.Closure 7 3); Throw EOFError],
                 GenFinished)) by (vm_compute; reflexivity).
  assert (Hc : collect 3 example_stream_fs (load_objects example_file)
               = Some (Raise EOFError)) by (vm_compute; reflexivity).
  rewrite H, Hc. cbn [fst]. repeat split; congruence.
Qed.


Lemma save_inputs_files_witness :
  outcome (save_inputs example_dir example_objs) example_inputs_fs = Ok tt /\
  effect (save_inputs example_dir example_objs) example_inputs_fs
    !! (example_dir ++ ["inputs"; "1.in"])
  = Some (File (frame (RefCodec.Closure 7 3))).
Proof.
  assert (Hd : example_inputs_fs !! (example_dir </> names.INPUTS_DIR) = Some Dir)
    by reflexivity.
  assert (Ht : forall i, i < length example_objs ->
            example_inputs_fs !! (example_dir </> names.INPUTS_DIR </> input_name (Z.of_nat i))
            <> Some Dir).
  { intros [|[|i]] Hi; [vm_compute; congruence|vm_compute; congruence|cbn in Hi; lia]. }
  pose proof (save_inputs_files example_inputs_fs example_dir example_objs Hd Ht)
    as (Hok & Hat & _).
  split; [exact Hok|]. exact (Hat 1%nat (RefCodec.Closure 7 3) eq_refl).
Defined.

End ObjectCodec.

(** ** JSON texts and what [loads] makes of them *)

Module JsonExamples.
Import PyStr Json.

Definition quoted (s : string) : string := String QUOTE s +:+ String QUOTE "".

Example loads_spaced :
  loads " [ ] " = Ok (List []) /\ loads "{ }" = Ok (Dict []) /\
  loads "[1 ,2]" = Ok (List [Int 1; Int 2]) /\
  loads ("{" +:+ quoted "a" +:+ " : 1 , " +:+ quoted "b" +:+ ":2}")
  = Ok (Dict [("a", Int 1); ("b", Int 2)]) /\
  loads "-0" = Ok (Int 0) /\ loads "true" = Ok (Bool true) /\
  loads "[[[[[[[[]]]]]]]]"
  = Ok (List [List [List [List [List [List [List [List []]]]]]]]).
Proof. repeat split; reflexivity. Qed.

Example loads_malformed :
  Forall (fun text => loads text = Raise JSONDecodeError)
    [""; "["; "[[x"; "[[[["; "[1,]"; "[1 2]"; "01"; "1."; "1e"; "-"; "nul"; "1 2"; "{,}";
     "{1:2}";
     "{" +:+ quoted "a" +:+ "}"; "{" +:+ quoted "a" +:+ ":1,}"; String QUOTE "a";
     quoted "\x"; quoted "\u12"; quoted (String (chr 9) "")].
Proof. repeat constructor. Qed.

Example loads_repeated_key :
  loads ("{" +:+ quoted "a" +:+ ":1," +:+ quoted "a" +:+ ":2," +:+ quoted "b" +:+ ":3}")
  = Ok (Dict [("a", Int 2); ("b", Int 3)]).
Proof. reflexivity. Qed.

Example loads_escapes :
  loads (quoted "\/") = Ok (Str "/") /\
  loads (quoted "\u00e9") = Ok (Str (String (chr 233) "")) /\
  loads (quoted "\u00E9") = Ok (Str (String (chr 233) "")) /\
  loads (quoted (String (chr 127) "")) = Ok (Str (String (chr 127) "")).
Proof. repeat split; reflexivity. Qed.

Example loads_outside_model :
  Forall (fun text => loads text = Raise Unmodelled)
    ["1.5"; "1e5"; "NaN"; "-Infinity"; quoted "\u0100"; quoted "\ud800\udc00"].
Proof. repeat constructor. Qed.

Example dumps_escapes :
  dumps (",", ":")
    (Str (String QUOTE (String BACKSLASH (String LF (String (chr 0) (String (chr 127)
       (String (chr 233) " /")))))))
  = quoted (String BACKSLASH (String QUOTE (String BACKSLASH (String BACKSLASH
      "\n\u0000\u007f\u00e9 /")))).
Proof. reflexivity. Qed.

End JsonExamples.

(** ** Facts about JSON documents *)

Module JsonFacts.
Import PyStr PyStrFacts Json.

(** Induction on values, with the hypothesis for the items of a list and
    of a dict. *)
Section ValueInduction.
Variable P : value -> Prop.
Hypothesis HNull : P Null.
Hypothesis HBool : forall b, P (Bool b).
Hypothesis HInt : forall n, P (Int n).
Hypothesis HStr : forall s, P (Str s).
Hypothesis HList : forall items, Forall P items -> P (List items).
Hypothesis HDict : forall members, Forall (fun member => P (snd member)) members -> P (Dict members).

Fixpoint value_induction (v : value) : P v :=
  match v with
  | Null => HNull
  | Bool b => HBool b
  | Int n => HInt n
  | Str s => HStr s
  | List items =>
      HList items
        ((fix all (l : list value) : Forall P l :=
            match l with
            | [] => @Stdlib.Lists.List.Forall_nil _ _
            | item :: l' =>
                @Stdlib.Lists.List.Forall_cons _ _ item l' (value_induction item) (all l')
            end) items)
  | Dict members =>
      HDict members
        ((fix all (l : list (string * value)) : Forall (fun member => P (snd member)) l :=
            match l with
            | [] => @Stdlib.Lists.List.Forall_nil _ _
            | member :: l' =>
                @Stdlib.Lists.List.Forall_cons _ _ member l'
                  (value_induction (snd member)) (all l')
            end) members)
  end.
End ValueInduction.

(** The text of the items of a list and of the members of a dict. *)
Section Items.
Variables item_separator key_separator : string.

Fixpoint encode_items (l : list value) : string :=
  match l with
  | [] => ""
  | item :: l' =>
      encode item_separator key_separator item +:+
      match l' with
      | [] => ""
      | _ => item_separator +:+ encode_items l'
      end
  end.

Fixpoint encode_members (l : list (string * value)) : string :=
  match l with
  | [] => ""
  | (key, item) :: l' =>
      encode_string key +:+ key_separator +:+ encode item_separator key_separator item +:+
      match l' with
      | [] => ""
      | _ => item_separator +:+ encode_members l'
      end
  end.

Lemma encode_List (items : list value) :
  encode item_separator key_separator (List items) = "[" +:+ encode_items items +:+ "]".
Proof. reflexivity. Qed.

Lemma encode_Dict (members : list (string * value)) :
  encode item_separator key_separator (Dict members) = "{" +:+ encode_members members +:+ "}".
Proof. reflexivity. Qed.

End Items.

(** *** Strings *)

Lemma scanstring_escape_char (c : ascii) (tail : string) :
  scanstring (escape_char c +:+ tail)
  = ('(str, rest) ← scanstring tail; Ok (String c str, rest)).
Proof. by_chars c. Qed.

Lemma scanstring_escape (s rest : string) :
  scanstring (escape s +:+ String QUOTE rest) = Ok (s, rest).
Proof.
  induction s as [|c s IH]; [reflexivity|].
  cbn [escape]. rewrite append_assoc, scanstring_escape_char, IH. reflexivity.
Qed.

Lemma encode_string_app (s rest : string) :
  encode_string s +:+ rest = String QUOTE (escape s +:+ String QUOTE rest).
Proof. unfold encode_string. cbn [append]. rewrite append_assoc. reflexivity. Qed.

(** *** Numbers *)

(** What follows a value in a compact document: the end, a comma, or a
    closing bracket. *)
Definition is_delim (s : string) : bool :=
  match s with
  | "" => true
  | String c _ => Ascii.eqb c "," || Ascii.eqb c "]" || Ascii.eqb c "}"
  end.

Definition number_start (s : string) : bool :=
  match s with
  | String c s' => is_digit c || (Ascii.eqb c "-" && starts_with_digit s')
  | "" => false
  end.

Lemma span_digits_digits (f : nat) : forall (n acc : N) (rest : string),
  span_digits acc (digits f n +:+ rest) = span_digits (shift f n acc) rest.
Proof.
  induction f as [|f IH]; intros n acc rest; [reflexivity|].
  assert (Hd : (n mod 10 < 10)%N) by (apply N.mod_lt; lia).
  cbn [digits shift]. rewrite append_assoc. cbn [append].
  destruct (n <? 10)%N.
  - cbn [append span_digits].
    rewrite (is_digit_digit_chr _ Hd), (digit_val_digit_chr _ Hd). reflexivity.
  - rewrite IH. cbn [span_digits].
    rewrite (is_digit_digit_chr _ Hd), (digit_val_digit_chr _ Hd). reflexivity.
Qed.

Lemma span_digits_delim (acc : N) (rest : string) :
  is_delim rest = true -> span_digits acc rest = (acc, rest).
Proof. destruct rest as [|c rest]; [reflexivity|]. cbn [is_delim]. by_chars c. Qed.

Lemma float_follows_delim (rest : string) : is_delim rest = true -> float_follows rest = false.
Proof. destruct rest as [|c rest]; [reflexivity|]. cbn [is_delim]. by_chars c. Qed.

Lemma span_digits_str_of_N (n : N) (rest : string) :
  is_delim rest = true -> span_digits 0 (str_of_N n +:+ rest) = (n, rest).
Proof.
  intros H. unfold str_of_N.
  rewrite span_digits_digits, shift_exact by apply log2_fuel. apply span_digits_delim, H.
Qed.

Lemma digit_chr_nonzero (d : N) :
  (0 < d < 10)%N -> Ascii.eqb (digit_chr d) "0" = false.
Proof.
  intros H. destruct (digit_chr_cases d) as [->|[->|[->|[->|[->|[->|[->|[->|[->| ->]]]]]]]]];
    try reflexivity; lia.
Qed.

Lemma digits_head_nonzero (f : nat) : forall n : N,
  (0 < n < 2 ^ N.of_nat f)%N ->
  exists c s, digits f n = String c s /\ is_digit c = true /\ Ascii.eqb c "0" = false.
Proof.
  induction f as [|f IH]; intros n Hn; [simpl in Hn; lia|].
  cbn [digits]. destruct (N.ltb_spec n 10) as [Hlt|Hge].
  - exists (digit_chr (n mod 10)), "". rewrite N.mod_small by lia.
    split; [reflexivity|]. split; [apply is_digit_digit_chr; lia|apply digit_chr_nonzero; lia].
  - destruct (IH (n / 10)%N) as (c & s & E & Hc & Hz).
    + rewrite Nat2N.inj_succ, N.pow_succ_r' in Hn. split.
      * apply N.div_str_pos. lia.
      * apply N.Div0.div_lt_upper_bound. lia.
    + rewrite E. exists c, (s +:+ String (digit_chr (n mod 10)) ""). auto.
Qed.

Lemma str_of_N_pos_head (p : positive) :
  exists c s, str_of_N (N.pos p) = String c s /\ is_digit c = true /\ Ascii.eqb c "0" = false.
Proof. apply digits_head_nonzero. split; [lia|apply log2_fuel]. Qed.

Lemma match_number_str_of_N (n : N) (rest : string) :
  is_delim rest = true ->
  match_number (str_of_N n +:+ rest) = Some (Ok (Int (Z.of_N n), rest)).
Proof.
  intros H. destruct n as [|p].
  - change (str_of_N 0) with "0". cbn [append]. unfold match_number.
    cbn. rewrite (float_follows_delim _ H). reflexivity.
  - pose proof (span_digits_str_of_N (N.pos p) rest H) as Hs.
    destruct (str_of_N_pos_head p) as (c & s & E & Hc & Hz). rewrite E in *.
    cbn [append] in *. unfold match_number.
    destruct (digit_not_sign c Hc) as [-> _]. rewrite Hc, Hz, Hs, (float_follows_delim _ H).
    reflexivity.
Qed.

Lemma match_number_str (z : Z) (rest : string) :
  is_delim rest = true -> match_number (str z +:+ rest) = Some (Ok (Int z, rest)).
Proof.
  intros H. destruct z as [|p|p].
  - apply (match_number_str_of_N 0 rest H).
  - apply (match_number_str_of_N (N.pos p) rest H).
  - pose proof (match_number_str_of_N (N.pos p) rest H) as Hm.
    pose proof (span_digits_str_of_N (N.pos p) rest H) as Hs.
    destruct (str_of_N_pos_head p) as (c & s & E & Hc & Hz).
    unfold str. rewrite E in *. cbn [append] in *. unfold match_number.
    change (Ascii.eqb "-" "-") with true. cbv beta iota zeta.
    rewrite Hc, Hz, Hs, (float_follows_delim _ H). reflexivity.
Qed.

Lemma number_start_str (z : Z) (rest : string) : number_start (str z +:+ rest) = true.
Proof.
  destruct z as [|p|p].
  - reflexivity.
  - destruct (str_of_N_pos_head p) as (c & s & E & Hc & _).
    change (str (Z.pos p)) with (str_of_N (N.pos p)). rewrite E. cbn. rewrite Hc. reflexivity.
  - destruct (str_of_N_pos_head p) as (c & s & E & Hc & _).
    unfold str. rewrite E. cbn. rewrite Hc. reflexivity.
Qed.

Lemma scan_once_number (fuel : nat) (s : string) :
  number_start s = true ->
  scan_once (S fuel) s
  = match match_number s with
    | Some r => r
    | None => Raise JSONDecodeError
    end.
Proof.
  destruct s as [|c s]; [discriminate|]. cbn [number_start].
  destruct (is_digit c) eqn:Ed.
  - intros _. revert Ed. by_chars c.
  - cbn [orb]. intros [Hm Hs]%andb_true_iff. apply Ascii.eqb_eq in Hm as ->.
    destruct s as [|c' s]; [discriminate|]. cbn [starts_with_digit] in Hs.
    revert Hs. by_chars c'.
Qed.

Lemma scan_once_Int (fuel : nat) (z : Z) (rest : string) :
  is_delim rest = true -> scan_once (S fuel) (str z +:+ rest) = Ok (Int z, rest).
Proof.
  intros H. rewrite scan_once_number by apply number_start_str.
  rewrite (match_number_str z rest H). reflexivity.
Qed.

(** *** Values *)

(** The compact encoding [save_itemdata] asks for. *)
Definition enc : value -> string := encode "," ":".
Definition enc_items : list value -> string := encode_items "," ":".
Definition enc_members : list (string * value) -> string := encode_members "," ":".

(** Fuel that [scan_once] needs for the encoding of a value. *)
Fixpoint need (v : value) : nat :=
  match v with
  | List items =>
      S ((fix need_items (l : list value) : nat :=
            match l with
            | [] => 0
            | item :: l' => S (need item + need_items l')
            end) items)
  | Dict members =>
      S ((fix need_members (l : list (string * value)) : nat :=
            match l with
            | [] => 0
            | member :: l' => S (need (snd member) + need_members l')
            end) members)
  | _ => 1
  end.

Fixpoint need_items (l : list value) : nat :=
  match l with
  | [] => 0
  | item :: l' => S (need item + need_items l')
  end.

Fixpoint need_members (l : list (string * value)) : nat :=
  match l with
  | [] => 0
  | member :: l' => S (need (snd member) + need_members l')
  end.

Lemma need_List (items : list value) : need (List items) = S (need_items items).
Proof. reflexivity. Qed.

Lemma need_Dict (members : list (string * value)) :
  need (Dict members) = S (need_members members).
Proof. reflexivity. Qed.

Lemma str_head (z : Z) : exists c s, str z = String c s /\ is_num_char c = true.
Proof.
  pose proof (str_all_num z) as H. pose proof (number_start_str z "") as Hn.
  rewrite append_nil_r in Hn.
  destruct (str z) as [|c s]; [discriminate|].
  cbn [sall] in H. apply andb_true_iff in H as [Hc _]. eauto.
Qed.

Definition starts_value (c : ascii) : bool :=
  negb (is_ws c) && negb (Ascii.eqb c "]") && negb (Ascii.eqb c "}").

Lemma num_char_starts_value c : is_num_char c = true -> starts_value c = true.
Proof. by_chars c. Qed.

Lemma encode_head (item_separator key_separator : string) (v : value) :
  exists c s, encode item_separator key_separator v = String c s /\ starts_value c = true.
Proof.
  destruct v as [|[]|n|s|items|members]; cbn [encode]; try (eexists _, _; split; reflexivity).
  destruct (str_head n) as (c & s & E & Hc). rewrite E.
  exists c, s. split; [reflexivity|apply num_char_starts_value, Hc].
Qed.

Lemma skip_ws_head (c : ascii) (s : string) :
  starts_value c = true -> skip_ws (String c s) = String c s.
Proof.
  unfold starts_value. intros H. cbn [skip_ws].
  destruct (is_ws c); [discriminate|reflexivity].
Qed.

Lemma starts_value_not_close c : starts_value c = true -> Ascii.eqb c "]" = false.
Proof. by_chars c. Qed.

(** *** Dicts *)

Lemma dict_set_fresh (d : dict) (key : string) (item : value) :
  existsb (String.eqb key) (map fst d) = false ->
  dict_set d key item = d ++ [(key, item)].
Proof.
  induction d as [|[key' item'] d IH]; [reflexivity|].
  cbn [map fst existsb dict_set]. intros [Hk Hd]%orb_false_iff.
  rewrite String.eqb_sym, Hk, (IH Hd). reflexivity.
Qed.

Lemma existsb_app_false (key : string) (a b : list string) :
  existsb (String.eqb key) (a ++ b) = false <->
  existsb (String.eqb key) a = false /\ existsb (String.eqb key) b = false.
Proof. rewrite existsb_app. apply orb_false_iff. Qed.

Lemma dict_of_pairs_from (members : list (string * value)) : forall d : dict,
  distinct (map fst members) = true ->
  (forall key, In key (map fst members) -> existsb (String.eqb key) (map fst d) = false) ->
  fold_left (fun d '(key, item) => dict_set d key item) members d = d ++ members.
Proof.
  induction members as [|[key item] members IH]; intros d Hu Hd.
  - cbn. rewrite app_nil_r. reflexivity.
  - cbn [map fst distinct] in Hu. apply andb_true_iff in Hu as [Hk Hu].
    apply negb_true_iff in Hk.
    cbn [fold_left]. rewrite dict_set_fresh by (apply Hd; left; reflexivity).
    rewrite IH; [rewrite <- app_assoc; reflexivity|exact Hu|].
    intros key' Hin. rewrite map_app. apply existsb_app_false. split.
    + apply Hd. right. exact Hin.
    + cbn. rewrite orb_false_r. apply String.eqb_neq. intros ->.
      assert (Hex : existsb (String.eqb key) (map fst members) = true).
      { apply existsb_exists. exists key. split; [exact Hin|apply String.eqb_refl]. }
      congruence.
Qed.

Lemma dict_of_pairs_distinct (members : list (string * value)) :
  distinct (map fst members) = true -> dict_of_pairs members = members.
Proof.
  intros H. unfold dict_of_pairs. rewrite dict_of_pairs_from; [reflexivity|exact H|].
  reflexivity.
Qed.

(** *** Decoding what was encoded *)

Definition roundtrips (v : value) : Prop :=
  keys_unique v = true ->
  forall (fuel : nat) (rest : string),
    need v <= fuel -> is_delim rest = true ->
    scan_once fuel (enc v +:+ rest) = Ok (v, rest).

Lemma enc_items_head (item : value) (l : list value) (rest : string) :
  exists c s, enc_items (item :: l) +:+ rest = String c s /\ starts_value c = true.
Proof.
  destruct (encode_head "," ":" item) as (c & s & E & Hc).
  unfold enc_items. cbn [encode_items]. rewrite E. cbn [append]. eauto.
Qed.

Lemma scan_items_encode (items : list value) :
  items <> [] ->
  Forall roundtrips items ->
  forallb keys_unique items = true ->
  forall (fuel : nat) (rest : string),
    need_items items <= fuel ->
    scan_items fuel (enc_items items +:+ String "]" rest) = Ok (items, rest).
Proof.
  induction items as [|item l IH]; [congruence|].
  intros _ Hall Hu fuel rest Hf.
  apply Forall_cons in Hall as [Hitem Hall].
  cbn [forallb] in Hu. apply andb_true_iff in Hu as [Hu Hul].
  cbn [need_items] in Hf. destruct fuel as [|fuel]; [lia|].
  unfold enc_items in *. cbn [scan_items encode_items]. change (encode "," ":") with enc.
  destruct l as [|x l].
  - rewrite append_nil_r.
    rewrite (Hitem Hu fuel (String "]" rest)) by (reflexivity || lia).
    reflexivity.
  - rewrite !append_assoc. cbn [append].
    rewrite (Hitem Hu fuel) by (reflexivity || lia).
    cbn [mbind result_bind skip_ws]. change (is_ws ",") with false. cbv iota.
    change (Ascii.eqb "," "]") with false. change (Ascii.eqb "," ",") with true. cbv iota.
    destruct (enc_items_head x l (String "]" rest)) as (c & s & E & Hc).
    unfold enc_items in E. rewrite E, (skip_ws_head c s Hc), <- E.
    rewrite IH; [reflexivity|congruence|exact Hall|exact Hul|lia].
Qed.

Lemma skip_ws_enc (v : value) (rest : string) : skip_ws (enc v +:+ rest) = enc v +:+ rest.
Proof.
  destruct (encode_head "," ":" v) as (c & s & E & Hc). unfold enc. rewrite E.
  apply (skip_ws_head c _ Hc).
Qed.

Lemma skip_ws_enc_members (member : string * value) (l : dict) (rest : string) :
  skip_ws (enc_members (member :: l) +:+ rest) = enc_members (member :: l) +:+ rest.
Proof.
  destruct member as [key item]. unfold enc_members. cbn [encode_members].
  rewrite !append_assoc, encode_string_app. reflexivity.
Qed.

Lemma scan_members_encode (members : list (string * value)) :
  members <> [] ->
  Forall (fun member => roundtrips (snd member)) members ->
  forallb (fun member => keys_unique (snd member)) members = true ->
  forall (fuel : nat) (rest : string),
    need_members members <= fuel ->
    scan_members fuel (enc_members members +:+ String "}" rest) = Ok (members, rest).
Proof.
  induction members as [|[key item] l IH]; [congruence|].
  intros _ Hall Hu fuel rest Hf.
  apply Forall_cons in Hall as [Hitem Hall]. cbn [snd] in Hitem.
  cbn [forallb snd] in Hu. apply andb_true_iff in Hu as [Hu Hul].
  cbn [need_members snd] in Hf. destruct fuel as [|fuel]; [lia|].
  unfold enc_members at 1. cbn [encode_members]. change (encode "," ":") with enc.
  change (encode_members "," ":") with enc_members.
  rewrite !append_assoc, encode_string_app. cbn [scan_members].
  change (Ascii.eqb QUOTE QUOTE) with true. cbv iota.
  rewrite scanstring_escape. cbn [mbind result_bind append skip_ws].
  change (is_ws ":") with false. cbv iota. change (Ascii.eqb ":" ":") with true. cbv iota.
  rewrite skip_ws_enc.
  destruct l as [|x l].
  - cbn [append]. rewrite (Hitem Hu fuel (String "}" rest)) by (reflexivity || lia).
    reflexivity.
  - cbn [append]. rewrite (Hitem Hu fuel) by (reflexivity || lia).
    cbn [mbind result_bind skip_ws]. change (is_ws ",") with false. cbv iota.
    change (Ascii.eqb "," "}") with false. change (Ascii.eqb "," ",") with true. cbv iota.
    rewrite skip_ws_enc_members, IH; [reflexivity|congruence|exact Hall|exact Hul|lia].
Qed.

Lemma need_pos (v : value) : 1 <= need v.
Proof. destruct v; cbn; lia. Qed.

Lemma scan_once_encode (v : value) : roundtrips v.
Proof.
  induction v as [|b|n|s|items IH|members IH] using value_induction;
    intros Hu fuel rest Hf Hd; (destruct fuel as [|fuel]; [pose proof (need_pos Null); cbn in Hf; lia|]).
  - reflexivity.
  - destruct b; reflexivity.
  - apply scan_once_Int, Hd.
  - unfold enc. cbn [encode]. rewrite encode_string_app. cbn [scan_once].
    change (Ascii.eqb QUOTE QUOTE) with true. cbv iota. rewrite scanstring_escape. reflexivity.
  - unfold enc. rewrite encode_List, need_List in *. rewrite !append_assoc. cbn [append scan_once].
    change (Ascii.eqb "[" QUOTE) with false. change (Ascii.eqb "[" "{") with false.
    change (Ascii.eqb "[" "[") with true. cbv iota.
    destruct items as [|x l]; [reflexivity|].
    pose proof (scan_items_encode (x :: l) ltac:(congruence) IH Hu fuel rest ltac:(lia)) as Hl.
    destruct (enc_items_head x l (String "]" rest)) as (c & s & E & Hc).
    change (encode_items "," ":") with enc_items. rewrite E, (skip_ws_head c s Hc).
    rewrite (starts_value_not_close c Hc), <- E, Hl. reflexivity.
  - unfold enc. rewrite encode_Dict, need_Dict in *. rewrite !append_assoc. cbn [append scan_once].
    change (Ascii.eqb "{" QUOTE) with false. change (Ascii.eqb "{" "{") with true. cbv iota.
    destruct members as [|[key item] l]; [reflexivity|].
    cbn [keys_unique] in Hu. apply andb_true_iff in Hu as [Hk Hu].
    pose proof (scan_members_encode ((key, item) :: l) ltac:(congruence) IH Hu fuel rest ltac:(lia))
      as Hl.
    change (encode_members "," ":") with enc_members.
    rewrite skip_ws_enc_members.
    unfold enc_members in *. cbn [encode_members] in *.
    rewrite !append_assoc, encode_string_app in *.
    change (Ascii.eqb QUOTE "}") with false. cbv iota. rewrite Hl. cbn [mbind result_bind].
    rewrite (dict_of_pairs_distinct _ Hk). reflexivity.
Qed.

(** *** The fuel of [loads] is enough *)

Lemma need_items_bound (items : list value) :
  Forall (fun v => need v <= String.length (enc v)) items ->
  need_items items <= String.length (enc_items items) + 1.
Proof.
  induction 1 as [|item l Hitem _ IH]; [cbn; lia|].
  unfold enc_items in *. cbn [need_items encode_items]. change (encode "," ":") with enc.
  rewrite length_append. destruct l as [|x l].
  - cbn. lia.
  - rewrite length_append. cbn [String.length]. lia.
Qed.

Lemma need_members_bound (members : list (string * value)) :
  Forall (fun member => need (snd member) <= String.length (enc (snd member))) members ->
  need_members members <= String.length (enc_members members) + 1.
Proof.
  induction 1 as [|[key item] l Hitem _ IH]; [cbn; lia|].
  unfold enc_members in *. cbn [need_members encode_members snd] in *.
  change (encode "," ":") with enc. rewrite !length_append. destruct l as [|x l].
  - cbn. lia.
  - rewrite length_append. cbn [String.length]. lia.
Qed.

Lemma need_bound (v : value) : need v <= String.length (enc v).
Proof.
  induction v as [|b|n|s|items IH|members IH] using value_induction.
  - cbn. lia.
  - destruct b; cbn; lia.
  - destruct (str_head n) as (c & s & E & _). unfold enc. cbn [need encode].
    rewrite E. cbn. lia.
  - cbn. lia.
  - pose proof (need_items_bound items IH). unfold enc, enc_items in *.
    rewrite need_List, encode_List, !length_append. cbn [String.length]. lia.
  - pose proof (need_members_bound members IH). unfold enc, enc_members in *.
    rewrite need_Dict, encode_Dict, !length_append. cbn [String.length]. lia.
Qed.

Lemma loads_dumps (v : value) : keys_unique v = true -> loads (dumps (",", ":") v) = Ok v.
Proof.
  intros Hu. unfold loads, dumps. cbn [fst snd]. change (encode "," ":") with enc.
  pose proof (skip_ws_enc v "") as Hs. rewrite append_nil_r in Hs. rewrite Hs.
  pose proof (scan_once_encode v Hu (2 * String.length (enc v) + 2) "") as Hr.
  rewrite append_nil_r in Hr. rewrite Hr; [reflexivity| |reflexivity].
  pose proof (need_bound v). lia.
Qed.

(** *** The characters of a document *)

Definition is_printable (c : ascii) : bool := in_range 32 126 c.

Lemma escape_char_printable (c : ascii) : sall is_printable (escape_char c) = true.
Proof. by_chars c. Qed.

Lemma escape_printable (s : string) : sall is_printable (escape s) = true.
Proof.
  induction s as [|c s IH]; [reflexivity|].
  cbn [escape]. rewrite sall_app, escape_char_printable, IH. reflexivity.
Qed.

Lemma encode_string_printable (s : string) : sall is_printable (encode_string s) = true.
Proof.
  unfold encode_string. cbn [sall]. rewrite sall_app, escape_printable. reflexivity.
Qed.

Lemma num_char_printable c : is_num_char c = true -> is_printable c = true.
Proof. by_chars c. Qed.

Lemma enc_items_printable (items : list value) :
  Forall (fun v => sall is_printable (enc v) = true) items ->
  sall is_printable (enc_items items) = true.
Proof.
  induction 1 as [|item l Hitem _ IH]; [reflexivity|].
  unfold enc_items in *. cbn [encode_items]. change (encode "," ":") with enc.
  rewrite sall_app, Hitem. destruct l; [reflexivity|]. rewrite sall_app, IH. reflexivity.
Qed.

Lemma enc_members_printable (members : list (string * value)) :
  Forall (fun member => sall is_printable (enc (snd member)) = true) members ->
  sall is_printable (enc_members members) = true.
Proof.
  induction 1 as [|[key item] l Hitem _ IH]; [reflexivity|].
  unfold enc_members in *. cbn [encode_members snd] in *. change (encode "," ":") with enc.
  rewrite !sall_app, Hitem, encode_string_printable.
  destruct l; [reflexivity|]. rewrite sall_app, IH. reflexivity.
Qed.

Lemma enc_printable (v : value) : sall is_printable (enc v) = true.
Proof.
  induction v as [|b|n|s|items IH|members IH] using value_induction.
  - reflexivity.
  - destruct b; reflexivity.
  - apply (sall_impl is_num_char); [apply num_char_printable|apply str_all_num].
  - apply encode_string_printable.
  - unfold enc. rewrite encode_List, !sall_app.
    change (encode_items "," ":") with enc_items. rewrite (enc_items_printable items IH).
    reflexivity.
  - unfold enc. rewrite encode_Dict, !sall_app.
    change (encode_members "," ":") with enc_members.
    rewrite (enc_members_printable members IH). reflexivity.
Qed.

Lemma printable_not_CR c : is_printable c = true -> OsFacts.not_CR c = true.
Proof. by_chars c. Qed.

Lemma universal_newlines_enc (v : value) : Os.universal_newlines (enc v) = enc v.
Proof.
  apply OsFacts.universal_newlines_id, (sall_impl is_printable);
    [apply printable_not_CR|apply enc_printable].
Qed.

(** *** Compactness *)


Fixpoint spaces_in_items (l : list value) : nat :=
  match l with
  | [] => 0
  | item :: l' => spaces_in item + spaces_in_items l'
  end.

Fixpoint spaces_in_members (l : list (string * value)) : nat :=
  match l with
  | [] => 0
  | member :: l' => spaces (fst member) + spaces_in (snd member) + spaces_in_members l'
  end.










Section Shortest.
Variables item_separator key_separator : string.
Hypothesis item_separator_length : 1 <= String.length item_separator.
Hypothesis key_separator_length : 1 <= String.length key_separator.

Let other : value -> string := encode item_separator key_separator.




End Shortest.

End JsonFacts.

(** ** The structured document store: [save_itemdata], [load_itemdata] *)

Module DocumentStore.
Import PyStr PyStrFacts Os OsFacts Json JsonFacts htio Examples.

Lemma save_itemdata_run (fs : filesystem) (map_dir : path) (itemdata : list dict) :
  can_write fs (_itemdata_path map_dir) ->
  save_itemdata map_dir itemdata fs
  = (Ok tt, <[_itemdata_path map_dir := File (dumps (",", ":") (List (map Dict itemdata)))]> fs).
Proof. intros H. unfold save_itemdata. apply write_text_run, H. Qed.

Lemma load_itemdata_file (fs : filesystem) (map_dir : path) (text : string) :
  fs !! _itemdata_path map_dir = Some (File text) ->
  load_itemdata map_dir fs = (loads (Os.universal_newlines text), fs).
Proof.
  intros H. unfold load_itemdata, mbind, M_bind. rewrite (read_text_file fs _ text H).
  reflexivity.
Qed.





Example example_itemdata_text :
  dumps (",", ":") (List (map Dict example_itemdata))
  = "[{" +:+ encode_string "component" +:+ ":" +:+ encode_string "0" +:+ ","
    +:+ encode_string "arguments" +:+ ":[1,null," +:+ encode_string "a b" +:+ "]},{}]"
  /\ dumps (",", ":") (List []) = "[]"
  /\ dumps (",", ":") (List [Dict []]) = "[{}]".
Proof. repeat split; reflexivity. Qed.

End DocumentStore.

(** ** Facts about indented JSON documents *)

Module JsonIndentFacts.
Import PyStr PyStrFacts Json JsonFacts JsonIndent.

(** *** White space *)

Lemma skip_ws_app (a s : string) : sall is_ws a = true -> skip_ws (a +:+ s) = skip_ws s.
Proof.
  induction a as [|c a IH]; [reflexivity|].
  cbn [sall append skip_ws]. intros [Hc Ha]%andb_true_iff. rewrite Hc. exact (IH Ha).
Qed.

Lemma blanks_ws (n : nat) : sall is_ws (blanks n) = true.
Proof. induction n as [|n IH]; [reflexivity|]. cbn [blanks sall]. rewrite IH. reflexivity. Qed.

Lemma repeat_string_ws (s : string) (n : nat) :
  sall is_ws s = true -> sall is_ws (repeat_string s n) = true.
Proof.
  intros Hs. induction n as [|n IH]; [reflexivity|].
  cbn [repeat_string]. rewrite sall_app, Hs, IH. reflexivity.
Qed.

Lemma newline_indent_ws (width level : nat) :
  sall is_ws (newline_indent (blanks width) level) = true.
Proof.
  unfold newline_indent. cbn [sall]. rewrite repeat_string_ws by apply blanks_ws. reflexivity.
Qed.

(** What follows a value in a document: the end, white space, a comma or
    a closing bracket. *)
Definition ends_value (s : string) : bool :=
  match s with
  | "" => true
  | String c _ => is_ws c || Ascii.eqb c "," || Ascii.eqb c "]" || Ascii.eqb c "}"
  end.

Lemma ends_value_ws (a : string) (c : ascii) (s : string) :
  sall is_ws a = true -> ends_value (String c s) = true -> ends_value (a +:+ String c s) = true.
Proof.
  destruct a as [|c' a]; [intros _ H; exact H|].
  cbn [sall append ends_value]. intros [Hc _]%andb_true_iff _. rewrite Hc. reflexivity.
Qed.

Definition head_value (s : string) : Prop :=
  exists c s', s = String c s' /\ starts_value c = true.

Lemma skip_ws_before (a s : string) :
  sall is_ws a = true -> head_value s -> skip_ws (a +:+ s) = s.
Proof.
  intros Ha (c & s' & -> & Hc). rewrite (skip_ws_app a _ Ha). apply skip_ws_head, Hc.
Qed.

(** *** Numbers before white space *)

Lemma span_digits_end (acc : N) (rest : string) :
  ends_value rest = true -> span_digits acc rest = (acc, rest).
Proof. destruct rest as [|c rest]; [reflexivity|]. cbn [ends_value]. by_chars c. Qed.

Lemma float_follows_end (rest : string) : ends_value rest = true -> float_follows rest = false.
Proof. destruct rest as [|c rest]; [reflexivity|]. cbn [ends_value]. by_chars c. Qed.

Lemma match_number_end_N (n : N) (rest : string) :
  ends_value rest = true ->
  match_number (str_of_N n +:+ rest) = Some (Ok (Int (Z.of_N n), rest)).
Proof.
  intros H.
  assert (Hs : span_digits 0 (str_of_N n +:+ rest) = (n, rest)).
  { unfold str_of_N. rewrite span_digits_digits, shift_exact by apply log2_fuel.
    apply span_digits_end, H. }
  destruct n as [|p].
  - change (str_of_N 0) with "0". cbn. rewrite (float_follows_end _ H). reflexivity.
  - destruct (str_of_N_pos_head p) as (c & s & E & Hc & Hz). rewrite E in *.
    cbn [append] in *. unfold match_number.
    destruct (digit_not_sign c Hc) as [-> _]. rewrite Hc, Hz, Hs, (float_follows_end _ H).
    reflexivity.
Qed.

Lemma match_number_end (z : Z) (rest : string) :
  ends_value rest = true -> match_number (str z +:+ rest) = Some (Ok (Int z, rest)).
Proof.
  intros H. destruct z as [|p|p].
  - apply (match_number_end_N 0 rest H).
  - apply (match_number_end_N (N.pos p) rest H).
  - assert (Hs : span_digits 0 (str_of_N (N.pos p) +:+ rest) = (N.pos p, rest)).
    { unfold str_of_N. rewrite span_digits_digits, shift_exact by apply log2_fuel.
      apply span_digits_end, H. }
    destruct (str_of_N_pos_head p) as (c & s & E & Hc & Hz).
    unfold str. rewrite E in *. cbn [append] in *. unfold match_number.
    change (Ascii.eqb "-" "-") with true. cbv beta iota zeta.
    rewrite Hc, Hz, Hs, (float_follows_end _ H). reflexivity.
Qed.

Lemma scan_once_Int_end (fuel : nat) (z : Z) (rest : string) :
  ends_value rest = true -> scan_once (S fuel) (str z +:+ rest) = Ok (Int z, rest).
Proof.
  intros H. rewrite scan_once_number by apply number_start_str.
  rewrite (match_number_end z rest H). reflexivity.
Qed.

(** *** The encoding of [save_submit], at any indent *)

Section Pretty.
Variable width : nat.

Definition pretty : nat -> value -> string := encode (blanks width) ", " ": ".
Definition nl (level : nat) : string := newline_indent (blanks width) level.

Definition pretty_items (level : nat) : list value -> string :=
  fix pretty_items (l : list value) : string :=
    match l with
    | [] => ""
    | item :: l' =>
        pretty level item +:+
        match l' with
        | [] => ""
        | _ => ", " +:+ nl level +:+ pretty_items l'
        end
    end.

Definition pretty_members (level : nat) : list (string * value) -> string :=
  fix pretty_members (l : list (string * value)) : string :=
    match l with
    | [] => ""
    | (key, item) :: l' =>
        encode_string key +:+ ": " +:+ pretty level item +:+
        match l' with
        | [] => ""
        | _ => ", " +:+ nl level +:+ pretty_members l'
        end
    end.

Lemma pretty_items_last (level : nat) (item : value) :
  pretty_items level [item] = pretty level item +:+ "".
Proof. reflexivity. Qed.

Lemma pretty_items_more (level : nat) (item x : value) (l : list value) :
  pretty_items level (item :: x :: l)
  = pretty level item +:+ ", " +:+ nl level +:+ pretty_items level (x :: l).
Proof. reflexivity. Qed.

Lemma pretty_members_last (level : nat) (key : string) (item : value) :
  pretty_members level [(key, item)] = encode_string key +:+ ": " +:+ pretty level item +:+ "".
Proof. reflexivity. Qed.

Lemma pretty_members_more (level : nat) (key : string) (item : value) (x : string * value)
    (l : list (string * value)) :
  pretty_members level ((key, item) :: x :: l)
  = encode_string key +:+ ": " +:+ pretty level item +:+ ", " +:+ nl level
    +:+ pretty_members level (x :: l).
Proof. reflexivity. Qed.

Lemma pretty_List (level : nat) (item : value) (l : list value) :
  pretty level (List (item :: l))
  = "[" +:+ nl (S level) +:+ pretty_items (S level) (item :: l) +:+ nl level +:+ "]".
Proof. reflexivity. Qed.

Lemma pretty_Dict (level : nat) (member : string * value) (l : list (string * value)) :
  pretty level (Dict (member :: l))
  = "{" +:+ nl (S level) +:+ pretty_members (S level) (member :: l) +:+ nl level +:+ "}".
Proof. reflexivity. Qed.

Lemma nl_ws (level : nat) : sall is_ws (nl level) = true.
Proof. apply newline_indent_ws. Qed.

Lemma pretty_head (level : nat) (v : value) (rest : string) : head_value (pretty level v +:+ rest).
Proof.
  unfold head_value, pretty.
  destruct v as [|[]|n|s|[|item l]|[|member l]]; cbn [encode];
    try (eexists _, _; split; reflexivity).
  destruct (str_head n) as (c & s & E & Hc). rewrite E.
  exists c, (s +:+ rest). split; [reflexivity|apply num_char_starts_value, Hc].
Qed.

Lemma pretty_items_head (level : nat) (item : value) (l : list value) (rest : string) :
  head_value (pretty_items level (item :: l) +:+ rest).
Proof.
  destruct l as [|x l]; [rewrite pretty_items_last|rewrite pretty_items_more];
    rewrite append_assoc; apply pretty_head.
Qed.

Lemma pretty_members_head (level : nat) (member : string * value) (l : list (string * value))
    (rest : string) :
  head_value (pretty_members level (member :: l) +:+ rest).
Proof.
  destruct member as [key item].
  destruct l as [|x l]; [rewrite pretty_members_last|rewrite pretty_members_more];
    rewrite !append_assoc, encode_string_app; eexists _, _; split; reflexivity.
Qed.

Definition roundtrips_pretty (v : value) : Prop :=
  keys_unique v = true ->
  forall (fuel level : nat) (rest : string),
    need v <= fuel -> ends_value rest = true ->
    scan_once fuel (pretty level v +:+ rest) = Ok (v, rest).

Lemma scan_items_pretty (items : list value) :
  items <> [] ->
  Forall roundtrips_pretty items ->
  forallb keys_unique items = true ->
  forall (fuel level : nat) (ws rest : string),
    need_items items <= fuel -> sall is_ws ws = true ->
    scan_items fuel (pretty_items level items +:+ ws +:+ String "]" rest) = Ok (items, rest).
Proof.
  induction items as [|item l IH]; [congruence|].
  intros _ Hall Hu fuel level ws rest Hf Hws.
  apply Forall_cons in Hall as [Hitem Hall].
  cbn [forallb] in Hu. apply andb_true_iff in Hu as [Hu Hul].
  cbn [need_items] in Hf. destruct fuel as [|fuel]; [lia|].
  cbn [scan_items]. destruct l as [|x l].
  - rewrite pretty_items_last, append_nil_r.
    rewrite (Hitem Hu fuel level (ws +:+ String "]" rest))
      by (lia || (apply ends_value_ws; [exact Hws|reflexivity])).
    cbn [mbind result_bind]. rewrite (skip_ws_app ws _ Hws). reflexivity.
  - rewrite pretty_items_more, !append_assoc. cbn [append].
    rewrite (Hitem Hu fuel level) by (reflexivity || lia).
    cbn [mbind result_bind skip_ws]. change (is_ws ",") with false. cbv iota.
    change (Ascii.eqb "," "]") with false. change (Ascii.eqb "," ",") with true. cbv iota.
    cbn [skip_ws]. change (is_ws " ") with true. cbv iota.
    rewrite (skip_ws_before (nl level)) by (apply nl_ws || apply pretty_items_head).
    rewrite IH; [reflexivity|congruence|exact Hall|exact Hul|lia|exact Hws].
Qed.

Lemma scan_members_pretty (members : list (string * value)) :
  members <> [] ->
  Forall (fun member => roundtrips_pretty (snd member)) members ->
  forallb (fun member => keys_unique (snd member)) members = true ->
  forall (fuel level : nat) (ws rest : string),
    need_members members <= fuel -> sall is_ws ws = true ->
    scan_members fuel (pretty_members level members +:+ ws +:+ String "}" rest)
    = Ok (members, rest).
Proof.
  induction members as [|[key item] l IH]; [congruence|].
  intros _ Hall Hu fuel level ws rest Hf Hws.
  apply Forall_cons in Hall as [Hitem Hall]. cbn [snd] in Hitem.
  cbn [forallb snd] in Hu. apply andb_true_iff in Hu as [Hu Hul].
  cbn [need_members snd] in Hf. destruct fuel as [|fuel]; [lia|].
  assert (Hkey : forall tail,
            scan_members (S fuel) (encode_string key +:+ ": " +:+ pretty level item +:+ tail)
            = ('(item', s3) ← scan_once fuel (pretty level item +:+ tail);
               match skip_ws s3 with
               | "" => Raise JSONDecodeError
               | String c' s4 =>
                   if Ascii.eqb c' "}" then Ok ([(key, item')], s4)
                   else if Ascii.eqb c' "," then
                     '(pairs, rest') ← scan_members fuel (skip_ws s4);
                     Ok ((key, item') :: pairs, rest')
                   else Raise JSONDecodeError
               end)).
  { intros tail. rewrite encode_string_app. cbn [scan_members].
    change (Ascii.eqb QUOTE QUOTE) with true. cbv iota.
    rewrite scanstring_escape. cbn [mbind result_bind append skip_ws].
    change (is_ws ":") with false. cbv iota. change (Ascii.eqb ":" ":") with true. cbv iota.
    cbn [skip_ws]. change (is_ws " ") with true. cbv iota.
    destruct (pretty_head level item tail) as (c & s & E & Hc).
    rewrite E, (skip_ws_head c s Hc). reflexivity. }
  destruct l as [|x l].
  - rewrite pretty_members_last, !append_assoc, Hkey. cbn [append].
    rewrite (Hitem Hu fuel level (ws +:+ String "}" rest))
      by (lia || (apply ends_value_ws; [exact Hws|reflexivity])).
    cbn [mbind result_bind]. rewrite (skip_ws_app ws _ Hws). reflexivity.
  - rewrite pretty_members_more, !append_assoc, Hkey. cbn [append].
    rewrite (Hitem Hu fuel level) by (reflexivity || lia).
    cbn [mbind result_bind skip_ws]. change (is_ws ",") with false. cbv iota.
    change (Ascii.eqb "," "}") with false. change (Ascii.eqb "," ",") with true. cbv iota.
    cbn [skip_ws]. change (is_ws " ") with true. cbv iota.
    rewrite (skip_ws_before (nl level)) by (apply nl_ws || apply pretty_members_head).
    rewrite IH; [reflexivity|congruence|exact Hall|exact Hul|lia|exact Hws].
Qed.

Lemma scan_once_pretty (v : value) : roundtrips_pretty v.
Proof.
  induction v as [|b|n|s|items IH|members IH] using value_induction;
    intros Hu fuel level rest Hf Hd;
    (destruct fuel as [|fuel]; [pose proof (need_pos Null); cbn in Hf; lia|]).
  - reflexivity.
  - destruct b; reflexivity.
  - apply scan_once_Int_end, Hd.
  - unfold pretty. cbn [encode]. rewrite encode_string_app. cbn [scan_once].
    change (Ascii.eqb QUOTE QUOTE) with true. cbv iota. rewrite scanstring_escape. reflexivity.
  - destruct items as [|x l]; [reflexivity|].
    rewrite pretty_List, need_List in *. rewrite !append_assoc. cbn [append scan_once].
    change (Ascii.eqb "[" QUOTE) with false. change (Ascii.eqb "[" "{") with false.
    change (Ascii.eqb "[" "[") with true. cbv iota.
    rewrite (skip_ws_before (nl (S level))) by (apply nl_ws || apply pretty_items_head).
    pose proof (scan_items_pretty (x :: l) ltac:(congruence) IH Hu fuel (S level) (nl level) rest
                  ltac:(lia) (nl_ws level)) as Hl.
    destruct (pretty_items_head (S level) x l (nl level +:+ String "]" rest))
      as (c & s & E & Hc).
    change ("]" +:+ rest) with (String "]" rest).
    rewrite E in *. rewrite (starts_value_not_close c Hc), Hl. reflexivity.
  - destruct members as [|[key item] l]; [reflexivity|].
    rewrite pretty_Dict, need_Dict in *. rewrite !append_assoc. cbn [append scan_once].
    change (Ascii.eqb "{" QUOTE) with false. change (Ascii.eqb "{" "{") with true. cbv iota.
    rewrite (skip_ws_before (nl (S level))) by (apply nl_ws || apply pretty_members_head).
    cbn [keys_unique] in Hu. apply andb_true_iff in Hu as [Hk Hu].
    pose proof (scan_members_pretty ((key, item) :: l) ltac:(congruence) IH Hu fuel (S level)
                  (nl level) rest ltac:(lia) (nl_ws level)) as Hl.
    change ("}" +:+ rest) with (String "}" rest).
    destruct (pretty_members_head (S level) (key, item) l (nl level +:+ String "}" rest))
      as (c & s & E & Hc).
    assert (Hq : Ascii.eqb c "}" = false) by (revert Hc; clear; by_chars c).
    rewrite E in *. rewrite Hq, Hl. cbn [mbind result_bind].
    rewrite (dict_of_pairs_distinct _ Hk). reflexivity.
Qed.

End Pretty.

(** *** [loads] undoes the indented [dumps] *)

Section PrettyLoads.
Variable width : nat.

Lemma need_items_pretty (level : nat) (items : list value) :
  Forall (fun v => forall level, need v <= String.length (pretty width level v)) items ->
  need_items items <= String.length (pretty_items width level items) + 1.
Proof.
  induction 1 as [|item l Hitem _ IH]; [cbn; lia|].
  specialize (Hitem level). cbn [need_items]. destruct l as [|x l].
  - rewrite pretty_items_last, length_append. cbn [need_items String.length]. lia.
  - rewrite pretty_items_more, !length_append. change (String.length ", ") with 2. lia.
Qed.

Lemma need_members_pretty (level : nat) (members : list (string * value)) :
  Forall (fun member => forall level,
            need (snd member) <= String.length (pretty width level (snd member))) members ->
  need_members members <= String.length (pretty_members width level members) + 1.
Proof.
  induction 1 as [|[key item] l Hitem _ IH]; [cbn; lia|].
  specialize (Hitem level). cbn [need_members snd] in *. destruct l as [|x l].
  - rewrite pretty_members_last, !length_append. cbn [need_members String.length]. lia.
  - rewrite pretty_members_more, !length_append. change (String.length ", ") with 2. lia.
Qed.

Lemma need_pretty (v : value) : forall level, need v <= String.length (pretty width level v).
Proof.
  induction v as [|b|n|s|items IH|members IH] using value_induction; intros level.
  - cbn. lia.
  - destruct b; cbn; lia.
  - destruct (str_head n) as (c & s & E & _). unfold pretty. cbn [need encode].
    rewrite E. cbn. lia.
  - cbn. lia.
  - destruct items as [|x l]; [cbn; lia|].
    pose proof (need_items_pretty (S level) (x :: l) IH).
    rewrite need_List, pretty_List, !length_append. cbn [String.length]. lia.
  - destruct members as [|x l]; [cbn; lia|].
    pose proof (need_members_pretty (S level) (x :: l) IH).
    rewrite need_Dict, pretty_Dict, !length_append. cbn [String.length]. lia.
Qed.

Lemma loads_dumps_indent (v : value) :
  keys_unique v = true -> loads (JsonIndent.dumps width (", ", ": ") v) = Ok v.
Proof.
  intros Hu. unfold loads, JsonIndent.dumps. cbn [fst snd].
  change (encode (blanks width) ", " ": " 0) with (pretty width 0).
  destruct (pretty_head width 0 v "") as (c & s & E & Hc). rewrite append_nil_r in E.
  rewrite E, (skip_ws_head c s Hc), <- E.
  pose proof (scan_once_pretty width v Hu (2 * String.length (pretty width 0 v) + 2) 0 "") as Hr.
  rewrite append_nil_r in Hr. rewrite Hr; [reflexivity| |reflexivity].
  pose proof (need_pretty v 0). lia.
Qed.

(** *** The characters of an indented document *)

Definition is_text_char (c : ascii) : bool := is_printable c || Ascii.eqb c LF.

Lemma printable_text_char c : is_printable c = true -> is_text_char c = true.
Proof. unfold is_text_char. intros ->. reflexivity. Qed.

Lemma nl_text (level : nat) : sall is_text_char (nl width level) = true.
Proof.
  unfold nl, newline_indent. cbn [sall]. change (is_text_char LF) with true. cbn [andb].
  induction level as [|level IH]; [reflexivity|].
  cbn [repeat_string]. rewrite sall_app, IH, andb_true_r.
  clear. induction width as [|n IHn]; [reflexivity|]. cbn [blanks sall]. rewrite IHn. reflexivity.
Qed.

Lemma encode_string_text (s : string) : sall is_text_char (encode_string s) = true.
Proof. apply (sall_impl is_printable); [apply printable_text_char|apply encode_string_printable]. Qed.

Lemma pretty_items_text (level : nat) (items : list value) :
  Forall (fun v => forall level, sall is_text_char (pretty width level v) = true) items ->
  sall is_text_char (pretty_items width level items) = true.
Proof.
  induction 1 as [|item l Hitem _ IH]; [reflexivity|]. destruct l as [|x l].
  - rewrite pretty_items_last, sall_app, Hitem. reflexivity.
  - rewrite pretty_items_more, !sall_app, Hitem, nl_text, IH. reflexivity.
Qed.

Lemma pretty_members_text (level : nat) (members : list (string * value)) :
  Forall (fun member => forall level,
            sall is_text_char (pretty width level (snd member)) = true) members ->
  sall is_text_char (pretty_members width level members) = true.
Proof.
  induction 1 as [|[key item] l Hitem _ IH]; [reflexivity|]. cbn [snd] in Hitem.
  destruct l as [|x l].
  - rewrite pretty_members_last, !sall_app, Hitem, encode_string_text. reflexivity.
  - rewrite pretty_members_more, !sall_app, Hitem, encode_string_text, nl_text, IH. reflexivity.
Qed.

Lemma pretty_text (v : value) : forall level, sall is_text_char (pretty width level v) = true.
Proof.
  induction v as [|b|n|s|items IH|members IH] using value_induction; intros level.
  - reflexivity.
  - destruct b; reflexivity.
  - apply (sall_impl is_num_char); [|apply str_all_num].
    intros c Hc. apply printable_text_char, num_char_printable, Hc.
  - apply encode_string_text.
  - destruct items as [|x l]; [reflexivity|].
    rewrite pretty_List, !sall_app, !nl_text, (pretty_items_text (S level) (x :: l) IH).
    reflexivity.
  - destruct members as [|x l]; [reflexivity|].
    rewrite pretty_Dict, !sall_app, !nl_text, (pretty_members_text (S level) (x :: l) IH).
    reflexivity.
Qed.

Lemma text_char_not_CR c : is_text_char c = true -> OsFacts.not_CR c = true.
Proof. by_chars c. Qed.

Lemma universal_newlines_indent (v : value) :
  Os.universal_newlines (JsonIndent.dumps width (", ", ": ") v)
  = JsonIndent.dumps width (", ", ": ") v.
Proof.
  apply OsFacts.universal_newlines_id, (sall_impl is_text_char);
    [apply text_char_not_CR|apply (pretty_text v 0)].
Qed.

End PrettyLoads.

End JsonIndentFacts.

(** ** The object codec at its edges *)

Module ObjectCodecEdges.
Import PyStr PyStrFacts Os OsFacts htio Formats Examples ObjectCodec.

Section WithCodec.
Context {V : Type} `{!Codec V}.

Lemma nexts_finished (fs : filesystem) (n : nat) :
  nexts (V := V) n fs GenFinished = (repeat StopIteration n, GenFinished).
Proof. induction n as [|n IH]; [reflexivity|]. cbn [nexts next repeat]. rewrite IH. reflexivity. Qed.

Lemma nexts_pickles_then (fs : filesystem) (objs : list V) (tail : string) :
  exists objs', Forall2 equiv objs objs' /\
    nexts (length objs) fs (GenSuspended (pickles objs +:+ tail))
    = (map Yield objs', GenSuspended tail).
Proof.
  induction objs as [|obj objs (objs' & Hall & IH)].
  - exists []. split; [constructor|reflexivity].
  - destruct (load_dumps obj (pickles objs +:+ tail)) as (obj' & Hl & He).
    exists (obj' :: objs'). split; [constructor; assumption|].
    cbn [length nexts pickles next]. unfold load_objects_loop.
    rewrite append_assoc, Hl, IH. reflexivity.
Qed.

Lemma open_wb_refused (fs : filesystem) (p : path) (e : exn) :
  Os.open_write p fs = (Raise e, fs) -> Gzip.open_wb p fs = (Raise e, fs).
Proof. intros H. unfold Gzip.open_wb, mbind, M_bind. rewrite H. reflexivity. Qed.

Lemma save_object_at_open (fs : filesystem) (obj : V) (p : path) (partial : string)
    (e e' : exn) :
  Os.open_write p fs = (Raise e', fs) ->
  save_object obj p fs = (Raise e', fs) /\
  save_object_refused partial e p fs = (Raise e', fs).
Proof.
  intros H. apply open_wb_refused in H.
  unfold save_object, save_object_refused, mbind, M_bind. rewrite H. split; reflexivity.
Qed.

Lemma save_object_cases (fs : filesystem) (obj : V) (p : path) :
  save_object obj p fs = (Ok tt, <[p := File (frame obj)]> fs) \/
  exists e, save_object obj p fs = (Raise e, fs) /\
    (e = IsADirectoryError /\ fs !! p = Some Dir \/
     e = missing_error fs p /\ fs !! p = None).
Proof.
  destruct (open_write_cases fs p) as [Hw|[[Hp Ho]|(Hp & _ & Ho)]].
  - left. apply save_object_run, Hw.
  - right. exists IsADirectoryError. split; [|auto].
    apply (save_object_at_open fs obj p "" IsADirectoryError _ Ho).
  - right. exists (missing_error fs p). split; [|auto].
    apply (save_object_at_open fs obj p "" IsADirectoryError _ Ho).
Qed.

(** X1. The first value [load_objects p] produces is what [load_object p]
    returns: on every file system the first call of [next] yields the
    object [load_object] returns, or raises the exception it raises. *)
Theorem load_object_is_first_next (fs : filesystem) (p : path) :
  fst (next fs (load_objects p))
  = match outcome (load_object p) fs with
    | Ok obj => Yield obj
    | Raise e => Throw e
    end.
Proof.
  unfold next, load_objects, load_objects_loop, outcome, load_object, mbind, M_bind, lift.
  destruct (Gzip.open_rb p fs) as [[stream|e] fs']; cbn [fst]; [|reflexivity].
  destruct (load stream) as [[obj rest]|e]; reflexivity.
Qed.

(** X2. Where the file is missing from its directory, [load_object]
    raises [FileNotFoundError] and changes nothing.  [load_objects] opens
    no file when it is called: the error comes with the first call of
    [next], and every later call raises [StopIteration]. *)
Theorem load_missing_file (fs : filesystem) (d : path) (name : string) (n : nat) :
  fs !! d = Some Dir -> fs !! (d </> name) = None ->
  load_object (V := V) (d </> name) fs = (Raise FileNotFoundError, fs) /\
  nexts (V := V) (S n) fs (load_objects (d </> name))
  = (Throw FileNotFoundError :: repeat StopIteration n, GenFinished).
Proof.
  intros Hd Hp.
  assert (Ho : Gzip.open_rb (d </> name) fs = (Raise FileNotFoundError, fs)).
  { unfold Gzip.open_rb, mbind, M_bind. rewrite (open_read_absent fs d name Hd Hp). reflexivity. }
  split.
  - unfold load_object, mbind, M_bind. rewrite Ho. reflexivity.
  - cbn [nexts]. unfold load_objects, next, outcome. rewrite Ho. cbn [fst].
    rewrite nexts_finished. reflexivity.
Qed.

(** X3. A stream that holds the pickles of [objs] and then bytes the
    unpickler refuses: [load_objects] yields values equivalent to [objs],
    in their order, before the call of [next] that raises the unpickler's
    exception; after it the generator is finished. *)
Theorem load_objects_undecodable_tail
    (fs : filesystem) (p : path) (bytes : string) (objs : list V) (tail : string)
    (e : exn) (n : nat) :
  fs !! p = Some (File bytes) ->
  gunzip bytes = Ok (pickles objs +:+ tail) ->
  load tail = Raise e ->
  exists objs', Forall2 equiv objs objs' /\
    nexts (length objs + S n) fs (load_objects p)
    = (map Yield objs' ++ Throw e :: repeat StopIteration n, GenFinished).
Proof.
  intros Hp Hg Hl. destruct (nexts_pickles_then fs objs tail) as (objs' & Hall & Hn).
  exists objs'. split; [exact Hall|].
  transitivity (nexts (length objs + S n) fs (GenSuspended (pickles objs +:+ tail))).
  - replace (length objs + S n) with (S (length objs + n)) by lia.
    cbn [nexts]. unfold load_objects. rewrite (next_created fs p _ _ Hp Hg). reflexivity.
  - rewrite nexts_app, Hn. cbn [nexts next]. unfold load_objects_loop. rewrite Hl.
    rewrite nexts_finished. reflexivity.
Qed.

(** X4. [load_object] reads one object and looks at nothing after it:
    from a file whose stream begins with the pickle of [obj] it returns a
    value equivalent to [obj], whatever follows; so from a file of several
    frames it returns the first. *)
Theorem load_object_reads_first
    (fs : filesystem) (p : path) (bytes : string) (obj : V) (rest : string) :
  fs !! p = Some (File bytes) ->
  gunzip bytes = Ok (dumps obj +:+ rest) ->
  exists obj', load_object p fs = (Ok obj', fs) /\ equiv obj obj'.
Proof.
  intros Hp Hg. destruct (load_dumps obj rest) as (obj' & Hl & He).
  exists obj'. split; [|exact He].
  unfold load_object, mbind, M_bind. rewrite (open_rb_file fs p bytes Hp), Hg.
  unfold lift. rewrite Hl. reflexivity.
Qed.

(** X5. [save_object] is all or nothing at the open alone.  Where the
    open of the target fails, the call raises the error of the open and has
    changed nothing, whether the pickler takes the object or not:
    [IsADirectoryError] where the target is a directory,
    [NotADirectoryError] where a regular file stands above the target,
    [FileNotFoundError] where the directory of the target is missing with
    no regular file above it.  Where the open goes through and the dump
    then refuses the object, the exception of the dump reaches the caller
    after the target was created or emptied: it holds the container of what
    the dump wrote before it raised, and when that is nothing,
    [load_object] raises [EOFError] on it. *)
Theorem save_object_failure
    (fs : filesystem) (obj : V) (p : path) (partial : string) (e : exn) :
  let fails_at_open (e' : exn) :=
    save_object obj p fs = (Raise e', fs) /\
    save_object_refused partial e p fs = (Raise e', fs) in
  (fs !! p = Some Dir -> fails_at_open IsADirectoryError) /\
  (fs !! p = None -> (exists c, nearest_above fs p = Some (File c)) ->
   fails_at_open NotADirectoryError) /\
  (fs !! p = None -> fs !! parent p = None ->
   (forall c, nearest_above fs p <> Some (File c)) ->
   fails_at_open FileNotFoundError) /\
  (can_write fs p ->
   save_object_refused partial e p fs
   = (Raise e, <[p := File (gzip_member partial)]> fs) /\
   (partial = "" ->
    outcome (load_object p) (<[p := File (gzip_member partial)]> fs) = Raise EOFError)).
Proof.
  cbv zeta. split; [|split; [|split]].
  - intros Hp. apply save_object_at_open.
    destruct (open_write_cases fs p) as [[[c Hc]|[Hn _]]|[[_ Ho]|(Hn & _)]]; congruence.
  - intros Hp (c & Hc). apply save_object_at_open.
    destruct (open_write_cases fs p) as [[[c' Hc']|[_ Hd]]|[[Hd _]|(_ & _ & Ho)]];
      try congruence.
    + rewrite (nearest_above_parent fs p Dir Hp Hd) in Hc. discriminate.
    + rewrite Ho, (missing_error_file fs p c Hc). reflexivity.
  - intros Hp Hd Hnone. apply save_object_at_open.
    destruct (open_write_cases fs p) as [[[c' Hc']|[_ Hd']]|[[Hd' _]|(_ & _ & Ho)]];
      try congruence.
    rewrite Ho, (missing_error_no_file fs p Hnone). reflexivity.
  - intros Hw. split.
    + unfold save_object_refused, mbind, M_bind. rewrite (open_wb_run fs p Hw).
      unfold Gzip.close, Gzip.write, put_node, raise, lift.
      cbn [Gzip.gz_path Gzip.gz_data append]. rewrite insert_insert_eq. reflexivity.
    + intros ->. rewrite (load_object_file _ p _ (lookup_insert_eq _ _ _)).
      pose proof (gunzip_member "" "") as Hg. rewrite append_nil_r, gunzip_eof in Hg.
      rewrite Hg. cbn [mbind result_bind mret result_ret append]. rewrite load_eof. reflexivity.
Qed.

(** *** [save_inputs] *)

Lemma save_inputs_run (fs : filesystem) (map_dir : path) (items : list V) :
  fs !! (map_dir </> names.INPUTS_DIR) = Some Dir ->
  (forall i, i < length items ->
     fs !! (map_dir </> names.INPUTS_DIR </> input_name (Z.of_nat i)) <> Some Dir) ->
  save_inputs map_dir items fs = (Ok tt, written (map_dir </> names.INPUTS_DIR) 0 items fs).
Proof.
  intros Hb Ht. unfold save_inputs, enumerate. apply save_inputs_from_run; [exact Hb|].
  intros k Hk. apply Ht, Hk.
Qed.

Lemma written_cases (base : path) (q : path) (items : list V) :
  forall (i : Z) (fs : filesystem),
  written base i items fs !! q = fs !! q \/
  exists (k : nat) (x : V),
    items !! k = Some x /\ q = base </> input_name (i + Z.of_nat k).
Proof.
  induction items as [|item items IH]; intros i fs; [left; reflexivity|].
  cbn [written].
  destruct (IH (i + 1)%Z (<[base </> input_name i := File (frame item)]> fs))
    as [E|(k & x & Hx & ->)].
  - destruct (decide (q = base </> input_name i)) as [->|Hq].
    + right. exists 0%nat, item. rewrite Z.add_0_r. split; reflexivity.
    + left. rewrite E. apply lookup_insert_ne. congruence.
  - right. exists (S k), x. split; [exact Hx|]. f_equal. f_equal. lia.
Qed.

(** X6. After [save_inputs], [load_object] on the file of component [i]
    returns a value equivalent to the [i]-th pair of the list. *)
Theorem save_inputs_then_load
    (fs : filesystem) (map_dir : path) (args_and_kwargs : list V) (i : nat) (a_and_k : V) :
  let base_path := map_dir </> names.INPUTS_DIR in
  let component_path (i : nat) := base_path </> input_name (Z.of_nat i) in
  fs !! base_path = Some Dir ->
  (forall j, j < length args_and_kwargs -> fs !! component_path j <> Some Dir) ->
  args_and_kwargs !! i = Some a_and_k ->
  exists obj',
    outcome (save_inputs map_dir args_and_kwargs ≫= fun _ => load_object (component_path i)) fs
    = Ok obj' /\ equiv a_and_k obj'.
Proof.
  intros base_path component_path Hb Ht Hi.
  destruct (load_object_frame (written base_path 0 args_and_kwargs fs) (component_path i) a_and_k)
    as (obj' & Hl & He).
  { apply (written_at base_path _ 0%Z fs i a_and_k Hi). }
  exists obj'. split; [|exact He].
  unfold outcome in *. unfold mbind, M_bind.
  rewrite (save_inputs_run fs map_dir args_and_kwargs Hb Ht). exact Hl.
Qed.

Lemma save_inputs_from_stops (base : path) (before : list V) (bad : V) (after : list V) :
  forall (i : Z) (fs : filesystem),
  fs !! base = Some Dir ->
  (forall k : nat, k < length before ->
     fs !! (base </> input_name (i + Z.of_nat k)) <> Some Dir) ->
  fs !! (base </> input_name (i + Z.of_nat (length before))) = Some Dir ->
  for_each (enumerate_from i (before ++ bad :: after))
    (fun '(component, a_and_k) => save_object a_and_k (base </> input_name component)) fs
  = (Raise IsADirectoryError, written base i before fs).
Proof.
  induction before as [|item before IH]; intros i fs Hb Ht Hbad.
  - cbn [app enumerate_from for_each written length] in *. rewrite Z.add_0_r in Hbad.
    unfold mbind, M_bind.
    destruct (save_object_cases fs bad (base </> input_name i))
      as [Hs|(e & Hs & [[-> _]|[_ Hn]])]; try congruence.
    + exfalso.
      assert (Hl : snd (save_object bad (base </> input_name i) fs) !! (base </> input_name i)
                   = Some (File (frame bad))) by (rewrite Hs; apply lookup_insert_eq).
      unfold save_object, Gzip.open_wb, Os.open_write, get_fs, mbind, M_bind in Hs.
      rewrite Hbad in Hs. discriminate.
    + rewrite Hs. reflexivity.
  - cbn [app enumerate_from for_each written]. unfold mbind, M_bind.
    rewrite save_object_run.
    2:{ apply can_write_in_dir; [exact Hb|]. specialize (Ht 0%nat).
        rewrite Z.add_0_r in Ht. apply Ht. cbn [length]. lia. }
    apply IH.
    + rewrite lookup_insert_ne; [exact Hb|]. apply joinpath_neq_dir.
    + intros k Hk. rewrite lookup_insert. case_decide; [congruence|].
      replace (i + 1 + Z.of_nat k)%Z with (i + Z.of_nat (S k))%Z by lia.
      apply Ht. cbn [length]. lia.
    + rewrite lookup_insert_ne.
      * replace (i + 1 + Z.of_nat (length before))%Z
          with (i + Z.of_nat (length (item :: before)))%Z by (cbn [length]; lia).
        exact Hbad.
      * intros E. apply input_path_inj in E. lia.
Qed.

(** X7. [save_inputs] stops at the first component it cannot write and
    undoes nothing: where the target of one component is a directory, the
    call raises [IsADirectoryError], the files of the components before it
    are written, and no other path is changed, so no later component is
    written. *)
Theorem save_inputs_stops_at_failure
    (fs : filesystem) (map_dir : path) (before : list V) (bad : V) (after : list V) :
  let base_path := map_dir </> names.INPUTS_DIR in
  let component_path (i : nat) := base_path </> input_name (Z.of_nat i) in
  let run := save_inputs map_dir (before ++ bad :: after) in
  fs !! base_path = Some Dir ->
  (forall i, i < length before -> fs !! component_path i <> Some Dir) ->
  fs !! component_path (length before) = Some Dir ->
  outcome run fs = Raise IsADirectoryError /\
  (forall i a_and_k, before !! i = Some a_and_k ->
     effect run fs !! component_path i = Some (File (frame a_and_k))) /\
  (forall q, (forall i, i < length before -> q <> component_path i) ->
     effect run fs !! q = fs !! q).
Proof.
  intros base_path component_path run Hb Ht Hbad.
  assert (Hrun : run fs = (Raise IsADirectoryError, written base_path 0 before fs)).
  { unfold run, save_inputs, enumerate. apply save_inputs_from_stops; [exact Hb| |exact Hbad].
    intros k Hk. apply Ht, Hk. }
  unfold outcome, effect. rewrite Hrun. cbn [fst snd]. repeat split.
  - intros i a_and_k Hi. apply (written_at base_path _ 0%Z fs i a_and_k Hi).
  - intros q Hq. apply written_other. intros k Hk. apply Hq, Hk.
Qed.

(** X8. [save_inputs] removes nothing: run a second time on the same map
    directory with another list, it replaces the files of the components
    the second list has and leaves the files of the higher components of
    the first list as they were. *)
Theorem save_inputs_again
    (fs : filesystem) (map_dir : path) (first second : list V) :
  let base_path := map_dir </> names.INPUTS_DIR in
  let component_path (i : nat) := base_path </> input_name (Z.of_nat i) in
  let twice := save_inputs map_dir first ≫= fun _ => save_inputs map_dir second in
  fs !! base_path = Some Dir ->
  (forall i, i < Nat.max (length first) (length second) ->
     fs !! component_path i <> Some Dir) ->
  outcome twice fs = Ok tt /\
  (forall i a_and_k, second !! i = Some a_and_k ->
     effect twice fs !! component_path i = Some (File (frame a_and_k))) /\
  (forall i a_and_k, length second <= i -> first !! i = Some a_and_k ->
     effect twice fs !! component_path i = Some (File (frame a_and_k))).
Proof.
  intros base_path component_path twice Hb Ht.
  assert (H1 : save_inputs map_dir first fs = (Ok tt, written base_path 0 first fs)).
  { apply save_inputs_run; [exact Hb|]. intros i Hi. apply Ht. lia. }
  assert (Hdir : forall q, fs !! q <> Some Dir -> written base_path 0 first fs !! q <> Some Dir).
  { intros q Hq. destruct (written_cases base_path q first 0%Z fs) as [->|(k & x & Hx & ->)].
    - exact Hq.
    - rewrite (written_at base_path first 0%Z fs k x Hx). congruence. }
  assert (H2 : save_inputs map_dir second (written base_path 0 first fs)
               = (Ok tt, written base_path 0 second (written base_path 0 first fs))).
  { apply save_inputs_run.
    - fold base_path. rewrite written_other; [exact Hb|].
      intros k _ E. symmetry in E. revert E. apply joinpath_neq_dir.
    - intros i Hi. apply Hdir, Ht. lia. }
  assert (Hrun : twice fs = (Ok tt, written base_path 0 second (written base_path 0 first fs))).
  { unfold twice, mbind, M_bind. rewrite H1. exact H2. }
  unfold outcome, effect. rewrite Hrun. cbn [fst snd]. repeat split.
  - intros i a_and_k Hi. apply (written_at base_path _ 0%Z _ i a_and_k Hi).
  - intros i a_and_k Hle Hi. rewrite written_other.
    + apply (written_at base_path _ 0%Z _ i a_and_k Hi).
    + intros k Hk E. apply input_path_inj in E. lia.
Qed.

(** X9. The function and the inputs of a map are stored apart: written in
    either order, [save_func] and [save_inputs] leave the same files, from
    which [load_object] returns the function and each pair. *)
Theorem save_func_and_inputs
    (fs : filesystem) (map_dir : path) (func : V) (args_and_kwargs : list V) :
  let func_path := map_dir </> names.FUNC in
  let base_path := map_dir </> names.INPUTS_DIR in
  let component_path (i : nat) := base_path </> input_name (Z.of_nat i) in
  let both := save_func map_dir func ≫= fun _ => save_inputs map_dir args_and_kwargs in
  let swapped := save_inputs map_dir args_and_kwargs ≫= fun _ => save_func map_dir func in
  fs !! map_dir = Some Dir ->
  fs !! func_path <> Some Dir ->
  fs !! base_path = Some Dir ->
  (forall i, i < length args_and_kwargs -> fs !! component_path i <> Some Dir) ->
  outcome both fs = Ok tt /\
  both fs = swapped fs /\
  (exists func', outcome (load_object func_path) (effect both fs) = Ok func' /\
     equiv func func') /\
  (forall i a_and_k, args_and_kwargs !! i = Some a_and_k ->
     exists obj', outcome (load_object (component_path i)) (effect both fs) = Ok obj' /\
       equiv a_and_k obj').
Proof.
  intros func_path base_path component_path both swapped Hd Hf Hb Ht.
  assert (Hne : func_path <> base_path) by congruence.
  assert (Hnc : forall k, func_path <> component_path k).
  { intros k E. apply (f_equal length) in E. unfold func_path, component_path, base_path in E.
    unfold joinpath in E. rewrite !length_app in E. cbn [length] in E. lia. }
  assert (Hw : can_write fs func_path) by (apply can_write_in_dir; assumption).
  set (fs1 := <[func_path := File (frame func)]> fs).
  assert (H1 : save_func map_dir func fs = (Ok tt, fs1)) by (apply save_object_run, Hw).
  assert (H2 : save_inputs map_dir args_and_kwargs fs1
               = (Ok tt, written base_path 0 args_and_kwargs fs1)).
  { apply save_inputs_run.
    - unfold fs1. rewrite lookup_insert_ne by exact Hne. exact Hb.
    - intros i Hi. unfold fs1. rewrite lookup_insert_ne by apply Hnc. apply Ht, Hi. }
  assert (H3 : save_inputs map_dir args_and_kwargs fs
               = (Ok tt, written base_path 0 args_and_kwargs fs))
    by (apply save_inputs_run; assumption).
  assert (H4 : save_func map_dir func (written base_path 0 args_and_kwargs fs)
               = (Ok tt, <[func_path := File (frame func)]>
                           (written base_path 0 args_and_kwargs fs))).
  { apply save_object_run. unfold can_write. fold func_path.
    rewrite !written_other.
    - exact Hw.
    - intros k _ E. unfold func_path in E. rewrite parent_joinpath in E.
      apply (f_equal length) in E. unfold base_path, joinpath in E.
      rewrite !length_app in E. cbn [length] in E. lia.
    - intros k _. apply Hnc. }
  assert (Hsame : written base_path 0 args_and_kwargs fs1
                  = <[func_path := File (frame func)]> (written base_path 0 args_and_kwargs fs)).
  { apply map_eq. intros q. destruct (decide (q = func_path)) as [->|Hq].
    - rewrite lookup_insert_eq, written_other; [apply lookup_insert_eq|].
      intros k _. apply Hnc.
    - rewrite lookup_insert_ne by congruence.
      assert (Hat : forall k x, args_and_kwargs !! k = Some x ->
                written base_path 0 args_and_kwargs fs1 !! component_path k
                = written base_path 0 args_and_kwargs fs !! component_path k).
      { intros k x Hx. unfold component_path.
        rewrite (written_at base_path _ 0%Z fs1 k x Hx), (written_at base_path _ 0%Z fs k x Hx).
        reflexivity. }
      destruct (written_cases base_path q args_and_kwargs 0%Z fs1) as [E1|(k & x & Hx & ->)];
        [|apply (Hat k x Hx)].
      destruct (written_cases base_path q args_and_kwargs 0%Z fs) as [E2|(k & x & Hx & ->)];
        [|apply (Hat k x Hx)].
      rewrite E1, E2. unfold fs1. apply lookup_insert_ne. congruence. }
  assert (Hboth : both fs = (Ok tt, written base_path 0 args_and_kwargs fs1)).
  { unfold both, mbind, M_bind. rewrite H1. exact H2. }
  assert (Hswap : swapped fs = (Ok tt, written base_path 0 args_and_kwargs fs1)).
  { unfold swapped, mbind, M_bind. rewrite H3, H4, Hsame. reflexivity. }
  unfold outcome, effect. rewrite Hboth, Hswap. cbn [fst snd]. repeat split.
  - apply load_object_frame. rewrite written_other; [apply lookup_insert_eq|].
    intros k _. apply Hnc.
  - intros i a_and_k Hi. apply load_object_frame.
    apply (written_at base_path _ 0%Z fs1 i a_and_k Hi).
Qed.

End WithCodec.

Definition truncated_stream_fs : filesystem :=
  <[example_file := File (RefCodec.container (RefCodec.pickle (RefCodec.Integer 5) +:+ "I12"))]>
    example_fs.

Definition blocked_inputs_fs : filesystem :=
  <[example_dir </> "inputs" </> "1.in" := Dir]> example_inputs_fs.

Lemma load_missing_file_witness :
  load_object (V := RefCodec.obj) example_file example_fs
  = (Raise FileNotFoundError, example_fs) /\
  nexts (V := RefCodec.obj) 3 example_fs (load_objects example_file)
  = ([Throw FileNotFoundError; StopIteration; StopIteration], GenFinished).
Proof. apply (load_missing_file example_fs example_dir "function" 2); reflexivity. Defined.

Lemma load_objects_undecodable_tail_witness :
  exists objs', Forall2 equiv [RefCodec.Integer 5] objs' /\
    nexts 3 truncated_stream_fs (load_objects example_file)
    = (map Yield objs' ++ [Throw EOFError; StopIteration], GenFinished).
Proof.
  refine (load_objects_undecodable_tail truncated_stream_fs example_file _
            [RefCodec.Integer 5] "I12" EOFError 1 _ _ _); reflexivity.
Defined.

Lemma load_object_reads_first_witness :
  exists obj', load_object example_file example_stream_fs = (Ok obj', example_stream_fs) /\
    RefCodec.Integer 5 = obj'.
Proof.
  refine (load_object_reads_first example_stream_fs example_file _ (RefCodec.Integer 5)
            (RefCodec.pickle (RefCodec.Closure 7 3)) _ _); reflexivity.
Defined.

Definition below_a_file_fs : filesystem :=
  <[example_dir </> "notes" := File "text"]> example_fs.

Lemma save_object_failure_witness :
  save_object (RefCodec.Integer 5) (example_dir </> "notes" </> "sub" </> "0.in") below_a_file_fs
  = (Raise NotADirectoryError, below_a_file_fs) /\
  save_object (RefCodec.Integer 5) (example_dir </> "inputs" </> "0.in") example_fs
  = (Raise FileNotFoundError, example_fs) /\
  save_object_refused (V := RefCodec.obj) "" (Defined "PicklingError") example_file example_fs
  = (Raise (Defined "PicklingError"), <[example_file := File (gzip_member "")]> example_fs) /\
  outcome (load_object (V := RefCodec.obj) example_file)
    (<[example_file := File (gzip_member "")]> example_fs) = Raise EOFError.
Proof.
  split; [|split].
  - refine (proj1 (proj1 (proj2 (save_object_failure below_a_file_fs (RefCodec.Integer 5)
              (example_dir </> "notes" </> "sub" </> "0.in") "" (Defined "PicklingError")))
              _ _)); [reflexivity|]. exists "text". reflexivity.
  - refine (proj1 (proj1 (proj2 (proj2 (save_object_failure example_fs (RefCodec.Integer 5)
              (example_dir </> "inputs" </> "0.in") "" (Defined "PicklingError"))))
              _ _ _)); [reflexivity|reflexivity|]. intros c. vm_compute. congruence.
  - destruct (proj2 (proj2 (proj2 (save_object_failure example_fs (RefCodec.Integer 5)
                example_file "" (Defined "PicklingError")))))
      as [Hr Hl]; [right; split; reflexivity|].
    split; [exact Hr|exact (Hl eq_refl)].
Defined.

Lemma save_inputs_then_load_witness :
  exists obj',
    outcome (save_inputs example_dir example_objs
             ≫= fun _ => load_object (example_dir </> names.INPUTS_DIR </> input_name 1))
      example_inputs_fs = Ok obj' /\
    RefCodec.Closure 7 3 = obj'.
Proof.
  refine (save_inputs_then_load example_inputs_fs example_dir example_objs 1
            (RefCodec.Closure 7 3) _ _ _); [reflexivity| |reflexivity].
  intros [|[|j]] Hj; [vm_compute; congruence|vm_compute; congruence|cbn in Hj; lia].
Defined.

Lemma save_inputs_stops_at_failure_witness :
  let run := save_inputs example_dir
               ([RefCodec.Integer 5] ++ RefCodec.Closure 7 3 :: [RefCodec.Integer 9]) in
  outcome run blocked_inputs_fs = Raise IsADirectoryError /\
  effect run blocked_inputs_fs !! (example_dir </> "inputs" </> "0.in")
  = Some (File (frame (RefCodec.Integer 5))) /\
  effect run blocked_inputs_fs !! (example_dir </> "inputs" </> "2.in") = None.
Proof.
  assert (Ht : forall i, i < 1 ->
            blocked_inputs_fs !! (example_dir </> names.INPUTS_DIR </> input_name (Z.of_nat i))
            <> Some Dir).
  { intros [|i] Hi; [vm_compute; congruence|lia]. }
  pose proof (save_inputs_stops_at_failure blocked_inputs_fs example_dir
                [RefCodec.Integer 5] (RefCodec.Closure 7 3) [RefCodec.Integer 9]
                eq_refl Ht eq_refl) as (Hout & Hat & Hother).
  split; [exact Hout|]. split; [exact (Hat 0%nat (RefCodec.Integer 5) eq_refl)|].
  rewrite Hother; [reflexivity|].
  intros [|i] Hi; [vm_compute; congruence|cbn in Hi; lia].
Defined.

Lemma save_inputs_again_witness :
  let twice := save_inputs example_dir example_objs
               ≫= fun _ => save_inputs example_dir [RefCodec.Integer 9] in
  outcome twice example_inputs_fs = Ok tt /\
  effect twice example_inputs_fs !! (example_dir </> "inputs" </> "0.in")
  = Some (File (frame (RefCodec.Integer 9))) /\
  effect twice example_inputs_fs !! (example_dir </> "inputs" </> "1.in")
  = Some (File (frame (RefCodec.Closure 7 3))).
Proof.
  assert (Ht : forall i, i < Nat.max (length example_objs) 1 ->
            example_inputs_fs !! (example_dir </> names.INPUTS_DIR </> input_name (Z.of_nat i))
            <> Some Dir).
  { intros [|[|i]] Hi; [vm_compute; congruence|vm_compute; congruence|cbn in Hi; lia]. }
  pose proof (save_inputs_again example_inputs_fs example_dir example_objs [RefCodec.Integer 9]
                eq_refl Ht) as (Hout & Hnew & Hold).
  split; [exact Hout|]. split.
  - exact (Hnew 0%nat (RefCodec.Integer 9) eq_refl).
  - refine (Hold 1%nat (RefCodec.Closure 7 3) _ eq_refl). cbn [length]. lia.
Defined.

Lemma save_func_and_inputs_witness :
  let both := save_func example_dir (RefCodec.Closure 7 3)
              ≫= fun _ => save_inputs example_dir example_objs in
  let swapped := save_inputs example_dir example_objs
                 ≫= fun _ => save_func example_dir (RefCodec.Closure 7 3) in
  outcome both example_inputs_fs = Ok tt /\
  both example_inputs_fs = swapped example_inputs_fs.
Proof.
  assert (Ht : forall i, i < length example_objs ->
            example_inputs_fs !! (example_dir </> names.INPUTS_DIR </> input_name (Z.of_nat i))
            <> Some Dir).
  { intros [|[|i]] Hi; [vm_compute; congruence|vm_compute; congruence|cbn in Hi; lia]. }
  assert (Hf : example_inputs_fs !! (example_dir </> names.FUNC) <> Some Dir)
    by (vm_compute; congruence).
  pose proof (save_func_and_inputs example_inputs_fs example_dir (RefCodec.Closure 7 3)
                example_objs eq_refl Hf eq_refl Ht) as (Hout & Heq & _).
  split; [exact Hout|exact Heq].
Defined.

End ObjectCodecEdges.

(** ** The text stores at their edges *)

Module TextStoreEdges.
Import PyStr PyStrFacts Os OsFacts htio Formats Examples ScalarStore AppendLog.

(** *** What universal newlines do to white space and to line ends *)

Lemma universal_newlines_app (a t : string) :
  sall not_CR a = true ->
  Os.universal_newlines (a +:+ t) = a +:+ Os.universal_newlines t.
Proof.
  induction a as [|c a IH]; cbn [sall append]; [reflexivity|].
  intros [Hc Hs]%andb_true_iff. cbn [Os.universal_newlines].
  unfold not_CR in Hc. apply negb_true_iff in Hc. rewrite Hc, (IH Hs). reflexivity.
Qed.

Lemma universal_newlines_space (n : nat) : forall a t : string,
  String.length a <= n -> sall is_space_c a = true ->
  exists a', sall is_space_c a' = true /\
    Os.universal_newlines (a +:+ t) = a' +:+ Os.universal_newlines t.
Proof.
  induction n as [|n IH]; intros a t Hn Ha.
  { destruct a; [|cbn in Hn; lia]. exists "". split; reflexivity. }
  destruct a as [|c a1]; [exists ""; split; reflexivity|].
  cbn [sall] in Ha. apply andb_true_iff in Ha as [Hc Ha1]. cbn [String.length] in Hn.
  destruct (Ascii.eqb c CR) eqn:Ec.
  - apply Ascii.eqb_eq in Ec. subst c. destruct a1 as [|c' a2].
    + cbn [append]. destruct t as [|d t'].
      * exists (String LF ""). split; reflexivity.
      * destruct (Ascii.eqb d LF) eqn:Ed.
        -- apply Ascii.eqb_eq in Ed. subst d. exists "". split; reflexivity.
        -- exists (String LF ""). split; [reflexivity|].
           cbn [append]. change (Os.universal_newlines (String CR (String d t')))
             with (String LF (if Ascii.eqb d LF then Os.universal_newlines t'
                              else Os.universal_newlines (String d t'))).
           rewrite Ed. reflexivity.
    + cbn [sall] in Ha1. apply andb_true_iff in Ha1 as [Hc' Ha2]. cbn [String.length] in Hn.
      cbn [append]. change (Os.universal_newlines (String CR (String c' (a2 +:+ t))))
        with (String LF (if Ascii.eqb c' LF then Os.universal_newlines (a2 +:+ t)
                         else Os.universal_newlines (String c' (a2 +:+ t)))).
      destruct (Ascii.eqb c' LF) eqn:E'.
      * destruct (IH a2 t) as (a' & Hs & E); [lia|exact Ha2|].
        exists (String LF a'). split; [exact Hs|]. rewrite E. reflexivity.
      * destruct (IH (String c' a2) t) as (a' & Hs & E);
          [cbn [String.length]; lia|cbn [sall]; rewrite Hc', Ha2; reflexivity|].
        exists (String LF a'). split; [exact Hs|]. cbn [append] in E. rewrite E. reflexivity.
  - destruct (IH a1 t) as (a' & Hs & E); [lia|exact Ha1|].
    exists (String c a'). split; [cbn [sall]; rewrite Hc, Hs; reflexivity|].
    cbn [append Os.universal_newlines]. rewrite Ec, E. reflexivity.
Qed.

(** *** [int] on a padded literal *)

Lemma space_c_ascii c : is_space_c c = true -> is_ascii c = true.
Proof. by_chars c. Qed.

Lemma space_c_not_digit c :
  is_space_c c = true -> is_digit c = false /\ Ascii.eqb c "_" = false.
Proof. by_chars c; split; reflexivity. Qed.

Lemma skip_space_c_app (a s : string) :
  sall is_space_c a = true -> skip_space_c (a +:+ s) = skip_space_c s.
Proof.
  induction a as [|c a IH]; cbn [sall append]; [reflexivity|].
  intros [Hc Hs]%andb_true_iff. cbn [skip_space_c]. rewrite Hc. apply IH, Hs.
Qed.

Lemma skip_space_c_all (a : string) : sall is_space_c a = true -> skip_space_c a = "".
Proof.
  intros H. pose proof (skip_space_c_app a "" H) as E. rewrite append_nil_r in E. exact E.
Qed.

Lemma scan_digits_space (acc : N) (a : string) :
  sall is_space_c a = true -> scan_digits acc a = Some (acc, a).
Proof.
  destruct a as [|c a]; [reflexivity|]. cbn [sall]. intros [Hc _]%andb_true_iff.
  cbn [scan_digits]. destruct (space_c_not_digit c Hc) as [-> ->]. reflexivity.
Qed.

Lemma int_padded (z : Z) (before after : string) :
  sall is_space_c before = true -> sall is_space_c after = true ->
  int (before +:+ str z +:+ after) = Ok z.
Proof.
  intros Hb Ha. unfold int. rewrite transform_ascii.
  2:{ rewrite !sall_app. rewrite (sall_impl is_space_c is_ascii before space_c_ascii Hb).
      rewrite (sall_impl is_num_char is_ascii (str z) num_char_ascii (str_all_num z)).
      rewrite (sall_impl is_space_c is_ascii after space_c_ascii Ha). reflexivity. }
  rewrite (skip_space_c_app before _ Hb).
  assert (Hnat : forall n, 
            scan_sign (skip_space_c (str_of_N n +:+ after)) = (false, str_of_N n +:+ after) /\
            exists c s, str_of_N n +:+ after = String c s /\ is_digit c = true /\
              scan_digits 0 (str_of_N n +:+ after) = Some (n, after)).
  { intros n. destruct (str_of_N_head n) as (c & s & E & Hc).
    pose proof (scan_digits_str_of_N n after) as Hs. rewrite (scan_digits_space n after Ha) in Hs.
    rewrite E in *. cbn [append] in *. cbn [skip_space_c].
    rewrite (num_char_not_space_c c) by (unfold is_num_char; rewrite Hc; reflexivity).
    unfold scan_sign. destruct (digit_not_sign c Hc) as [-> ->].
    split; [reflexivity|]. exists c, (s +:+ after). auto. }
  destruct z as [|p|p].
  - change (str 0) with (str_of_N 0). destruct (Hnat 0%N) as (-> & c & s & -> & Hc & Hs).
    rewrite Hc. cbn [append] in Hs. rewrite Hs, (skip_space_c_all after Ha). reflexivity.
  - change (str (Z.pos p)) with (str_of_N (N.pos p)).
    destruct (Hnat (N.pos p)) as (-> & c & s & E & Hc & Hs).
    rewrite E in *. rewrite Hc, Hs, (skip_space_c_all after Ha). reflexivity.
  - change (str (Z.neg p)) with (String "-" (str_of_N (N.pos p))).
    destruct (Hnat (N.pos p)) as (_ & c & s & E & Hc & Hs).
    cbn [append skip_space_c]. change (is_space_c "-") with false. cbv iota.
    unfold scan_sign. change (Ascii.eqb "-" "-") with true. cbv iota.
    rewrite E in *. rewrite Hc, Hs, (skip_space_c_all after Ha). reflexivity.
Qed.

(** X10. [load_num_components] reads the count from a file that holds
    white space around it, such as the line end an editor or a shell
    command leaves after the number: blanks, tabs and line ends of any
    kind before and after the literal change nothing. *)
Theorem load_num_components_padded
    (fs : filesystem) (map_dir : path) (k : Z) (before after : string) :
  sall is_space_c before = true ->
  sall is_space_c after = true ->
  fs !! _num_components_path map_dir = Some (File (before +:+ str k +:+ after)) ->
  load_num_components map_dir fs = (Ok k, fs).
Proof.
  intros Hb Ha Hp. rewrite (load_num_components_file fs map_dir _ Hp).
  destruct (universal_newlines_space (String.length before) before (str k +:+ after))
    as (before' & Hb' & ->); [lia|exact Hb|].
  rewrite universal_newlines_app
    by (apply (sall_impl is_num_char); [apply num_char_not_CR|apply str_all_num]).
  destruct (universal_newlines_space (String.length after) after "")
    as (after' & Ha' & E); [lia|exact Ha|].
  rewrite !append_nil_r in E. cbn [Os.universal_newlines] in E. rewrite ?append_nil_r in E.
  rewrite E, (int_padded k before' after' Hb' Ha'). reflexivity.
Qed.

(** *** The lines of a log *)

(** The text of a log whose lines all end in [eol]. *)
Fixpoint lines_with (eol : string) (ids : list Z) : string :=
  match ids with
  | [] => ""
  | cluster_id :: ids' => str cluster_id +:+ eol +:+ lines_with eol ids'
  end.

Definition line_ends : list string :=
  [String LF ""; String CR (String LF ""); String CR ""].

Lemma str_not_CR (z : Z) : sall not_CR (str z) = true.
Proof. apply (sall_impl is_num_char); [apply num_char_not_CR|apply str_all_num]. Qed.

Lemma not_LF_head (eol : string) (ids : list Z) (last : option Z) :
  match lines_with eol ids +:+ from_option str "" last with
  | "" => True
  | String c _ => Ascii.eqb c LF = false
  end.
Proof.
  assert (H : forall z t, match str z +:+ t with
                          | "" => True
                          | String c _ => Ascii.eqb c LF = false
                          end).
  { intros z t. destruct (JsonFacts.str_head z) as (c & s & -> & Hc). cbn [append].
    revert Hc. by_chars c. }
  destruct ids as [|x ids]; cbn [lines_with append].
  - destruct last as [k|]; cbn [from_option]; [|exact I].
    pose proof (H k "") as Hk. rewrite append_nil_r in Hk. exact Hk.
  - rewrite !append_assoc. apply H.
Qed.

Lemma universal_newlines_lines (eol : string) (ids : list Z) (last : option Z) :
  In eol line_ends ->
  Os.universal_newlines (lines_with eol ids +:+ from_option str "" last)
  = log_text ids +:+ from_option str "" last.
Proof.
  intros Heol. induction ids as [|x ids IH]; cbn [lines_with log_text append].
  - destruct last as [k|]; cbn [from_option]; [apply universal_newlines_str|reflexivity].
  - unfold line. rewrite !append_assoc. rewrite universal_newlines_app by apply str_not_CR.
    f_equal. pose proof (not_LF_head eol ids last) as Hhead.
    destruct Heol as [<-|[<-|[<-|[]]]]; cbn [append].
    + cbn [Os.universal_newlines]. change (Ascii.eqb LF CR) with false. cbv iota.
      rewrite IH. reflexivity.
    + change (Os.universal_newlines
                (String CR (String LF (lines_with (String CR (String LF "")) ids
                                       +:+ from_option str "" last))))
        with (String LF (Os.universal_newlines
                (lines_with (String CR (String LF "")) ids +:+ from_option str "" last))).
      rewrite IH. reflexivity.
    + rewrite <- IH.
      destruct (lines_with (String CR "") ids +:+ from_option str "" last) as [|c s];
        [reflexivity|].
      change (Os.universal_newlines (String CR (String c s)))
        with (String LF (if Ascii.eqb c LF then Os.universal_newlines s
                         else Os.universal_newlines (String c s))).
      rewrite Hhead. reflexivity.
Qed.

Lemma splitlines_log_text_app (ids : list Z) (t : string) :
  splitlines (log_text ids +:+ t) = map str ids ++ splitlines t.
Proof.
  induction ids as [|x ids IH]; [reflexivity|].
  cbn [log_text map app]. unfold line. rewrite !append_assoc. cbn [append].
  rewrite splitlines_line, IH; [reflexivity|].
  apply (sall_impl is_num_char); [apply num_char_no_linebreak|apply str_all_num].
Qed.

Lemma splitlines_one (s : string) :
  s <> "" -> sall no_linebreak s = true -> splitlines s = [s].
Proof.
  induction s as [|c s IH]; [congruence|]. intros _. cbn [sall].
  intros [Hc Hs]%andb_true_iff. unfold no_linebreak in Hc. apply negb_true_iff in Hc.
  cbn [splitlines]. rewrite Hc. destruct s as [|c' s]; [reflexivity|].
  rewrite IH; [reflexivity|congruence|exact Hs].
Qed.

Lemma splitlines_str (z : Z) : splitlines (str z) = [str z].
Proof.
  apply splitlines_one.
  - destruct (JsonFacts.str_head z) as (c & s & -> & _). congruence.
  - apply (sall_impl is_num_char); [apply num_char_no_linebreak|apply str_all_num].
Qed.

Lemma parse_lines_app (ids : list Z) (l : list string) :
  mapM (fun cid => int (strip cid)) (map str ids ++ l)
  = (xs ← mapM (fun cid => int (strip cid)) l; mret (ids ++ xs)).
Proof.
  induction ids as [|x ids IH]; cbn [map app].
  - destruct (mapM _ l); reflexivity.
  - cbn [mapM]. rewrite strip_id, int_str.
    2:{ apply (sall_impl is_num_char); [apply num_char_no_space|apply str_all_num]. }
    cbn [mbind result_bind]. rewrite IH.
    destruct (mapM _ l); reflexivity.
Qed.

Lemma load_cluster_ids_file (fs : filesystem) (map_dir : path) (text : string) :
  fs !! _cluster_ids_path map_dir = Some (File text) ->
  load_cluster_ids map_dir fs
  = (mapM (fun cid => int (strip cid)) (splitlines (Os.universal_newlines text)), fs).
Proof.
  intros H. unfold load_cluster_ids, mbind, M_bind. rewrite (read_text_file fs _ _ H).
  reflexivity.
Qed.

(** X11. [load_cluster_ids] returns the empty list from a log that is
    there and empty.  It skips no line: a log with an empty line in it
    raises [ValueError], whatever stands before and after that line. *)
Theorem load_cluster_ids_empty_line (fs : filesystem) (map_dir : path) :
  (fs !! _cluster_ids_path map_dir = Some (File "") ->
   load_cluster_ids map_dir fs = (Ok [], fs)) /\
  (forall (ids : list Z) (rest : string),
   fs !! _cluster_ids_path map_dir = Some (File (log_text ids +:+ String LF rest)) ->
   load_cluster_ids map_dir fs = (Raise ValueError, fs)).
Proof.
  split.
  - intros Hp. rewrite (load_cluster_ids_file fs map_dir _ Hp). reflexivity.
  - intros ids rest Hp. rewrite (load_cluster_ids_file fs map_dir _ Hp).
    rewrite universal_newlines_app
      by (apply (sall_impl is_line_char); [apply line_char_not_CR|apply log_text_chars]).
    cbn [Os.universal_newlines]. change (Ascii.eqb LF CR) with false. cbv iota.
    rewrite splitlines_log_text_app.
    rewrite (splitlines_line "" (Os.universal_newlines rest) eq_refl
             : splitlines (String LF (Os.universal_newlines rest)) = _).
    rewrite parse_lines_app. reflexivity.
Qed.

(** X12. [load_cluster_ids] reads the entries of a log whose lines end in
    LF, in CR LF or in CR, and takes a last line with no line end after it
    as an entry. *)
Theorem load_cluster_ids_line_ends
    (fs : filesystem) (map_dir : path) (eol : string) (ids : list Z) (last : option Z) :
  In eol line_ends ->
  fs !! _cluster_ids_path map_dir
  = Some (File (lines_with eol ids +:+ from_option str "" last)) ->
  load_cluster_ids map_dir fs = (Ok (ids ++ option_list last), fs).
Proof.
  intros Heol Hp. rewrite (load_cluster_ids_file fs map_dir _ Hp).
  rewrite (universal_newlines_lines eol ids last Heol), splitlines_log_text_app, parse_lines_app.
  destruct last as [k|]; cbn [from_option option_list].
  - rewrite splitlines_str. cbn [mapM]. rewrite strip_id, int_str; [reflexivity|].
    apply (sall_impl is_num_char); [apply num_char_no_space|apply str_all_num].
  - reflexivity.
Qed.

Definition padded_count_fs : filesystem :=
  <[_num_components_path example_dir := File (" " +:+ str 12 +:+ String CR (String LF ""))]>
    example_fs.

Definition blank_line_fs : filesystem :=
  <[_cluster_ids_path example_dir := File (log_text [5; 17]%Z +:+ String LF (log_text [9]%Z))]>
    example_fs.

Definition crlf_log_fs : filesystem :=
  <[_cluster_ids_path example_dir :=
      File (lines_with (String CR (String LF "")) [5; 17]%Z +:+ from_option str "" (Some 9%Z))]>
    example_fs.

Lemma load_num_components_padded_witness :
  load_num_components example_dir padded_count_fs = (Ok 12%Z, padded_count_fs).
Proof.
  apply (load_num_components_padded padded_count_fs example_dir 12 " "
           (String CR (String LF ""))); reflexivity.
Defined.

Lemma load_cluster_ids_empty_line_witness :
  load_cluster_ids example_dir blank_line_fs = (Raise ValueError, blank_line_fs).
Proof.
  apply (proj2 (load_cluster_ids_empty_line blank_line_fs example_dir)
           [5; 17]%Z (log_text [9]%Z)).
  reflexivity.
Defined.

Lemma load_cluster_ids_line_ends_witness :
  load_cluster_ids example_dir crlf_log_fs = (Ok [5; 17; 9]%Z, crlf_log_fs).
Proof.
  apply (load_cluster_ids_line_ends crlf_log_fs example_dir (String CR (String LF ""))
           [5; 17]%Z (Some 9%Z)).
  - right. left. reflexivity.
  - reflexivity.
Defined.

End TextStoreEdges.

(** ** What the store leaves alone *)

Module StoreFrame.
Import PyStr PyStrFacts Os OsFacts htio Formats Examples ObjectCodec ObjectCodecEdges.

(** [m] changes no node outside [targets], and removes none. *)
Definition writes_within {A : Type} (m : M A) (targets : path -> Prop) : Prop :=
  forall (fs : filesystem) (q : path),
    (~ targets q -> effect m fs !! q = fs !! q) /\
    (is_Some (fs !! q) -> is_Some (effect m fs !! q)).

(** [m] reads only: it leaves every file system as it finds it. *)
Definition reads_only {A : Type} (m : M A) : Prop :=
  forall fs : filesystem, effect m fs = fs.

Lemma open_write_state (fs : filesystem) (p : path) : snd (Os.open_write p fs) = fs.
Proof.
  destruct (open_write_cases fs p) as [Hw|[[_ ->]|(_ & _ & ->)]]; [|reflexivity..].
  rewrite (open_write_run fs p Hw). reflexivity.
Qed.

Lemma open_read_state (fs : filesystem) (p : path) : snd (Os.open_read p fs) = fs.
Proof.
  unfold Os.open_read, get_fs, mbind, M_bind.
  destruct (fs !! p) as [[|c]|]; reflexivity.
Qed.

Lemma open_write_missing (fs : filesystem) (d : path) (name : string) :
  fs !! d = None -> fs !! (d </> name) = None ->
  Os.open_write (d </> name) fs = (Raise (missing_error fs d), fs).
Proof.
  intros Hd Hp. unfold Os.open_write, get_fs, mbind, M_bind.
  rewrite Hp, parent_joinpath, Hd, (missing_error_below fs d name Hd). reflexivity.
Qed.

Lemma insert_within (fs : filesystem) (p : path) (n : node) (targets : path -> Prop) (q : path) :
  targets p ->
  (~ targets q -> <[p := n]> fs !! q = fs !! q) /\
  (is_Some (fs !! q) -> is_Some (<[p := n]> fs !! q)).
Proof.
  intros Hp. split.
  - intros Hq. apply lookup_insert_ne. intros ->. exact (Hq Hp).
  - intros Hs. rewrite lookup_insert_is_Some. destruct (decide (p = q)); auto.
Qed.

Lemma write_text_within (p : path) (data : string) :
  writes_within (Os.write_text p data) (fun q => q = p).
Proof.
  intros fs q. unfold effect, Os.write_text, mbind, M_bind.
  pose proof (open_write_state fs p) as Hs.
  destruct (Os.open_write p fs) as [[old|e] fs']; cbn [snd] in *; subst fs'.
  - apply (insert_within fs p _ (fun q => q = p)). reflexivity.
  - auto.
Qed.

Lemma append_text_within (p : path) (data : string) :
  writes_within (Os.append_text p data) (fun q => q = p).
Proof.
  intros fs q. unfold effect, Os.append_text, mbind, M_bind.
  pose proof (open_write_state fs p) as Hs.
  destruct (Os.open_write p fs) as [[old|e] fs']; cbn [snd] in *; subst fs'.
  - apply (insert_within fs p _ (fun q => q = p)). reflexivity.
  - auto.
Qed.

Lemma read_text_state (fs : filesystem) (p : path) : snd (Os.read_text p fs) = fs.
Proof.
  unfold Os.read_text, mbind, M_bind. pose proof (open_read_state fs p) as Hs.
  destruct (Os.open_read p fs) as [[c|e] fs']; exact Hs.
Qed.

Lemma read_then_lift {A B : Type} (m : M A) (f : A -> result B) :
  reads_only m -> reads_only (x ← m; lift (f x)).
Proof.
  intros Hm fs. specialize (Hm fs). unfold effect, mbind, M_bind in *.
  destruct (m fs) as [[a|e] fs']; exact Hm.
Qed.

Section WithBackends.
Context {V : Type} `{!Codec V} {Submit : Type} `{!Htcondor Submit}.

Lemma save_object_within (obj : V) (p : path) :
  writes_within (save_object obj p) (fun q => q = p).
Proof.
  intros fs q. unfold effect.
  destruct (save_object_cases fs obj p) as [->|(e & -> & _)]; cbn [snd].
  - apply (insert_within fs p _ (fun q => q = p)). reflexivity.
  - auto.
Qed.

Lemma save_inputs_from_within (base : path) (items : list V) : forall i : Z,
  writes_within
    (for_each (enumerate_from i items)
       (fun '(component, a_and_k) => save_object a_and_k (base </> input_name component)))
    (fun q => exists k : nat, k < length items /\ q = base </> input_name (i + Z.of_nat k)).
Proof.
  induction items as [|item items IH]; intros i fs q; [cbn; auto|].
  cbn [enumerate_from for_each]. unfold effect, mbind, M_bind.
  pose proof (save_object_within item (base </> input_name i) fs q) as [Hother Hkeep].
  unfold effect in Hother, Hkeep.
  destruct (save_object item (base </> input_name i) fs) as [[[]|e] fs1]; cbn [snd] in *.
  - destruct (IH (i + 1)%Z fs1 q) as [IHother IHkeep]. unfold effect in IHother, IHkeep.
    split.
    + intros Hq. rewrite IHother, Hother; [reflexivity| |].
      * intros ->. apply Hq. exists 0%nat. rewrite Z.add_0_r. cbn [length]. split; [lia|reflexivity].
      * intros (k & Hk & ->). apply Hq. exists (S k). cbn [length]. split; [lia|].
        f_equal. f_equal. lia.
    + intros Hs. apply IHkeep, Hkeep, Hs.
  - split; [|exact Hkeep]. intros Hq. apply Hother. intros ->. apply Hq.
    exists 0%nat. rewrite Z.add_0_r. cbn [length]. split; [lia|reflexivity].
Qed.

(** X13. Every writer of the store changes the node at its own path and
    no other, and removes none, whether it returns or raises: the file of
    the function, of the count, of the cluster ids, of the item data and
    of the submit description each have one writer, and [save_inputs]
    touches the files of the components of its list alone. *)
Theorem writers_keep_to_their_files
    (map_dir : path) (func : V) (args_and_kwargs : list V) (num_components cluster_id : Z)
    (itemdata : list Json.dict) (submit : Submit) :
  writes_within (save_func map_dir func) (fun q => q = map_dir </> names.FUNC) /\
  writes_within (save_inputs map_dir args_and_kwargs)
    (fun q => exists i, i < length args_and_kwargs /\
       q = map_dir </> names.INPUTS_DIR </> input_name (Z.of_nat i)) /\
  writes_within (save_num_components map_dir num_components)
    (fun q => q = _num_components_path map_dir) /\
  writes_within (append_cluster_id map_dir cluster_id)
    (fun q => q = _cluster_ids_path map_dir) /\
  writes_within (save_itemdata map_dir itemdata) (fun q => q = _itemdata_path map_dir) /\
  writes_within (save_submit map_dir submit) (fun q => q = _submit_path map_dir).
Proof.
  repeat split.
  - apply save_object_within.
  - apply save_object_within.
  - apply (save_inputs_from_within (map_dir </> names.INPUTS_DIR) args_and_kwargs 0%Z fs q).
  - apply (save_inputs_from_within (map_dir </> names.INPUTS_DIR) args_and_kwargs 0%Z fs q).
  - apply write_text_within.
  - apply write_text_within.
  - apply append_text_within.
  - apply append_text_within.
  - apply write_text_within.
  - apply write_text_within.
  - apply write_text_within.
  - apply write_text_within.
Qed.

(** X14. No loader changes the file system, whether it returns or
    raises: [load_object], [load_num_components], [load_cluster_ids],
    [load_itemdata] and [load_submit] leave every node as it was. *)
Theorem loaders_read_only (map_dir p : path) :
  reads_only (load_object (V := V) p) /\
  reads_only (load_num_components map_dir) /\
  reads_only (load_cluster_ids map_dir) /\
  reads_only (load_itemdata map_dir) /\
  reads_only (load_submit (Submit := Submit) map_dir).
Proof.
  assert (Hread : forall q, reads_only (Os.read_text q))
    by (intros q fs; apply read_text_state).
  repeat split.
  - intros fs. unfold effect, load_object, Gzip.open_rb, mbind, M_bind, lift.
    pose proof (open_read_state fs p) as Hs.
    destruct (Os.open_read p fs) as [[bytes|e] fs']; cbn [snd] in *; [|exact Hs].
    destruct (gunzip bytes) as [stream|e]; [|exact Hs].
    destruct (load stream) as [[obj rest]|e]; exact Hs.
  - apply read_then_lift, Hread.
  - apply read_then_lift, Hread.
  - apply read_then_lift, Hread.
  - intros fs. unfold effect, load_submit, mbind, M_bind, lift.
    pose proof (read_text_state fs (_submit_path map_dir)) as Hs.
    destruct (Os.read_text (_submit_path map_dir) fs) as [[text|e] fs']; cbn [snd] in *;
      [|exact Hs].
    destruct (Json.loads text) as [obj|e]; exact Hs.
Qed.

(** X15. The store creates no map directory: where nothing exists at the
    path of the map directory or below it, every writer raises the error of
    its failed open and leaves the file system as it was.  The error is
    [NotADirectoryError] where the nearest node above the map directory is
    a regular file, and [FileNotFoundError] otherwise. *)
Theorem writers_need_the_map_dir
    (fs : filesystem) (map_dir : path) (func : V) (a_and_k : V) (args_and_kwargs : list V)
    (num_components cluster_id : Z) (itemdata : list Json.dict) (submit : Submit) :
  (forall below : path, fs !! (map_dir ++ below) = None) ->
  let e := missing_error fs map_dir in
  ((exists c, nearest_above fs map_dir = Some (File c)) /\ e = NotADirectoryError \/
   (forall c, nearest_above fs map_dir <> Some (File c)) /\ e = FileNotFoundError) /\
  save_func map_dir func fs = (Raise e, fs) /\
  save_inputs map_dir (a_and_k :: args_and_kwargs) fs = (Raise e, fs) /\
  save_num_components map_dir num_components fs = (Raise e, fs) /\
  append_cluster_id map_dir cluster_id fs = (Raise e, fs) /\
  save_itemdata map_dir itemdata fs = (Raise e, fs) /\
  save_submit map_dir submit fs = (Raise e, fs).
Proof.
  intros Hnone e.
  assert (Hdir : fs !! map_dir = None)
    by (specialize (Hnone []); rewrite app_nil_r in Hnone; exact Hnone).
  assert (Hfile : forall name, Os.open_write (map_dir </> name) fs = (Raise e, fs)).
  { intros name. apply (open_write_missing fs map_dir name Hdir), Hnone. }
  assert (Hinput : Os.open_write (map_dir </> names.INPUTS_DIR </> input_name 0) fs
                   = (Raise e, fs)).
  { rewrite open_write_missing.
    - unfold e. rewrite (missing_error_below fs map_dir _ Hdir). reflexivity.
    - apply Hnone.
    - unfold joinpath. rewrite <- app_assoc. apply Hnone. }
  split; [|repeat split].
  - unfold e, missing_error. destruct (nearest_above fs map_dir) as [[|c]|].
    + right. split; [congruence|reflexivity].
    + left. split; [eauto|reflexivity].
    + right. split; [congruence|reflexivity].
  - unfold save_func, save_object, Gzip.open_wb, mbind, M_bind. rewrite Hfile. reflexivity.
  - unfold save_inputs, enumerate. cbn [enumerate_from for_each].
    unfold save_object, Gzip.open_wb, mbind, M_bind. rewrite Hinput. reflexivity.
  - unfold save_num_components, _num_components_path, Os.write_text, mbind, M_bind.
    rewrite Hfile. reflexivity.
  - unfold append_cluster_id, _cluster_ids_path, Os.append_text, mbind, M_bind.
    rewrite Hfile. reflexivity.
  - unfold save_itemdata, _itemdata_path, Os.write_text, mbind, M_bind.
    rewrite Hfile. reflexivity.
  - unfold save_submit, _submit_path, Os.write_text, mbind, M_bind.
    rewrite Hfile. reflexivity.
Qed.

End WithBackends.

Lemma writers_need_the_map_dir_witness :
  (save_func ["maps"; "gone"] (RefCodec.Closure 7 3) example_fs
   = (Raise FileNotFoundError, example_fs) /\
   save_inputs ["maps"; "gone"] (RefCodec.Integer 5 :: []) example_fs
   = (Raise FileNotFoundError, example_fs) /\
   save_num_components ["maps"; "gone"] 3 example_fs = (Raise FileNotFoundError, example_fs) /\
   append_cluster_id ["maps"; "gone"] 5 example_fs = (Raise FileNotFoundError, example_fs) /\
   save_itemdata ["maps"; "gone"] example_itemdata example_fs
   = (Raise FileNotFoundError, example_fs) /\
   save_submit ["maps"; "gone"] RefSubmit.example_submit example_fs
   = (Raise FileNotFoundError, example_fs)) /\
  (save_func (example_dir </> "notes" </> "sub") (RefCodec.Closure 7 3) below_a_file_fs
   = (Raise NotADirectoryError, below_a_file_fs) /\
   save_num_components (example_dir </> "notes" </> "sub") 3 below_a_file_fs
   = (Raise NotADirectoryError, below_a_file_fs)).
Proof.
  split.
  - refine (proj2 (writers_need_the_map_dir example_fs ["maps"; "gone"] (RefCodec.Closure 7 3)
              (RefCodec.Integer 5) [] 3 5 example_itemdata RefSubmit.example_submit _)).
    intros below. unfold example_fs, example_dir.
    rewrite lookup_insert_ne by discriminate.
    rewrite lookup_singleton_ne by discriminate. reflexivity.
  - destruct (writers_need_the_map_dir below_a_file_fs (example_dir </> "notes" </> "sub")
                (RefCodec.Closure 7 3) (RefCodec.Integer 5) [] 3 5 example_itemdata
                RefSubmit.example_submit) as (_ & Hf & _ & Hn & _).
    + intros below. unfold below_a_file_fs, example_fs, example_dir, joinpath. cbn [app].
      rewrite lookup_insert_ne by discriminate.
      rewrite lookup_insert_ne by discriminate.
      rewrite lookup_singleton_ne by discriminate. reflexivity.
    + split; [exact Hf|exact Hn].
Defined.

End StoreFrame.

(** ** The submit description: [save_submit], [load_submit] *)

Module SubmitStore.
Import PyStr PyStrFacts Os OsFacts htio Examples Json JsonFacts JsonIndent JsonIndentFacts
  DocumentStore.

Section WithHtcondor.
Context {Submit : Type} `{!Htcondor Submit}.

Lemma save_submit_run (fs : filesystem) (map_dir : path) (submit : Submit) :
  can_write fs (_submit_path map_dir) ->
  save_submit map_dir submit fs
  = (Ok tt, <[_submit_path map_dir :=
               File (JsonIndent.dumps 4 (", ", ": ") (Dict (submit_dict submit)))]> fs).
Proof. intros H. unfold save_submit. apply write_text_run, H. Qed.

Lemma load_submit_file (fs : filesystem) (map_dir : path) (text : string) :
  fs !! _submit_path map_dir = Some (File text) ->
  load_submit map_dir fs
  = (obj ← loads (Os.universal_newlines text); submit_new obj, fs).
Proof.
  intros H. unfold load_submit, mbind at 1 2, M_bind.
  rewrite (read_text_file fs _ text H). unfold lift.
  destruct (loads (Os.universal_newlines text)); reflexivity.
Qed.

(** X16. [save_submit] followed by [load_submit] gives the constructor
    [htcondor.Submit] exactly the mapping [dict(submit)] that was saved:
    what is loaded is [htcondor.Submit(dict(submit))].  The file holds the
    mapping as a JSON object laid out with an indent of four blanks. *)
Theorem save_load_submit (fs : filesystem) (map_dir : path) (submit : Submit) :
  fs !! map_dir = Some Dir ->
  fs !! _submit_path map_dir <> Some Dir ->
  keys_unique (Dict (submit_dict submit)) = true ->
  outcome (save_submit map_dir submit ≫= fun _ => load_submit map_dir) fs
  = submit_new (Dict (submit_dict submit)) /\
  effect (save_submit map_dir submit) fs !! _submit_path map_dir
  = Some (File (JsonIndent.dumps 4 (", ", ": ") (Dict (submit_dict submit)))).
Proof.
  intros Hd Hp Hk.
  assert (Hw : can_write fs (_submit_path map_dir)) by (apply can_write_in_dir; assumption).
  unfold outcome, effect, mbind, M_bind. rewrite (save_submit_run fs map_dir submit Hw).
  cbn [snd]. split; [|apply lookup_insert_eq].
  rewrite (load_submit_file _ map_dir _ (lookup_insert_eq _ _ _)).
  rewrite universal_newlines_indent, (loads_dumps_indent 4 _ Hk). reflexivity.
Qed.

(** X17. The loaders do not depend on the layout their writers chose:
    [load_itemdata] reads a document laid out with an indent of any width
    as it reads the compact one, and [load_submit] reads a compact
    description as it reads the indented one. *)
Theorem loaders_accept_either_layout (fs : filesystem) (map_dir : path) :
  (forall (width : nat) (document : value),
   keys_unique document = true ->
   fs !! _itemdata_path map_dir
   = Some (File (JsonIndent.dumps width (", ", ": ") document)) ->
   load_itemdata map_dir fs = (Ok document, fs)) /\
  (forall members : dict,
   keys_unique (Dict members) = true ->
   fs !! _submit_path map_dir = Some (File (Json.dumps (",", ":") (Dict members))) ->
   load_submit map_dir fs = (submit_new (Dict members), fs)).
Proof.
  split.
  - intros width document Hk Hp. rewrite (load_itemdata_file fs map_dir _ Hp).
    rewrite universal_newlines_indent, (loads_dumps_indent width _ Hk). reflexivity.
  - intros members Hk Hp. rewrite (load_submit_file fs map_dir _ Hp).
    change (Json.dumps (",", ":") (Dict members)) with (enc (Dict members)).
    rewrite universal_newlines_enc.
    change (enc (Dict members)) with (Json.dumps (",", ":") (Dict members)).
    rewrite (loads_dumps _ Hk). reflexivity.
Qed.

End WithHtcondor.

Lemma save_load_submit_witness :
  outcome (save_submit example_dir RefSubmit.example_submit
           ≫= fun _ => load_submit example_dir) example_fs
  = Ok RefSubmit.example_submit /\
  effect (save_submit example_dir RefSubmit.example_submit) example_fs
    !! _submit_path example_dir
  = Some (File (JsonIndent.dumps 4 (", ", ": ") (Dict RefSubmit.example_submit))).
Proof.
  refine (save_load_submit example_fs example_dir RefSubmit.example_submit _ _ _).
  - reflexivity.
  - vm_compute. congruence.
  - reflexivity.
Defined.

Definition indented_itemdata_fs : filesystem :=
  <[_itemdata_path example_dir :=
      File (JsonIndent.dumps 2 (", ", ": ") (List (map Dict example_itemdata)))]> example_fs.

Lemma loaders_accept_either_layout_witness :
  load_itemdata example_dir indented_itemdata_fs
  = (Ok (List (map Dict example_itemdata)), indented_itemdata_fs).
Proof.
  refine (proj1 (loaders_accept_either_layout (Submit := RefSubmit.description)
                   indented_itemdata_fs example_dir)
            2 (List (map Dict example_itemdata)) _ _); reflexivity.
Defined.

End SubmitStore.

(** ** Truncated documents *)

Module TruncatedDocument.
Import PyStr PyStrFacts Os OsFacts htio Examples Json JsonFacts DocumentStore.

(** [begins p t]: the text [t] begins with [p].  [cut p t]: it begins
    with [p] and goes on after it, by one character at least. *)
Definition begins (p t : string) : Prop := exists x, t = p +:+ x.
Definition cut (p t : string) : Prop := exists c x, t = p +:+ String c x.

Lemma split_app (a : string) : forall p x b : string,
  a +:+ b = p +:+ x ->
  (exists c y, a = p +:+ String c y /\ x = String c y +:+ b) \/
  (exists p', p = a +:+ p' /\ b = p' +:+ x).
Proof.
  induction a as [|c a IH]; intros p x b E.
  - right. exists p. split; [reflexivity|exact E].
  - destruct p as [|d p].
    + left. exists c, a. split; [reflexivity|]. cbn [append] in E. symmetry. exact E.
    + cbn [append] in E. injection E as <- E.
      destruct (IH p x b E) as [(c' & y & -> & ->)|(p' & -> & ->)].
      * left. exists c', y. split; reflexivity.
      * right. exists p'. split; reflexivity.
Qed.

Lemma cut_begins (p t : string) : cut p t -> begins p t.
Proof. intros (c & x & ->). eexists. reflexivity. Qed.

Lemma begins_refl (t : string) : begins t t.
Proof. exists "". symmetry. apply append_nil_r. Qed.

Lemma begins_app (p a b : string) :
  begins p (a +:+ b) -> cut p a \/ exists p', p = a +:+ p' /\ begins p' b.
Proof.
  intros (x & E). destruct (split_app a p x b E) as [(c & y & -> & _)|(p' & -> & ->)].
  - left. exists c, y. reflexivity.
  - right. exists p'. split; [reflexivity|]. exists x. reflexivity.
Qed.

Lemma cut_app (p a b : string) :
  cut p (a +:+ b) -> cut p a \/ exists p', p = a +:+ p' /\ cut p' b.
Proof.
  intros (c & x & E). destruct (split_app a p _ b E) as [(c' & y & -> & _)|(p' & -> & ->)].
  - left. exists c', y. reflexivity.
  - right. exists p'. split; [reflexivity|]. exists c, x. reflexivity.
Qed.

Lemma begins_nil (p : string) : begins p "" -> p = "".
Proof. intros (x & E). destruct p; [reflexivity|discriminate]. Qed.

Lemma cut_nil (p : string) : ~ cut p "".
Proof. intros (c & x & E). destruct p; discriminate. Qed.

Lemma begins_cons (p : string) (c : ascii) (t : string) :
  begins p (String c t) -> p = "" \/ exists p', p = String c p' /\ begins p' t.
Proof.
  intros (x & E). destruct p as [|d p]; [left; reflexivity|right].
  cbn [append] in E. injection E as <- ->. exists p. split; [reflexivity|]. exists x. reflexivity.
Qed.

Lemma cut_cons (p : string) (c : ascii) (t : string) :
  cut p (String c t) -> p = "" \/ exists p', p = String c p' /\ cut p' t.
Proof.
  intros (d & x & E). destruct p as [|e p]; [left; reflexivity|right].
  cbn [append] in E. injection E as <- ->. exists p. split; [reflexivity|].
  exists d, x. reflexivity.
Qed.

Lemma cut_snoc (p a : string) (c : ascii) : cut p (a +:+ String c "") -> begins p a.
Proof.
  intros [H|(p' & -> & H)]%cut_app; [apply cut_begins, H|].
  apply cut_cons in H as [->|(p'' & _ & H)]; [|destruct (cut_nil _ H)].
  rewrite append_nil_r. apply begins_refl.
Qed.

Lemma begins_length (p t : string) : begins p t -> String.length p <= String.length t.
Proof. intros (x & ->). rewrite length_append. lia. Qed.

Lemma begins_sall (f : ascii -> bool) (p t : string) :
  begins p t -> sall f t = true -> sall f p = true.
Proof. intros (x & ->). rewrite sall_app. intros [H _]%andb_true_iff. exact H. Qed.

Ltac cut_cases H :=
  repeat match type of H with
         | cut _ (String _ _) =>
             let p := fresh "p" in apply cut_cons in H as [->|(p & -> & H)]
         | cut _ "" => destruct (cut_nil _ H)
         end.

(** *** Strings *)

Lemma escape_char_shape (c : ascii) :
  escape_char c = String c "" \/
  (exists e, escape_char c = String BACKSLASH (String e "")) \/
  (exists h1 h2, escape_char c
     = String BACKSLASH (String "u" (String "0" (String "0" (String h1 (String h2 "")))))).
Proof.
  unfold escape_char.
  repeat match goal with
         | |- context [if (?a =? ?b)%N then _ else _] => destruct (a =? b)%N; [eauto|]
         end.
  destruct (in_range 32 126 c); eauto.
Qed.

Lemma scanstring_cut_escape_char (c : ascii) (p : string) :
  cut p (escape_char c) -> scanstring p = Raise JSONDecodeError.
Proof.
  destruct (escape_char_shape c) as [->|[(e & ->)|(h1 & h2 & ->)]]; intros H;
    cut_cases H; reflexivity.
Qed.

Lemma scanstring_begins_escape (s : string) : forall p : string,
  begins p (escape s) -> scanstring p = Raise JSONDecodeError.
Proof.
  induction s as [|c s IH]; intros p H.
  - apply begins_nil in H as ->. reflexivity.
  - cbn [escape] in H. apply begins_app in H as [H|(p' & -> & H)].
    + apply (scanstring_cut_escape_char c p H).
    + rewrite scanstring_escape_char, (IH p' H). reflexivity.
Qed.

Lemma scan_once_cut_string (s p : string) (fuel : nat) :
  cut p (encode_string s) -> scan_once (S fuel) p = Raise JSONDecodeError.
Proof.
  unfold encode_string. intros H. apply cut_cons in H as [->|(p' & -> & H)]; [reflexivity|].
  apply cut_snoc in H. cbn [scan_once]. change (Ascii.eqb QUOTE QUOTE) with true. cbv iota.
  rewrite (scanstring_begins_escape s p' H). reflexivity.
Qed.

(** *** Numbers and literals *)

Lemma span_digits_all (s : string) : forall acc : N,
  sall is_digit s = true -> exists n, span_digits acc s = (n, "").
Proof.
  induction s as [|c s IH]; intros acc; [exists acc; reflexivity|].
  cbn [sall]. intros [Hc Hs]%andb_true_iff. cbn [span_digits]. rewrite Hc. apply IH, Hs.
Qed.

Lemma match_number_digits (c : ascii) (s : string) :
  is_digit c = true -> Ascii.eqb c "0" = false -> sall is_digit s = true ->
  exists n, match_number (String c s) = Some (Ok (Int (Z.of_N n), ""))
         /\ match_number (String "-" (String c s)) = Some (Ok (Int (- Z.of_N n), "")).
Proof.
  intros Hc H0 Hs.
  destruct (span_digits_all (String c s) 0) as (n & Hn); [cbn [sall]; rewrite Hc, Hs; reflexivity|].
  exists n. unfold match_number. destruct (digit_not_sign c Hc) as [Hm _].
  rewrite Hm. change (Ascii.eqb "-" "-") with true. cbv iota. rewrite Hc, H0, Hn. split; reflexivity.
Qed.

Lemma scan_once_cut_number (z : Z) (p : string) (fuel : nat) :
  cut p (str z) ->
  scan_once (S fuel) p = Raise JSONDecodeError \/
  exists m, scan_once (S fuel) p = Ok (Int m, "").
Proof.
  assert (Hpos : forall q p', cut p' (str_of_N (N.pos q)) -> p' = "" \/
            exists n, match_number p' = Some (Ok (Int (Z.of_N n), ""))
                   /\ match_number (String "-" p') = Some (Ok (Int (- Z.of_N n), ""))
                   /\ starts_with_digit p' = true).
  { intros q p' H. destruct (str_of_N_pos_head q) as (c & s & E & Hc & H0).
    pose proof (digits_all_digit (S (N.to_nat (N.log2 (N.pos q)))) (N.pos q)) as Hall.
    fold (str_of_N (N.pos q)) in Hall. rewrite E in *.
    apply cut_cons in H as [->|(p'' & -> & H)]; [left; reflexivity|right].
    cbn [sall] in Hall. apply andb_true_iff in Hall as [_ Hall].
    destruct (match_number_digits c p'' Hc H0 (begins_sall _ _ _ (cut_begins _ _ H) Hall))
      as (n & H1 & H2).
    exists n. split; [exact H1|]. split; [exact H2|exact Hc]. }
  intros H. destruct z as [|q|q].
  - left. change (str 0) with "0" in H. cut_cases H. reflexivity.
  - change (str (Z.pos q)) with (str_of_N (N.pos q)) in H.
    destruct (Hpos q p H) as [->|(n & H1 & _ & Hd)]; [left; reflexivity|right].
    exists (Z.of_N n). rewrite scan_once_number, H1; [reflexivity|].
    destruct p as [|c s]; [discriminate|]. cbn [number_start starts_with_digit] in *.
    rewrite Hd. reflexivity.
  - change (str (Z.neg q)) with (String "-" (str_of_N (N.pos q))) in H.
    apply cut_cons in H as [->|(p' & -> & H)]; [left; reflexivity|].
    destruct (Hpos q p' H) as [->|(n & _ & H2 & Hd)]; [left; reflexivity|right].
    exists (- Z.of_N n)%Z. rewrite scan_once_number, H2; [reflexivity|].
    cbn [number_start]. rewrite Hd. reflexivity.
Qed.

(** *** Values *)

(** What [scan_once] makes of an encoding that was cut: it raises, or, in
    the middle of a number, takes the digits it has for the number. *)
Definition cut_fails (v : value) : Prop :=
  keys_unique v = true ->
  forall (p : string) (fuel : nat),
    cut p (enc v) -> 2 * String.length p + 1 <= fuel ->
    scan_once fuel p = Raise JSONDecodeError \/
    exists n m, v = Int n /\ scan_once fuel p = Ok (Int m, "").

Lemma begins_delim (p : string) (l : list value) :
  begins p match l with
           | [] => ""
           | _ => "," +:+ enc_items l
           end ->
  is_delim p = true.
Proof.
  destruct l as [|x l]; intros H.
  - apply begins_nil in H as ->. reflexivity.
  - apply begins_cons in H as [->|(p' & -> & _)]; reflexivity.
Qed.

Lemma skip_ws_begins_items (p : string) (l : list value) :
  begins p (enc_items l) -> skip_ws p = p.
Proof.
  intros H. destruct l as [|x l]; [apply begins_nil in H as ->; reflexivity|].
  destruct (enc_items_head x l "") as (c & s & E & Hc). rewrite append_nil_r in E.
  rewrite E in H. apply begins_cons in H as [->|(p' & -> & _)]; [reflexivity|].
  apply skip_ws_head, Hc.
Qed.

Lemma scan_items_cut (items : list value) :
  Forall cut_fails items ->
  forallb keys_unique items = true ->
  forall (p : string) (fuel : nat),
    begins p (enc_items items) -> 2 * String.length p + 2 <= fuel ->
    scan_items fuel p = Raise JSONDecodeError.
Proof.
  induction items as [|item l IH]; intros Hall Hu p fuel Hp Hf.
  - apply begins_nil in Hp as ->. destruct fuel as [|[|fuel]]; [cbn in Hf; lia..|reflexivity].
  - apply Forall_cons in Hall as [Hitem Hall].
    cbn [forallb] in Hu. apply andb_true_iff in Hu as [Hu Hul].
    destruct fuel as [|fuel]; [lia|].
    unfold enc_items in Hp. cbn [encode_items] in Hp.
    change (encode "," ":") with enc in Hp. change (encode_items "," ":") with enc_items in Hp.
    cbn [scan_items].
    apply begins_app in Hp as [Hp|(p' & -> & Hp)].
    + destruct (Hitem Hu p fuel Hp ltac:(lia)) as [->|(n & m & _ & ->)]; reflexivity.
    + rewrite length_append in Hf. pose proof (need_bound item) as Hn.
      rewrite (scan_once_encode item Hu fuel p') by (lia || apply (begins_delim p' l Hp)).
      cbn [mbind result_bind].
      destruct l as [|x l]; [apply begins_nil in Hp as ->; reflexivity|].
      apply begins_cons in Hp as [->|(p'' & -> & Hp)]; [reflexivity|].
      cbn [skip_ws]. change (is_ws ",") with false. cbv iota.
      change (Ascii.eqb "," "]") with false. change (Ascii.eqb "," ",") with true. cbv iota.
      rewrite (skip_ws_begins_items p'' (x :: l) Hp).
      rewrite (IH Hall Hul p'' fuel Hp); [reflexivity|].
      cbn [String.length] in Hf. lia.
Qed.

Lemma begins_delim_members (p : string) (l : dict) :
  begins p match l with
           | [] => ""
           | _ => "," +:+ enc_members l
           end ->
  is_delim p = true.
Proof.
  destruct l as [|x l]; intros H.
  - apply begins_nil in H as ->. reflexivity.
  - apply begins_cons in H as [->|(p' & -> & _)]; reflexivity.
Qed.

Lemma skip_ws_cut_value (p : string) (v : value) : begins p (enc v) -> skip_ws p = p.
Proof.
  intros H. destruct (encode_head "," ":" v) as (c & s & E & Hc). unfold enc in H.
  rewrite E in H. apply begins_cons in H as [->|(p' & -> & _)]; [reflexivity|].
  apply skip_ws_head, Hc.
Qed.

Lemma skip_ws_begins_members (p : string) (l : dict) :
  begins p (enc_members l) -> skip_ws p = p.
Proof.
  intros H. destruct l as [|[key item] l]; [apply begins_nil in H as ->; reflexivity|].
  unfold enc_members in H. cbn [encode_members] in H.
  rewrite ?append_assoc, encode_string_app in H.
  apply begins_cons in H as [->|(p' & -> & _)]; reflexivity.
Qed.

Lemma scan_members_cut (members : dict) :
  Forall (fun member => cut_fails (snd member)) members ->
  forallb (fun member => keys_unique (snd member)) members = true ->
  forall (p : string) (fuel : nat),
    begins p (enc_members members) -> 2 * String.length p + 2 <= fuel ->
    scan_members fuel p = Raise JSONDecodeError.
Proof.
  induction members as [|[key item] l IH]; intros Hall Hu p fuel Hp Hf.
  - apply begins_nil in Hp as ->. destruct fuel as [|fuel]; [cbn in Hf; lia|reflexivity].
  - apply Forall_cons in Hall as [Hitem Hall]. cbn [snd] in Hitem.
    cbn [forallb snd] in Hu. apply andb_true_iff in Hu as [Hu Hul].
    destruct fuel as [|fuel]; [lia|].
    unfold enc_members in Hp. cbn [encode_members] in Hp.
    change (encode "," ":") with enc in Hp. change (encode_members "," ":") with enc_members in Hp.
    apply begins_app in Hp as [Hp|(p1 & -> & Hp)].
    { (* the key is cut *)
      unfold encode_string in Hp. apply cut_cons in Hp as [->|(p' & -> & Hp)]; [reflexivity|].
      apply cut_snoc in Hp. cbn [scan_members]. change (Ascii.eqb QUOTE QUOTE) with true. cbv iota.
      rewrite (scanstring_begins_escape key p' Hp). reflexivity. }
    rewrite encode_string_app. cbn [scan_members].
    change (Ascii.eqb QUOTE QUOTE) with true. cbv iota.
    rewrite scanstring_escape. cbn [mbind result_bind].
    rewrite length_append in Hf.
    assert (Hkey : 2 <= String.length (encode_string key))
      by (unfold encode_string; cbn [String.length]; rewrite length_append; cbn; lia).
    apply begins_cons in Hp as [->|(p2 & -> & Hp)]; [reflexivity|].
    cbn [skip_ws]. change (is_ws ":") with false. cbv iota.
    change (Ascii.eqb ":" ":") with true. cbv iota.
    cbn [String.length] in Hf.
    apply begins_app in Hp as [Hp|(p3 & -> & Hp)].
    { (* the value is cut *)
      rewrite (skip_ws_cut_value p2 item (cut_begins _ _ Hp)).
      destruct (Hitem Hu p2 fuel Hp ltac:(lia)) as [->|(n & m & _ & ->)]; reflexivity. }
    rewrite skip_ws_enc. rewrite length_append in Hf. pose proof (need_bound item) as Hn.
    rewrite (scan_once_encode item Hu fuel p3) by (lia || apply (begins_delim_members p3 l Hp)).
    cbn [mbind result_bind].
    destruct l as [|x l]; [apply begins_nil in Hp as ->; reflexivity|].
    apply begins_cons in Hp as [->|(p4 & -> & Hp)]; [reflexivity|].
    cbn [skip_ws]. change (is_ws ",") with false. cbv iota.
    change (Ascii.eqb "," "}") with false. change (Ascii.eqb "," ",") with true. cbv iota.
    rewrite (skip_ws_begins_members p4 (x :: l) Hp).
    rewrite (IH Hall Hul p4 fuel Hp); [reflexivity|].
    cbn [String.length] in Hf. lia.
Qed.

Lemma scan_once_cut (v : value) : cut_fails v.
Proof.
  induction v as [|b|n|s|items IH|members IH] using value_induction;
    intros Hu p fuel Hp Hf; (destruct fuel as [|fuel]; [lia|]).
  - left. change (enc Null) with "null" in Hp. cut_cases Hp; reflexivity.
  - left. destruct b; [change (enc (Bool true)) with "true" in Hp
                      |change (enc (Bool false)) with "false" in Hp];
      cut_cases Hp; reflexivity.
  - destruct (scan_once_cut_number n p fuel Hp) as [->|(m & ->)]; [left; reflexivity|right].
    exists n, m. split; reflexivity.
  - left. apply (scan_once_cut_string s p fuel Hp).
  - left. unfold enc in Hp. rewrite encode_List in Hp. cbn [append] in Hp.
    apply cut_cons in Hp as [->|(p' & -> & Hp)]; [reflexivity|].
    apply cut_snoc in Hp. change (encode_items "," ":") with enc_items in Hp.
    cbn [String.length] in Hf. cbn [scan_once].
    change (Ascii.eqb "[" QUOTE) with false. change (Ascii.eqb "[" "{") with false.
    change (Ascii.eqb "[" "[") with true. cbv iota.
    rewrite (skip_ws_begins_items p' items Hp).
    destruct p' as [|c s]; [reflexivity|].
    destruct items as [|x l]; [apply begins_nil in Hp; discriminate|].
    destruct (enc_items_head x l "") as (c' & s' & E & Hc). rewrite append_nil_r in E.
    pose proof Hp as Hp'. rewrite E in Hp'.
    apply begins_cons in Hp' as [Hp'|(p'' & Hp' & _)]; [discriminate|].
    injection Hp' as -> ->. rewrite (starts_value_not_close c' Hc).
    rewrite (scan_items_cut (x :: l) IH Hu _ fuel Hp); [reflexivity|].
    cbn [String.length] in *. lia.
  - left. unfold enc in Hp. rewrite encode_Dict in Hp. cbn [append] in Hp.
    apply cut_cons in Hp as [->|(p' & -> & Hp)]; [reflexivity|].
    apply cut_snoc in Hp. change (encode_members "," ":") with enc_members in Hp.
    cbn [String.length] in Hf. cbn [scan_once].
    change (Ascii.eqb "{" QUOTE) with false. change (Ascii.eqb "{" "{") with true. cbv iota.
    rewrite (skip_ws_begins_members p' members Hp).
    destruct p' as [|c s]; [reflexivity|].
    destruct members as [|[key item] l]; [apply begins_nil in Hp; discriminate|].
    cbn [keys_unique] in Hu. apply andb_true_iff in Hu as [_ Hu].
    pose proof Hp as Hp'. unfold enc_members in Hp'. cbn [encode_members] in Hp'.
    rewrite ?append_assoc, encode_string_app in Hp'.
    apply begins_cons in Hp' as [Hp'|(p'' & Hp' & _)]; [discriminate|].
    injection Hp' as -> ->. change (Ascii.eqb QUOTE "}") with false. cbv iota.
    rewrite (scan_members_cut ((key, item) :: l) IH Hu _ fuel Hp); [reflexivity|].
    cbn [String.length] in *. lia.
Qed.

Lemma loads_cut (v : value) (p : string) :
  keys_unique v = true -> (forall n, v <> Int n) ->
  cut p (dumps (",", ":") v) -> loads p = Raise JSONDecodeError.
Proof.
  intros Hu Hv Hp. unfold dumps in Hp. cbn [fst snd] in Hp. change (encode "," ":") with enc in Hp.
  unfold loads. rewrite (skip_ws_cut_value p v (cut_begins _ _ Hp)).
  destruct (scan_once_cut v Hu p (2 * String.length p + 2) Hp ltac:(lia))
    as [->|(n & m & -> & _)]; [reflexivity|].
  destruct (Hv n eq_refl).
Qed.

(** X18. A file that holds only a beginning of the text [save_itemdata]
    writes, as an interrupted write leaves it, is not taken for a document:
    whatever the item data and wherever the text was cut, one character or
    more from its end, [load_itemdata] raises [JSONDecodeError]. *)
Theorem load_itemdata_truncated
    (fs : filesystem) (map_dir : path) (itemdata : list dict)
    (stored : string) (c : ascii) (lost : string) :
  keys_unique (List (map Dict itemdata)) = true ->
  dumps (",", ":") (List (map Dict itemdata)) = stored +:+ String c lost ->
  fs !! _itemdata_path map_dir = Some (File stored) ->
  load_itemdata map_dir fs = (Raise JSONDecodeError, fs).
Proof.
  intros Hu Htext Hp. rewrite (load_itemdata_file fs map_dir stored Hp).
  assert (Hcut : cut stored (dumps (",", ":") (List (map Dict itemdata))))
    by (exists c, lost; exact Htext).
  rewrite universal_newlines_id.
  - rewrite (loads_cut _ stored Hu); [reflexivity|congruence|exact Hcut].
  - apply (sall_impl is_printable); [apply printable_not_CR|].
    apply (begins_sall _ _ _ (cut_begins _ _ Hcut)). apply (enc_printable (List (map Dict itemdata))).
Qed.

Definition example_text : string := dumps (",", ":") (List (map Dict example_itemdata)).

Definition truncated_itemdata_fs : filesystem :=
  <[_itemdata_path example_dir := File (substring 0 32 example_text)]> example_fs.

Lemma load_itemdata_truncated_witness :
  load_itemdata example_dir truncated_itemdata_fs
  = (Raise JSONDecodeError, truncated_itemdata_fs).
Proof.
  apply (load_itemdata_truncated truncated_itemdata_fs example_dir example_itemdata
           (substring 0 32 example_text) "," (substring 33 100 example_text)); reflexivity.
Defined.

End TruncatedDocument.

(** ** Saving again, and loading what is not there *)

Module Replacing.
Import PyStr PyStrFacts Os OsFacts htio Formats Examples ObjectCodec Json JsonFacts
  JsonIndentFacts DocumentStore SubmitStore.

Section WithBackends.
Context {V : Type} `{!Codec V} {Submit : Type} `{!Htcondor Submit}.

(** X19. The function, the item data and the submit description are
    replaced, not extended, by a second save: after two saves on the same
    map directory each loader returns what was saved last, whatever was
    saved first. *)
Theorem last_save_wins
    (fs : filesystem) (map_dir : path) (func1 func2 : V)
    (itemdata1 itemdata2 : list dict) (submit1 submit2 : Submit) :
  fs !! map_dir = Some Dir ->
  fs !! (map_dir </> names.FUNC) <> Some Dir ->
  fs !! _itemdata_path map_dir <> Some Dir ->
  fs !! _submit_path map_dir <> Some Dir ->
  keys_unique (List (map Dict itemdata2)) = true ->
  keys_unique (Dict (submit_dict submit2)) = true ->
  (exists func',
     outcome (save_func map_dir func1 ≫= fun _ => save_func map_dir func2
              ≫= fun _ => load_object (map_dir </> names.FUNC)) fs = Ok func' /\
     equiv func2 func') /\
  outcome (save_itemdata map_dir itemdata1 ≫= fun _ => save_itemdata map_dir itemdata2
           ≫= fun _ => load_itemdata map_dir) fs = Ok (List (map Dict itemdata2)) /\
  outcome (save_submit map_dir submit1 ≫= fun _ => save_submit map_dir submit2
           ≫= fun _ => load_submit map_dir) fs = submit_new (Dict (submit_dict submit2)).
Proof.
  intros Hd Hf Hi Hs Hki Hks.
  assert (Hwf : can_write fs (map_dir </> names.FUNC)) by (apply can_write_in_dir; assumption).
  assert (Hwi : can_write fs (_itemdata_path map_dir)) by (apply can_write_in_dir; assumption).
  assert (Hws : can_write fs (_submit_path map_dir)) by (apply can_write_in_dir; assumption).
  split; [|split].
  - destruct (load_object_frame
                (<[map_dir </> names.FUNC := File (frame func2)]>
                   (<[map_dir </> names.FUNC := File (frame func1)]> fs))
                (map_dir </> names.FUNC) func2) as (func' & Hl & He);
      [apply lookup_insert_eq|].
    exists func'. split; [|exact He].
    unfold outcome in *. unfold save_func, mbind, M_bind.
    rewrite (save_object_run fs func1 _ Hwf).
    rewrite save_object_run by (apply can_write_insert; exact Hwf). exact Hl.
  - unfold outcome, mbind, M_bind.
    rewrite (save_itemdata_run fs map_dir itemdata1 Hwi).
    rewrite save_itemdata_run by (apply can_write_insert; exact Hwi).
    rewrite (load_itemdata_file _ map_dir _ (lookup_insert_eq _ _ _)).
    change (dumps (",", ":") (List (map Dict itemdata2))) with (enc (List (map Dict itemdata2))).
    rewrite universal_newlines_enc.
    change (enc (List (map Dict itemdata2))) with (dumps (",", ":") (List (map Dict itemdata2))).
    rewrite (loads_dumps _ Hki). reflexivity.
  - unfold outcome, mbind, M_bind.
    rewrite (save_submit_run fs map_dir submit1 Hws).
    rewrite save_submit_run by (apply can_write_insert; exact Hws).
    rewrite (load_submit_file _ map_dir _ (lookup_insert_eq _ _ _)).
    rewrite universal_newlines_indent, (loads_dumps_indent 4 _ Hks). reflexivity.
Qed.

(** X20. [load_itemdata] and [load_submit] raise the error of the failed
    [open] and change nothing: [FileNotFoundError] where the file is
    missing from the map directory, [IsADirectoryError] where a directory
    stands in its place. *)
Theorem load_document_not_there (fs : filesystem) (map_dir : path) :
  fs !! map_dir = Some Dir ->
  (fs !! _itemdata_path map_dir = None ->
   load_itemdata map_dir fs = (Raise FileNotFoundError, fs)) /\
  (fs !! _itemdata_path map_dir = Some Dir ->
   load_itemdata map_dir fs = (Raise IsADirectoryError, fs)) /\
  (fs !! _submit_path map_dir = None ->
   load_submit map_dir fs = (Raise FileNotFoundError, fs)) /\
  (fs !! _submit_path map_dir = Some Dir ->
   load_submit map_dir fs = (Raise IsADirectoryError, fs)).
Proof.
  intros Hd.
  assert (Hdir : forall p, fs !! p = Some Dir -> Os.open_read p fs = (Raise IsADirectoryError, fs)).
  { intros p Hp. unfold Os.open_read, get_fs, mbind, M_bind. rewrite Hp. reflexivity. }
  repeat split; intros Hp.
  - unfold load_itemdata, Os.read_text, mbind, M_bind. unfold _itemdata_path in *.
    rewrite (open_read_absent fs map_dir _ Hd Hp). reflexivity.
  - unfold load_itemdata, Os.read_text, mbind, M_bind. rewrite (Hdir _ Hp). reflexivity.
  - unfold load_submit, Os.read_text, mbind, M_bind. unfold _submit_path in *.
    rewrite (open_read_absent fs map_dir _ Hd Hp). reflexivity.
  - unfold load_submit, Os.read_text, mbind, M_bind. rewrite (Hdir _ Hp). reflexivity.
Qed.

End WithBackends.

Lemma last_save_wins_witness :
  (exists func',
     outcome (save_func example_dir (RefCodec.Integer 5)
              ≫= fun _ => save_func example_dir (RefCodec.Closure 7 3)
              ≫= fun _ => load_object (example_dir </> names.FUNC)) example_fs = Ok func' /\
     RefCodec.Closure 7 3 = func') /\
  outcome (save_itemdata example_dir example_itemdata ≫= fun _ => save_itemdata example_dir []
           ≫= fun _ => load_itemdata example_dir) example_fs = Ok (List []) /\
  outcome (save_submit example_dir [] ≫= fun _ => save_submit example_dir RefSubmit.example_submit
           ≫= fun _ => load_submit example_dir) example_fs = Ok RefSubmit.example_submit.
Proof.
  refine (last_save_wins example_fs example_dir (RefCodec.Integer 5) (RefCodec.Closure 7 3)
            example_itemdata [] [] RefSubmit.example_submit _ _ _ _ _ _);
    try reflexivity; vm_compute; congruence.
Defined.

Lemma load_document_not_there_witness :
  load_itemdata example_dir example_fs = (Raise FileNotFoundError, example_fs) /\
  load_submit (Submit := RefSubmit.description) example_dir example_fs
  = (Raise FileNotFoundError, example_fs).
Proof.
  pose proof (load_document_not_there (Submit := RefSubmit.description) example_fs example_dir
                eq_refl) as (Hi & _ & Hs & _).
  split; [apply Hi|apply Hs]; reflexivity.
Defined.

End Replacing.

(** ** Truncated submit descriptions *)

Module TruncatedSubmit.
Import PyStr PyStrFacts Os OsFacts htio Examples Json JsonFacts JsonIndent JsonIndentFacts
  TruncatedDocument SubmitStore.

Lemma skip_ws_all (a : string) : sall is_ws a = true -> skip_ws a = "".
Proof.
  intros H. pose proof (skip_ws_app a "" H) as E. rewrite append_nil_r in E. exact E.
Qed.

Lemma ws_ends_value (p : string) : sall is_ws p = true -> ends_value p = true.
Proof.
  destruct p as [|c p]; [reflexivity|]. cbn [sall ends_value].
  intros [-> _]%andb_true_iff. reflexivity.
Qed.

Lemma begins_head (p t : string) :
  head_value t -> begins p t ->
  p = "" \/ exists c s, p = String c s /\ starts_value c = true.
Proof.
  intros (c & s & -> & Hc) [->|(p' & -> & _)]%begins_cons; [left; reflexivity|right; eauto].
Qed.

Lemma skip_ws_begins (p t : string) : head_value t -> begins p t -> skip_ws p = p.
Proof.
  intros Ht Hp. destruct (begins_head p t Ht Hp) as [->|(c & s & -> & Hc)]; [reflexivity|].
  apply skip_ws_head, Hc.
Qed.

Lemma scan_items_nothing (fuel : nat) : 2 <= fuel -> scan_items fuel "" = Raise JSONDecodeError.
Proof. destruct fuel as [|[|fuel]]; [lia|lia|reflexivity]. Qed.

Lemma scan_members_nothing (fuel : nat) :
  1 <= fuel -> scan_members fuel "" = Raise JSONDecodeError.
Proof. destruct fuel as [|fuel]; [lia|reflexivity]. Qed.

Lemma scan_once_nothing (fuel : nat) : 1 <= fuel -> scan_once fuel "" = Raise JSONDecodeError.
Proof. destruct fuel as [|fuel]; [lia|reflexivity]. Qed.

Section PrettyCut.
Variable width : nat.

Definition cut_fails_pretty (v : value) : Prop :=
  keys_unique v = true ->
  forall (level : nat) (p : string) (fuel : nat),
    cut p (pretty width level v) -> 2 * String.length p + 1 <= fuel ->
    scan_once fuel p = Raise JSONDecodeError \/
    exists n m, v = Int n /\ scan_once fuel p = Ok (Int m, "").

Lemma scan_items_cut_pretty (items : list value) :
  items <> [] ->
  Forall cut_fails_pretty items ->
  forallb keys_unique items = true ->
  forall (level : nat) (ws p : string) (fuel : nat),
    sall is_ws ws = true ->
    begins p (pretty_items width level items +:+ ws) ->
    2 * String.length p + 2 <= fuel ->
    scan_items fuel p = Raise JSONDecodeError.
Proof.
  induction items as [|item l IH]; [congruence|].
  intros _ Hall Hu level ws p fuel Hws Hp Hf.
  apply Forall_cons in Hall as [Hitem Hall].
  cbn [forallb] in Hu. apply andb_true_iff in Hu as [Hu Hul].
  destruct fuel as [|fuel]; [lia|]. cbn [scan_items].
  pose proof (need_pretty width item level) as Hn.
  assert (Hcut : forall q, cut q (pretty width level item) -> 2 * String.length q + 1 <= fuel ->
            ('(it, s1) ← scan_once fuel q;
             match skip_ws s1 with
             | "" => Raise JSONDecodeError
             | String c s2 =>
                 if Ascii.eqb c "]" then Ok ([it], s2)
                 else if Ascii.eqb c "," then
                   '(its, rest) ← scan_items fuel (skip_ws s2); Ok (it :: its, rest)
                 else Raise JSONDecodeError
             end) = Raise JSONDecodeError).
  { intros q Hq Hqf. destruct (Hitem Hu level q fuel Hq Hqf) as [->|(n & m & _ & ->)]; reflexivity. }
  destruct l as [|x l].
  - rewrite pretty_items_last, append_nil_r in Hp.
    apply begins_app in Hp as [Hp|(p' & -> & Hp)]; [apply (Hcut p Hp); lia|].
    rewrite length_append in Hf.
    pose proof (begins_sall is_ws p' ws Hp Hws) as Hw.
    rewrite (scan_once_pretty width item Hu fuel level p') by (lia || apply ws_ends_value, Hw).
    cbn [mbind result_bind]. rewrite (skip_ws_all p' Hw). reflexivity.
  - rewrite pretty_items_more, !append_assoc in Hp. cbn [append] in Hp.
    apply begins_app in Hp as [Hp|(p' & -> & Hp)]; [apply (Hcut p Hp); lia|].
    rewrite length_append in Hf.
    apply begins_cons in Hp as [->|(p1 & -> & Hp)].
    { rewrite (scan_once_pretty width item Hu fuel level "") by (lia || reflexivity).
      reflexivity. }
    rewrite (scan_once_pretty width item Hu fuel level (String "," p1)) by (lia || reflexivity).
    cbn [mbind result_bind skip_ws]. change (is_ws ",") with false. cbv iota.
    change (Ascii.eqb "," "]") with false. change (Ascii.eqb "," ",") with true. cbv iota.
    cbn [String.length] in Hf.
    apply begins_cons in Hp as [->|(p2 & -> & Hp)].
    { cbn [skip_ws]. rewrite scan_items_nothing by lia. reflexivity. }
    cbn [skip_ws]. change (is_ws " ") with true. cbv iota. cbn [String.length] in Hf.
    apply begins_app in Hp as [Hp|(p3 & -> & Hp)].
    { rewrite (skip_ws_all p2 (begins_sall is_ws p2 _ (cut_begins _ _ Hp) (nl_ws width level))).
      rewrite scan_items_nothing by lia. reflexivity. }
    rewrite (skip_ws_app (nl width level) p3 (nl_ws width level)).
    rewrite (skip_ws_begins p3 _ (pretty_items_head width level x l ws) Hp).
    rewrite length_append in Hf.
    rewrite (IH ltac:(congruence) Hall Hul level ws p3 fuel Hws Hp); [reflexivity|lia].
Qed.

Lemma scan_members_cut_pretty (members : dict) :
  members <> [] ->
  Forall (fun member => cut_fails_pretty (snd member)) members ->
  forallb (fun member => keys_unique (snd member)) members = true ->
  forall (level : nat) (ws p : string) (fuel : nat),
    sall is_ws ws = true ->
    begins p (pretty_members width level members +:+ ws) ->
    2 * String.length p + 2 <= fuel ->
    scan_members fuel p = Raise JSONDecodeError.
Proof.
  induction members as [|[key item] l IH]; [congruence|].
  intros _ Hall Hu level ws p fuel Hws Hp Hf.
  apply Forall_cons in Hall as [Hitem Hall]. cbn [snd] in Hitem.
  cbn [forallb snd] in Hu. apply andb_true_iff in Hu as [Hu Hul].
  destruct fuel as [|fuel]; [lia|].
  pose proof (need_pretty width item level) as Hn.
  set (tail := match l with
               | [] => ws
               | _ => String "," (String " " (nl width level
                                               +:+ (pretty_members width level l +:+ ws)))
               end).
  assert (Htext : pretty_members width level ((key, item) :: l) +:+ ws
                  = encode_string key +:+ String ":" (String " " (pretty width level item +:+ tail))).
  { unfold tail. destruct l as [|x l].
    - rewrite pretty_members_last, !append_assoc. reflexivity.
    - rewrite pretty_members_more, !append_assoc. reflexivity. }
  rewrite Htext in Hp. clear Htext.
  apply begins_app in Hp as [Hp|(p1 & -> & Hp)].
  { unfold encode_string in Hp. apply cut_cons in Hp as [->|(p' & -> & Hp)]; [reflexivity|].
    apply cut_snoc in Hp. cbn [scan_members]. change (Ascii.eqb QUOTE QUOTE) with true. cbv iota.
    rewrite (scanstring_begins_escape key p' Hp). reflexivity. }
  rewrite encode_string_app. cbn [scan_members].
  change (Ascii.eqb QUOTE QUOTE) with true. cbv iota.
  rewrite scanstring_escape. cbn [mbind result_bind].
  rewrite length_append in Hf.
  apply begins_cons in Hp as [->|(p2 & -> & Hp)]; [reflexivity|].
  cbn [skip_ws]. change (is_ws ":") with false. cbv iota.
  change (Ascii.eqb ":" ":") with true. cbv iota. cbn [String.length] in Hf.
  apply begins_cons in Hp as [->|(p3 & -> & Hp)].
  { cbn [skip_ws]. rewrite scan_once_nothing by lia. reflexivity. }
  cbn [skip_ws]. change (is_ws " ") with true. cbv iota. cbn [String.length] in Hf.
  rewrite (skip_ws_begins p3 _ (pretty_head width level item tail) Hp).
  apply begins_app in Hp as [Hp|(p4 & -> & Hp)].
  { destruct (Hitem Hu level p3 fuel Hp ltac:(lia)) as [->|(n & m & _ & ->)]; reflexivity. }
  rewrite length_append in Hf. unfold tail in Hp. destruct l as [|x l].
  - pose proof (begins_sall is_ws p4 ws Hp Hws) as Hw.
    rewrite (scan_once_pretty width item Hu fuel level p4) by (lia || apply ws_ends_value, Hw).
    cbn [mbind result_bind]. rewrite (skip_ws_all p4 Hw). reflexivity.
  - apply begins_cons in Hp as [->|(p5 & -> & Hp)].
    { rewrite (scan_once_pretty width item Hu fuel level "") by (lia || reflexivity).
      reflexivity. }
    rewrite (scan_once_pretty width item Hu fuel level (String "," p5)) by (lia || reflexivity).
    cbn [mbind result_bind skip_ws]. change (is_ws ",") with false. cbv iota.
    change (Ascii.eqb "," "}") with false. change (Ascii.eqb "," ",") with true. cbv iota.
    cbn [String.length] in Hf.
    apply begins_cons in Hp as [->|(p6 & -> & Hp)].
    { cbn [skip_ws]. rewrite scan_members_nothing by lia. reflexivity. }
    cbn [skip_ws]. change (is_ws " ") with true. cbv iota. cbn [String.length] in Hf.
    apply begins_app in Hp as [Hp|(p7 & -> & Hp)].
    { rewrite (skip_ws_all p6 (begins_sall is_ws p6 _ (cut_begins _ _ Hp) (nl_ws width level))).
      rewrite scan_members_nothing by lia. reflexivity. }
    rewrite (skip_ws_app (nl width level) p7 (nl_ws width level)).
    rewrite (skip_ws_begins p7 _ (pretty_members_head width level x l ws) Hp).
    rewrite length_append in Hf.
    rewrite (IH ltac:(congruence) Hall Hul level ws p7 fuel Hws Hp); [reflexivity|lia].
Qed.

Lemma scan_once_cut_pretty (v : value) : cut_fails_pretty v.
Proof.
  induction v as [|b|n|s|items IH|members IH] using value_induction;
    intros Hu level p fuel Hp Hf.
  - exact (scan_once_cut Null Hu p fuel Hp Hf).
  - exact (scan_once_cut (Bool b) Hu p fuel Hp Hf).
  - exact (scan_once_cut (Int n) Hu p fuel Hp Hf).
  - exact (scan_once_cut (Str s) Hu p fuel Hp Hf).
  - left. destruct fuel as [|fuel]; [lia|]. destruct items as [|x l].
    { change (pretty width level (List [])) with "[]" in Hp. cut_cases Hp; reflexivity. }
    rewrite pretty_List in Hp. cbn [append] in Hp.
    apply cut_cons in Hp as [->|(p1 & -> & Hp)]; [reflexivity|].
    cbn [String.length] in Hf. cbn [scan_once].
    change (Ascii.eqb "[" QUOTE) with false. change (Ascii.eqb "[" "{") with false.
    change (Ascii.eqb "[" "[") with true. cbv iota.
    apply cut_app in Hp as [Hp|(p2 & -> & Hp)].
    { rewrite (skip_ws_all p1 (begins_sall is_ws p1 _ (cut_begins _ _ Hp) (nl_ws width (S level)))).
      reflexivity. }
    rewrite <- append_assoc in Hp. apply cut_snoc in Hp.
    rewrite (skip_ws_app (nl width (S level)) p2 (nl_ws width (S level))).
    pose proof (pretty_items_head width (S level) x l (nl width level)) as Hhead.
    rewrite (skip_ws_begins p2 _ Hhead Hp). rewrite length_append in Hf.
    destruct (begins_head p2 _ Hhead Hp) as [->|(c & s & -> & Hc)]; [reflexivity|].
    rewrite (starts_value_not_close c Hc).
    rewrite (scan_items_cut_pretty (x :: l) ltac:(congruence) IH Hu (S level) (nl width level)
               (String c s) fuel (nl_ws width level) Hp); [reflexivity|lia].
  - left. destruct fuel as [|fuel]; [lia|]. destruct members as [|x l].
    { change (pretty width level (Dict [])) with "{}" in Hp. cut_cases Hp; reflexivity. }
    rewrite pretty_Dict in Hp. cbn [append] in Hp.
    apply cut_cons in Hp as [->|(p1 & -> & Hp)]; [reflexivity|].
    cbn [String.length] in Hf. cbn [scan_once].
    change (Ascii.eqb "{" QUOTE) with false. change (Ascii.eqb "{" "{") with true. cbv iota.
    apply cut_app in Hp as [Hp|(p2 & -> & Hp)].
    { rewrite (skip_ws_all p1 (begins_sall is_ws p1 _ (cut_begins _ _ Hp) (nl_ws width (S level)))).
      reflexivity. }
    rewrite <- append_assoc in Hp. apply cut_snoc in Hp.
    rewrite (skip_ws_app (nl width (S level)) p2 (nl_ws width (S level))).
    pose proof (pretty_members_head width (S level) x l (nl width level)) as Hhead.
    rewrite (skip_ws_begins p2 _ Hhead Hp). rewrite length_append in Hf.
    destruct (begins_head p2 _ Hhead Hp) as [->|(c & s & -> & Hc)]; [reflexivity|].
    assert (Hq : Ascii.eqb c "}" = false) by (revert Hc; clear; by_chars c).
    rewrite Hq. cbn [keys_unique] in Hu. apply andb_true_iff in Hu as [_ Hu].
    rewrite (scan_members_cut_pretty (x :: l) ltac:(congruence) IH Hu (S level) (nl width level)
               (String c s) fuel (nl_ws width level) Hp); [reflexivity|lia].
Qed.

Lemma loads_cut_indent (v : value) (p : string) :
  keys_unique v = true -> (forall n, v <> Int n) ->
  cut p (JsonIndent.dumps width (", ", ": ") v) -> loads p = Raise JSONDecodeError.
Proof.
  intros Hu Hv Hp. unfold JsonIndent.dumps in Hp. cbn [fst snd] in Hp.
  change (encode (blanks width) ", " ": " 0) with (pretty width 0) in Hp.
  unfold loads.
  pose proof (pretty_head width 0 v "") as Hhead. rewrite append_nil_r in Hhead.
  rewrite (skip_ws_begins p _ Hhead (cut_begins _ _ Hp)).
  destruct (scan_once_cut_pretty v Hu 0 p (2 * String.length p + 2) Hp ltac:(lia))
    as [->|(n & m & -> & _)]; [reflexivity|].
  destruct (Hv n eq_refl).
Qed.

End PrettyCut.

Section WithHtcondor.
Context {Submit : Type} `{!Htcondor Submit}.

(** X21. A file that holds only a beginning of the text [save_submit]
    writes is not taken for a description: wherever the text was cut, one
    character or more from its end, [load_submit] raises
    [JSONDecodeError] and the constructor [htcondor.Submit] is not
    called. *)
Theorem load_submit_truncated
    (fs : filesystem) (map_dir : path) (submit : Submit)
    (stored : string) (c : ascii) (lost : string) :
  keys_unique (Dict (submit_dict submit)) = true ->
  JsonIndent.dumps 4 (", ", ": ") (Dict (submit_dict submit)) = stored +:+ String c lost ->
  fs !! _submit_path map_dir = Some (File stored) ->
  load_submit map_dir fs = (Raise JSONDecodeError, fs).
Proof.
  intros Hu Htext Hp. rewrite (load_submit_file fs map_dir stored Hp).
  assert (Hcut : cut stored (JsonIndent.dumps 4 (", ", ": ") (Dict (submit_dict submit))))
    by (exists c, lost; exact Htext).
  rewrite universal_newlines_id.
  - rewrite (loads_cut_indent 4 _ stored Hu); [reflexivity|congruence|exact Hcut].
  - apply (sall_impl is_text_char); [apply text_char_not_CR|].
    apply (begins_sall _ _ _ (cut_begins _ _ Hcut)).
    apply (pretty_text 4 (Dict (submit_dict submit)) 0).
Qed.

End WithHtcondor.

Definition example_submit_text : string :=
  JsonIndent.dumps 4 (", ", ": ") (Dict RefSubmit.example_submit).

Definition truncated_submit_fs : filesystem :=
  <[_submit_path example_dir := File (substring 0 40 example_submit_text)]> example_fs.

Lemma load_submit_truncated_witness :
  load_submit (Submit := RefSubmit.description) example_dir truncated_submit_fs
  = (Raise JSONDecodeError, truncated_submit_fs).
Proof.
  apply (load_submit_truncated truncated_submit_fs example_dir RefSubmit.example_submit
           (substring 0 40 example_submit_text) "s"
           (substring 41 200 example_submit_text)); reflexivity.
Defined.

End TruncatedSubmit.
